(** * SettingsManager (agency_swarm/util/settings_manager.py)

    A shallow embedding of the settings manager: a process-wide mutex
    ([threading.Lock]), an advisory file lock taken with bounded retries,
    and load / save / update / delete over a JSON array file.

    The Python code is embedded as functions of a small state-and-exception
    monad over a [world]: the file system, the mutex, the open descriptors,
    the locks this process holds, the answers of the operating system to
    the calls still to come, and a trace of what was done.

    Modelling decisions, all about code outside the repository:
    - a file's text is represented by what [json.load] makes of it
      ([content]): a JSON document, text that is not JSON, bytes that are
      not text, or text nested deeper than the interpreter can follow;
    - [json.dump] writes the document [Json.encode] gives: a tuple is
      written as an array and comes back as a list. Floats and dict keys
      that are not strings are left out of the values, and so are values
      nested deeper than the recursion limit; an [int] of more than 4300
      digits (CPython 3.11 and later) is refused by both [json.dump] and
      [json.load];
    - paths are strings without a NUL character, compared as strings and
      parsed as [posixpath] does: a file has one name; the root directory
      exists, and so does the working directory, which the empty directory
      part names;
    - one calling thread is modelled; a [threading.Lock] that the calling
      thread already holds is never released by anybody else;
    - an operating-system call fails when the environment says so (the
      [script]: permissions, free space, the limits of the platform on
      the length of a name, a lock held elsewhere) or when the state of
      the file system makes it fail;
    - a blocking [flock] is followed up to the moment it comes back: the
      runs modelled are those in which the other process lets go, so the
      call is granted or raises. A wait that never ends is not a run of
      the model;
    - exception texts are those of CPython 3.11 and later;
    - [RETRY_DELAY] (0.1 s) is counted in milliseconds. *)

From Stdlib Require Import ZArith List Bool Ascii String Lia DecimalString.
From stdpp Require Import base gmap strings list.

Set Warnings "-register-all".
Local Open Scope string_scope.

(** ** Python values *)

(** The values [json.load] returns, which are also what the list steps of
    [update_settings] and [delete_settings] work on. A dict lists its
    items in insertion order. *)
Inductive json : Type :=
| JNull
| JBool (b : bool)
| JInt (n : Z)
| JStr (s : string)
| JList (l : list json)
| JObj (kv : list (string * json)).

(** The values a caller can hand to [json.dump]: those above, and tuples,
    which [json.load] never returns. *)
Inductive pyobj : Type :=
| ONone
| OBool (b : bool)
| OInt (n : Z)
| OStr (s : string)
| OList (l : list pyobj)
| OTuple (l : list pyobj)
| ODict (kv : list (string * pyobj)).

(** A value of the first kind is one of the second. *)
Fixpoint of_json (v : json) : pyobj :=
  match v with
  | JNull => ONone
  | JBool b => OBool b
  | JInt n => OInt n
  | JStr s => OStr s
  | JList l => OList (List.map of_json l)
  | JObj kv => ODict (List.map (fun p => match p with (k, x) => (k, of_json x) end) kv)
  end.

Coercion of_json : json >-> pyobj.

(** ** Exceptions *)

(** The classes the code raises or tells apart. [OSError_] stands for
    [OSError] and its subclasses other than [FileExistsError] ([IOError]
    is an alias of [OSError]). Every class here derives from [Exception]. *)
Inductive exn_class : Type :=
| Exception_
| OSError_
| FileExistsError_
| JSONDecodeError_
| UnicodeDecodeError_
| RecursionError_
| ValueError_
| UnboundLocalError_
| AttributeError_
| TypeError_.

Record exn : Type := mk_exn { e_class : exn_class; e_msg : string }.

(** [str(e)] *)
Definition str (e : exn) : string := e_msg e.

(** [isinstance(e, OSError)] *)
Definition is_OSError (e : exn) : bool :=
  match e_class e with OSError_ | FileExistsError_ => true | _ => false end.

Definition is_FileExistsError (e : exn) : bool :=
  match e_class e with FileExistsError_ => true | _ => false end.

(** [isinstance(e, json.JSONDecodeError)]: a [UnicodeDecodeError] or a plain
    [ValueError] is not one. *)
Definition is_JSONDecodeError (e : exn) : bool :=
  match e_class e with JSONDecodeError_ => true | _ => false end.

(** [repr(s)] of a [str], as the text of an [OSError] shows a file name:
    in single quotes, or in double quotes when the string has a single
    quote and no double one; the quote, the backslash and the control
    characters escaped. *)
Definition squote : ascii := "'"%char.
Definition dquote : ascii := ascii_of_nat 34.
Definition backslash : ascii := ascii_of_nat 92.

Fixpoint has_char (c : ascii) (s : string) : bool :=
  match s with
  | EmptyString => false
  | String a r => Ascii.eqb a c || has_char c r
  end.

Definition hex_digit (n : nat) : ascii :=
  match n with
  | 0 => "0" | 1 => "1" | 2 => "2" | 3 => "3" | 4 => "4" | 5 => "5"
  | 6 => "6" | 7 => "7" | 8 => "8" | 9 => "9" | 10 => "a" | 11 => "b"
  | 12 => "c" | 13 => "d" | 14 => "e" | _ => "f"
  end%char.

Definition escape (q c : ascii) : string :=
  let n := nat_of_ascii c in
  if Ascii.eqb c q || Ascii.eqb c backslash then String backslash (String c "")
  else if Nat.eqb n 9 then String backslash "t"
  else if Nat.eqb n 10 then String backslash "n"
  else if Nat.eqb n 13 then String backslash "r"
  else if (n <? 32)%nat || Nat.eqb n 127 then
    String backslash
      (String "x" (String (hex_digit (n / 16)) (String (hex_digit (n mod 16)) "")))
  else String c "".

Fixpoint escaped (q : ascii) (s : string) : string :=
  match s with
  | EmptyString => EmptyString
  | String c r => escape q c ++ escaped q r
  end.

Definition repr (s : string) : string :=
  let q := if has_char squote s && negb (has_char dquote s) then dquote
           else squote in
  String q (escaped q s ++ String q "").

(** ** The world *)

(** What [json.load] makes of a file's text. *)
Inductive content : Type :=
| Doc (v : json)            (* a JSON document, which [json.load] reads
                               as the value [v] *)
| Partial (v : json)        (* [json.dump], writing [v], cut short: not JSON *)
| Empty                     (* zero bytes, as left by [open(path, 'w')] *)
| Malformed (tag : string)  (* any other text that is not JSON *)
| Undecodable (msg : string) (* bytes that are not text in the encoding of
                                the platform: decoding raises
                                [UnicodeDecodeError(msg)] *)
| TooDeep (msg : string).   (* brackets nested deeper than the interpreter
                               follows: [RecursionError(msg)] *)

(** ** The [json] module *)

Module Json.

(** [sys.get_int_max_str_digits()] *)
Definition MAX_STR_DIGITS : nat := 4300.

(** The number of decimal digits of [n]. *)
Definition digits (n : Z) : nat := Decimal.nb_digits (N.to_uint (Z.abs_N n)).

Definition too_long (n : Z) : bool := (MAX_STR_DIGITS <? digits n)%nat.

(** The document [json.dump] writes for [o]: a tuple is written as an
    array. *)
Fixpoint encode (o : pyobj) : json :=
  match o with
  | ONone => JNull
  | OBool b => JBool b
  | OInt n => JInt n
  | OStr s => JStr s
  | OList l => JList (List.map encode l)
  | OTuple l => JList (List.map encode l)
  | ODict kv => JObj (List.map (fun p => match p with (k, x) => (k, encode x) end) kv)
  end.

(** The first integer of the document, in the order of its text, that has
    too many digits to be converted. *)
Fixpoint long_int (v : json) : option Z :=
  match v with
  | JInt n => if too_long n then Some n else None
  | JList l =>
      (fix first (l : list json) : option Z :=
         match l with
         | [] => None
         | x :: r => match long_int x with Some n => Some n | None => first r end
         end) l
  | JObj kv =>
      (fix first (kv : list (string * json)) : option Z :=
         match kv with
         | [] => None
         | (_, x) :: r => match long_int x with Some n => Some n | None => first r end
         end) kv
  | _ => None
  end.

(** What [json.dump(o, f, indent=4)] raises instead of finishing. *)
Definition dump_error (o : pyobj) : option exn :=
  match long_int (encode o) with
  | Some _ =>
      Some (mk_exn ValueError_
              "Exceeds the limit (4300 digits) for integer string conversion; use sys.set_int_max_str_digits() to increase the limit")
  | None => None
  end.

(** [json.load] on the text of a file: the value, or what is raised. The
    text of a [JSONDecodeError] is not modelled: the code does not read
    it. *)
Definition loads (c : content) : json + exn :=
  match c with
  | Doc v =>
      match long_int v with
      | Some n =>
          inr (mk_exn ValueError_
                 ("Exceeds the limit (4300 digits) for integer string conversion: value has "
                  ++ NilEmpty.string_of_uint (Nat.to_uint (digits n))
                  ++ " digits; use sys.set_int_max_str_digits() to increase the limit"))
      | None => inl v
      end
  | Partial _ | Empty | Malformed _ =>
      inr (mk_exn JSONDecodeError_ "Expecting value")
  | Undecodable msg => inr (mk_exn UnicodeDecodeError_ msg)
  | TooDeep msg => inr (mk_exn RecursionError_ msg)
  end.

End Json.

Inductive mode : Type := ModeR | ModeW.

(** The pair [(file, fd)] returned by [_acquire_file_lock]. *)
Record handle : Type := mk_handle { h_fd : nat; h_path : string; h_mode : mode }.

Inductive event : Type :=
| EvOpen (path : string) (m : mode)
| EvLock (fd : nat)
| EvUnlock (fd : nat)
| EvClose (fd : nat)
| EvSleep (ms : nat)
| EvPrint (msg : string).

Record world : Type := mk_world {
  windows : bool;                   (* platform.system() == 'Windows' *)
  files : gmap string content;      (* regular files *)
  dirs : gset string;               (* directories *)
  mutex : bool;                     (* self._file_lock is held *)
  next_fd : nat;
  opened : list nat;                (* descriptors that are open *)
  flocked : list nat;               (* descriptors this process holds a lock on *)
  script : list (option string);    (* answers of the OS to the next calls:
                                       None = succeeds, Some m = OSError(m) *)
  trace : list event                (* what was done, oldest first *)
}.

Definition set_files (f : gmap string content) (w : world) : world :=
  mk_world (windows w) f (dirs w) (mutex w) (next_fd w) (opened w)
           (flocked w) (script w) (trace w).
Definition set_dirs (d : gset string) (w : world) : world :=
  mk_world (windows w) (files w) d (mutex w) (next_fd w) (opened w)
           (flocked w) (script w) (trace w).
Definition set_mutex (b : bool) (w : world) : world :=
  mk_world (windows w) (files w) (dirs w) b (next_fd w) (opened w)
           (flocked w) (script w) (trace w).
Definition set_next_fd (n : nat) (w : world) : world :=
  mk_world (windows w) (files w) (dirs w) (mutex w) n (opened w)
           (flocked w) (script w) (trace w).
Definition set_opened (o : list nat) (w : world) : world :=
  mk_world (windows w) (files w) (dirs w) (mutex w) (next_fd w) o
           (flocked w) (script w) (trace w).
Definition set_flocked (l : list nat) (w : world) : world :=
  mk_world (windows w) (files w) (dirs w) (mutex w) (next_fd w) (opened w)
           l (script w) (trace w).
Definition set_script (s : list (option string)) (w : world) : world :=
  mk_world (windows w) (files w) (dirs w) (mutex w) (next_fd w) (opened w)
           (flocked w) s (trace w).
Definition log (e : event) (w : world) : world :=
  mk_world (windows w) (files w) (dirs w) (mutex w) (next_fd w) (opened w)
           (flocked w) (script w) (trace w ++ [e]).

(** ** The monad: state, exceptions, and a thread that blocks for ever *)

Inductive outcome (A : Type) : Type :=
| Ret (a : A)
| Raise (e : exn)
| Block.
Arguments Ret {A} a.
Arguments Raise {A} e.
Arguments Block {A}.

Definition M (A : Type) : Type := world -> outcome A * world.

Definition ret {A} (a : A) : M A := fun w => (Ret a, w).
Definition raise {A} (e : exn) : M A := fun w => (Raise e, w).

Definition bind {A B} (m : M A) (k : A -> M B) : M B := fun w =>
  match m w with
  | (Ret a, w') => k a w'
  | (Raise e, w') => (Raise e, w')
  | (Block, w') => (Block, w')
  end.

(** One statement [x = m] of a [try] block whose [except] clauses are [h]:
    when [m] raises, the handler decides how the whole [try] statement
    ends; otherwise the block goes on with [k]. The handler is given the
    local variables bound so far by its caller. *)
Definition try_bind {A B} (m : M A) (h : exn -> M B) (k : A -> M B) : M B :=
  fun w =>
  match m w with
  | (Ret a, w') => k a w'
  | (Raise e, w') => h e w'
  | (Block, w') => (Block, w')
  end.

Declare Scope py_scope.
Delimit Scope py_scope with py.
Notation "'let!' x ':=' m 'in' k" := (bind m (fun x => k))
  (at level 10, x name, m at level 100, k at level 200) : py_scope.
Notation "m ;; k" := (bind m (fun _ => k))
  (at level 100, k at level 200, right associativity) : py_scope.
Notation "'try!' x ':=' m 'except' h 'in' k" := (try_bind m h (fun x => k))
  (at level 10, x name, m at level 100, h at level 100, k at level 200)
  : py_scope.
Local Open Scope py_scope.

Definition modify (f : world -> world) : M unit := fun w => (Ret tt, f w).
Definition gets {A} (f : world -> A) : M A := fun w => (Ret (f w), w).

(** [with lock: body] for a [threading.Lock]: not re-entrant. A second
    [acquire] by the thread that holds the lock waits for a release that
    cannot come. The lock is released when the body returns or raises. *)
Definition with_lock {A} (body : M A) : M A := fun w =>
  if mutex w then (Block, w)
  else match body (set_mutex true w) with
       | (Block, w') => (Block, w')
       | (r, w') => (r, set_mutex false w')
       end.

Definition block {A} : M A := fun w => (Block, w).

(** ** The operating system and the standard library *)

Module OS.

(** The environment answers the next call; once the script is used up,
    every call succeeds. *)
Definition pop_reply : M (option string) := fun w =>
  (Ret (hd None (script w)), set_script (tl (script w)) w).

Definition os_error {A} (msg : string) : M A := raise (mk_exn OSError_ msg).

(** A system call that the environment may fail. *)
Definition syscall : M unit :=
  let! r := pop_reply in
  match r with
  | Some msg => os_error msg
  | None => ret tt
  end.

(** The texts of the errors that the state of the file system causes. *)
Definition ENOENT (p : string) : string :=
  "[Errno 2] No such file or directory: " ++ repr p.
Definition EEXIST (p : string) : string := "[Errno 17] File exists: " ++ repr p.
Definition ENOTDIR (p : string) : string :=
  "[Errno 20] Not a directory: " ++ repr p.
Definition EISDIR (p : string) : string :=
  "[Errno 21] Is a directory: " ++ repr p.

(** *** [os.path] (posixpath) *)

Definition is_slash (c : ascii) : bool := Ascii.eqb c "/"%char.

Fixpoint has_slash (p : string) : bool :=
  match p with
  | EmptyString => false
  | String c r => is_slash c || has_slash r
  end.

Fixpoint all_slashes (p : string) : bool :=
  match p with
  | EmptyString => true
  | String c r => is_slash c && all_slashes r
  end.

(** [p[:p.rfind('/') + 1]] *)
Fixpoint upto_last_slash (p : string) : string :=
  match p with
  | EmptyString => EmptyString
  | String c r => if has_slash p then String c (upto_last_slash r) else EmptyString
  end.

(** [p[p.rfind('/') + 1:]] *)
Fixpoint after_last_slash (p : string) : string :=
  match p with
  | EmptyString => EmptyString
  | String c r => if has_slash p then after_last_slash r else p
  end.

(** [s.rstrip('/')] *)
Fixpoint rstrip_slash (s : string) : string :=
  match s with
  | EmptyString => EmptyString
  | String c r => if all_slashes s then EmptyString else String c (rstrip_slash r)
  end.

(** [os.path.dirname]:
    [head = p[:i]; if head and head != sep*len(head): head = head.rstrip(sep)] *)
Definition dirname (p : string) : string :=
  let head := upto_last_slash p in
  if all_slashes head then head else rstrip_slash head.

(** [os.path.basename]; [os.path.split(p)] is [(dirname p, basename p)]. *)
Definition basename (p : string) : string := after_last_slash p.

Definition nonempty (s : string) : bool := negb (String.eqb s "").

(** [os.path.exists]: never raises. *)
Definition path_exists (p : string) : M bool :=
  gets (fun w => bool_decide (is_Some (files w !! p)) || bool_decide (p ∈ dirs w)).

(** The directory an entry is created in: the working directory for a
    bare name, the root, or a directory that was made. *)
Definition dir_exists (d : string) (w : world) : bool :=
  all_slashes d || bool_decide (d ∈ dirs w).

(** [os.path.isdir]: the empty string names nothing. *)
Definition isdir (p : string) (w : world) : bool := nonempty p && dir_exists p w.

(** [os.mkdir(name)] *)
Definition mkdir (name : string) : M unit :=
  syscall ;;
  let! fs := gets files in
  let! isd := gets (isdir name) in
  let! parent := gets (dir_exists (dirname name)) in
  if String.eqb name "" then os_error (ENOENT name)
  else
    match fs !! name with
    | Some _ => raise (mk_exn FileExistsError_ (EEXIST name))
    | None =>
        if isd then raise (mk_exn FileExistsError_ (EEXIST name))
        else
          match fs !! dirname name with
          | Some _ => os_error (ENOTDIR name)
          | None =>
              if parent then modify (fun w => set_dirs ({[ name ]} ∪ dirs w) w)
              else os_error (ENOENT name)
          end
    end.

(** The last statement of [os.makedirs(name, exist_ok=True)]:
    [[
    try:
        mkdir(name, mode)
    except OSError:
        if not exist_ok or not path.isdir(name):
            raise
    ]] *)
Definition mkdir_exist_ok (name : string) : M unit :=
  let except_OSError (e : exn) : M unit :=
    let! d := gets (isdir name) in
    if is_OSError e && d then ret tt else raise e in
  try! _ := mkdir name except except_OSError in
  ret tt.

(** The first statements of [os.makedirs]:
    [[
    head, tail = path.split(name)
    if not tail:
        head, tail = path.split(head)
    ]] *)
Definition makedirs_head (name : string) : string :=
  if nonempty (basename name) then dirname name else dirname (dirname name).

Definition makedirs_tail (name : string) : string :=
  if nonempty (basename name) then basename name else basename (dirname name).

(** [os.makedirs(name, exist_ok=True)], after the two statements above:
    [[
    if head and tail and not path.exists(head):
        try:
            makedirs(head, exist_ok=exist_ok)
        except FileExistsError:
            pass
        if tail == curdir:
            return
    ]]
    and then the [mkdir]. The root, which [dirs] does not list, exists.
    The recursion is on a shorter name; [fuel] stands for its length. *)
Fixpoint makedirs_from (fuel : nat) (name : string) : M unit :=
  match fuel with
  | O => block
  | S fuel' =>
      let head := makedirs_head name in
      let tail := makedirs_tail name in
      let rest : M unit :=
        if String.eqb tail "." then ret tt else mkdir_exist_ok name in
      let except_FileExistsError (e : exn) : M unit :=
        if is_FileExistsError e then rest else raise e in
      let! ex := path_exists head in
      if nonempty head && nonempty tail && negb (all_slashes head || ex) then
        try! _ := makedirs_from fuel' head except except_FileExistsError in
        rest
      else mkdir_exist_ok name
  end.

Definition makedirs (name : string) : M unit :=
  makedirs_from (S (String.length name)) name.

Definition alloc (path : string) (m : mode) : M handle := fun w =>
  let fd := next_fd w in
  (Ret (mk_handle fd path m), set_opened (fd :: opened w) (set_next_fd (S fd) w)).

Definition write_file (path : string) (c : content) : M unit :=
  modify (fun w => set_files (<[ path := c ]> (files w)) w).

(** A name that ends in a slash or in a dot part names a directory, not a
    file that could be created. *)
Definition names_dir (p : string) : bool :=
  String.eqb (basename p) "" || String.eqb (basename p) "."
  || String.eqb (basename p) "..".

(** [open(path, mode)]: mode ['w'] creates the file or truncates it. *)
Definition open (path : string) (m : mode) : M handle :=
  modify (log (EvOpen path m)) ;;
  syscall ;;
  let! fs := gets files in
  let! isd := gets (fun w => bool_decide (path ∈ dirs w)) in
  let! parent := gets (dir_exists (dirname path)) in
  match fs !! path, m with
  | Some _, ModeR => alloc path m
  | Some _, ModeW => write_file path Empty ;; alloc path m
  | None, ModeR =>
      if isd then os_error (EISDIR path) else os_error (ENOENT path)
  | None, ModeW =>
      if isd || names_dir path then
        os_error (if String.eqb path "" then ENOENT path else EISDIR path)
      else if parent then write_file path Empty ;; alloc path m
      else
        match fs !! dirname path with
        | Some _ => os_error (ENOTDIR path)
        | None => os_error (ENOENT path)
        end
  end.

Definition remove_fd (fd : nat) (l : list nat) : list nat :=
  List.filter (fun x => negb (Nat.eqb x fd)) l.

(** [file.close()]: closing gives up the lock held through the descriptor;
    closing a closed file does nothing. *)
Definition close (f : handle) : M unit :=
  let! o := gets opened in
  if existsb (Nat.eqb (h_fd f)) o then
    modify (fun w => log (EvClose (h_fd f))
                       (set_flocked (remove_fd (h_fd f) (flocked w))
                          (set_opened (remove_fd (h_fd f) (opened w)) w)))
  else ret tt.

(** [fcntl.flock(fd, fcntl.LOCK_EX)]: waits for the lock, then has it, or
    raises. The wait itself leaves no mark (see the modelling decisions). *)
Definition flock_EX (fd : nat) : M unit :=
  syscall ;;
  modify (fun w => log (EvLock fd) (set_flocked (fd :: flocked w) w)).

(** [msvcrt.locking(fd, msvcrt.LK_NBLCK, 1)]: raises [OSError] at once when
    another process holds the lock. *)
Definition locking_NBLCK (fd : nat) : M unit :=
  syscall ;;
  modify (fun w => log (EvLock fd) (set_flocked (fd :: flocked w) w)).

(** [fcntl.flock(fd, fcntl.LOCK_UN)] and [msvcrt.locking(fd, LK_UNLCK, 1)] *)
Definition unlock (fd : nat) : M unit :=
  syscall ;;
  modify (fun w => log (EvUnlock fd) (set_flocked (remove_fd fd (flocked w)) w)).

(** [time.sleep], in milliseconds *)
Definition sleep (ms : nat) : M unit := modify (log (EvSleep ms)).

Definition print (msg : string) : M unit := modify (log (EvPrint msg)).

(** [json.load(file)]: reads through the file object, which has to be open
    and opened for reading, then decodes. *)
Definition json_load (f : handle) : M json :=
  let! o := gets opened in
  if negb (existsb (Nat.eqb (h_fd f)) o) then
    raise (mk_exn ValueError_ "I/O operation on closed file.")
  else
    match h_mode f with
    | ModeW => os_error "not readable"
    | ModeR =>
        syscall ;;
        let! fs := gets files in
        match fs !! h_path f with
        | None => os_error "[Errno 9] Bad file descriptor"
        | Some c =>
            match Json.loads c with
            | inl v => ret v
            | inr e => raise e
            end
        end
    end.

(** [with open(path, 'w') as f: json.dump(v, f, indent=4)]: the file is
    closed whether the dump ends or raises. *)
Definition json_dump_to (path : string) (v : pyobj) : M unit :=
  let! f := open path ModeW in
  match Json.dump_error v with
  | Some e => write_file path (Partial (Json.encode v)) ;; close f ;; raise e
  | None =>
      let! r := pop_reply in
      match r with
      | Some msg =>
          write_file path (Partial (Json.encode v)) ;; close f ;; os_error msg
      | None => write_file path (Doc (Json.encode v)) ;; close f
      end
  end.

(** [os.replace(src, dst)]. On Windows the call is refused while [dst] is
    open; the model leaves that refusal to the environment, as any other
    failure of the call (see [replace_fails]). *)
Definition replace (src dst : string) : M unit :=
  syscall ;;
  let! fs := gets files in
  let! isd := gets (fun w => bool_decide (dst ∈ dirs w)) in
  match fs !! src with
  | None => os_error (ENOENT src ++ " -> " ++ repr dst)
  | Some c =>
      if isd then os_error (EISDIR src ++ " -> " ++ repr dst)
      else modify (fun w => set_files (<[ dst := c ]> (delete src (files w))) w)
  end.

(** [os.remove(path)] *)
Definition remove (path : string) : M unit :=
  syscall ;;
  let! fs := gets files in
  match fs !! path with
  | None => os_error (ENOENT path)
  | Some _ => modify (fun w => set_files (delete path (files w)) w)
  end.

End OS.

(** ** Python operations on the loaded value *)

Module Py.

Definition type_name (v : json) : string :=
  match v with
  | JNull => "NoneType"
  | JBool _ => "bool"
  | JInt _ => "int"
  | JStr _ => "str"
  | JList _ => "list"
  | JObj _ => "dict"
  end.

Definition attribute_error {A} (v : json) (attr : string) : M A :=
  raise (mk_exn AttributeError_
           ("'" ++ type_name v ++ "' object has no attribute '" ++ attr ++ "'")).

Definition type_error {A} (msg : string) : M A := raise (mk_exn TypeError_ msg).

(** [d.get(key)] on a dict: [None] when the key is absent. *)
Fixpoint dict_get (kv : list (string * json)) (key : string) : json :=
  match kv with
  | [] => JNull
  | (k, v) :: rest => if String.eqb k key then v else dict_get rest key
  end.

(** [v.get(key)]: only a dict has the method. *)
Definition get (v : json) (key : string) : M json :=
  match v with
  | JObj kv => ret (dict_get kv key)
  | _ => attribute_error v "get"
  end.

Fixpoint chars (s : string) : list json :=
  match s with
  | EmptyString => []
  | String c r => JStr (String c EmptyString) :: chars r
  end.

(** What a [for] loop or a comprehension runs over. *)
Definition iter (v : json) : M (list json) :=
  match v with
  | JList l => ret l
  | JObj kv => ret (List.map (fun p => JStr (fst p)) kv)
  | JStr s => ret (chars s)
  | _ => type_error ("'" ++ type_name v ++ "' object is not iterable")
  end.

(** [v == assistant_id], where [assistant_id] is a [str] or [None]. *)
Definition eq_id (v : json) (assistant_id : option string) : bool :=
  match v, assistant_id with
  | JStr s, Some t => String.eqb s t
  | JNull, None => true
  | _, _ => false
  end.

(** [v[i] = x] *)
Definition setitem (v : json) (i : nat) (x : json) : M json :=
  match v with
  | JList l => ret (JList (<[ i := x ]> l))
  | _ => type_error ("'" ++ type_name v ++ "' object does not support item assignment")
  end.

(** [v.append(x)] *)
Definition append (v : json) (x : json) : M json :=
  match v with
  | JList l => ret (JList (l ++ [x]))
  | _ => attribute_error v "append"
  end.

End Py.

(** ** class SettingsManager *)

Module SettingsManager.

Definition MAX_RETRIES : nat := 5.
Definition RETRY_DELAY : nat := 100.

Definition exhausted : string := "Failed to acquire file lock after 5 retries".

Definition close_if_bound (file : option handle) : M unit :=
  match file with
  | Some f => OS.close f
  | None => ret tt
  end.

(** The [while retries < self.MAX_RETRIES] loop of [_acquire_file_lock].
    [file] is the local variable of that name, unbound before the first
    [open] that succeeds. [fuel] bounds the iterations; with
    [MAX_RETRIES - retries] of it the loop ends by itself
    ([acquire_loop_spec]). *)
Fixpoint acquire_loop (fuel retries : nat) (file : option handle)
    (file_path : string) (m : mode) {struct fuel} : M handle :=
  if negb (retries <? MAX_RETRIES)%nat then
    raise (mk_exn Exception_ exhausted)
  else
    match fuel with
    | O => block
    | S fuel' =>
        let again (file : option handle) : M handle :=
          OS.sleep RETRY_DELAY ;;
          acquire_loop fuel' (retries + 1) file file_path m in
        let except_Exception (file : option handle) (e : exn) : M handle :=
          close_if_bound file ;;
          if (MAX_RETRIES - 1 <=? retries)%nat then
            raise (mk_exn Exception_ (exhausted ++ ": " ++ str e))
          else again file in
        try! f := OS.open file_path m except except_Exception file in
        let! win := gets windows in
        if negb win then
          try! _ := OS.flock_EX (h_fd f) except except_Exception (Some f) in
          ret f
        else
          let except_IOError (e : exn) : M handle :=
            if is_OSError e then OS.close f ;; again (Some f)
            else except_Exception (Some f) e in
          try! _ := OS.locking_NBLCK (h_fd f) except except_IOError in
          ret f
    end.

Definition _acquire_file_lock (file_path : string) (m : mode) : M handle :=
  acquire_loop MAX_RETRIES 0 None file_path m.

Definition _release_file_lock (file : handle) : M unit :=
  let warn (e : exn) : M unit :=
    OS.print ("Warning: Error releasing file lock: " ++ str e) in
  try! _ := OS.unlock (h_fd file) except warn in
  OS.close file.

Definition release_if_bound (file : option handle) : M unit :=
  match file with
  | Some f => _release_file_lock f
  | None => ret tt
  end.

(** The two [except] clauses of [load_settings]. *)
Definition load_except (file : option handle) (e : exn) : M json :=
  if is_JSONDecodeError e then
    release_if_bound file ;;
    ret (JList [])
  else
    release_if_bound file ;;
    raise (mk_exn Exception_ ("Failed to load settings: " ++ str e)).

Definition load_settings (settings_path : string) : M json :=
  with_lock (
    let! ex := OS.path_exists settings_path in
    if negb ex then ret (JList [])
    else
      try! file := _acquire_file_lock settings_path ModeR except load_except None in
      try! settings := OS.json_load file except load_except (Some file) in
      _release_file_lock file ;;
      ret settings).

(** The [except] clause of [save_settings]. [temp_path] is read whether or
    not it was assigned. *)
Definition save_except (file : option handle) (temp_path : option string)
    (e : exn) : M unit :=
  release_if_bound file ;;
  match temp_path with
  | None =>
      raise (mk_exn UnboundLocalError_
               "cannot access local variable 'temp_path' where it is not associated with a value")
  | Some temp_path =>
      let! ex := OS.path_exists temp_path in
      (if ex then OS.remove temp_path else ret tt) ;;
      raise (mk_exn Exception_ ("Failed to save settings: " ++ str e))
  end.

Definition save_settings (settings_path : string) (settings : pyobj) : M unit :=
  with_lock (
    try! _ := OS.makedirs (OS.dirname settings_path)
      except save_except None None in
    let temp_path := settings_path ++ ".tmp" in
    try! _ := OS.json_dump_to temp_path settings
      except save_except None (Some temp_path) in
    try! file := _acquire_file_lock settings_path ModeW
      except save_except None (Some temp_path) in
    try! _ := OS.replace temp_path settings_path
      except save_except (Some file) (Some temp_path) in
    _release_file_lock file).

(** The [for i, setting in enumerate(settings)] loop of [update_settings]:
    the index of the first record whose id is [assistant_id]. *)
Fixpoint find_setting (items : list json) (assistant_id : option string)
    (i : nat) : M (option nat) :=
  match items with
  | [] => ret None
  | setting :: rest =>
      let! v := Py.get setting "id" in
      if Py.eq_id v assistant_id then ret (Some i)
      else find_setting rest assistant_id (S i)
  end.

(** The statements of [update_settings] between the load and the save. *)
Definition update_list (settings : json) (assistant_id : option string)
    (new_settings : json) : M json :=
  let! items := Py.iter settings in
  let! found := find_setting items assistant_id 0 in
  match found with
  | Some i => Py.setitem settings i new_settings
  | None => Py.append settings new_settings
  end.

Definition update_except (e : exn) : M unit :=
  raise (mk_exn Exception_ ("Failed to update settings: " ++ str e)).

Definition update_settings (settings_path : string)
    (assistant_id : option string) (new_settings : json) : M unit :=
  with_lock (
    try! settings := load_settings settings_path except update_except in
    try! settings := update_list settings assistant_id new_settings
      except update_except in
    try! _ := save_settings settings_path settings except update_except in
    ret tt).

(** [[s for s in settings if s.get('id') != assistant_id]] *)
Fixpoint keep_others (items : list json) (assistant_id : option string)
    : M (list json) :=
  match items with
  | [] => ret []
  | s :: rest =>
      let! v := Py.get s "id" in
      let! kept := keep_others rest assistant_id in
      ret (if negb (Py.eq_id v assistant_id) then s :: kept else kept)
  end.

Definition delete_list (settings : json) (assistant_id : option string)
    : M json :=
  let! items := Py.iter settings in
  let! kept := keep_others items assistant_id in
  ret (JList kept).

Definition delete_except (e : exn) : M unit :=
  raise (mk_exn Exception_ ("Failed to delete settings: " ++ str e)).

Definition delete_settings (settings_path : string)
    (assistant_id : option string) : M unit :=
  with_lock (
    try! settings := load_settings settings_path except delete_except in
    try! settings := delete_list settings assistant_id except delete_except in
    try! _ := save_settings settings_path settings except delete_except in
    ret tt).

End SettingsManager.

(** ** [SettingsManager()]: [__new__] and [__init__] *)

Module Singleton.

(** An object of the class: its attributes, unset until assigned. *)
Record instance : Type := mk_instance {
  _initialized : option bool;
  _file_lock : option nat          (* the lock, by identity *)
}.

(** The class attributes, the objects made so far and the locks made so
    far by [threading.Lock()]. *)
Record class_state : Type := mk_class {
  _instance : option nat;          (* cls._instance: the object, by identity *)
  _lock : bool;                    (* cls._lock is held *)
  heap : gmap nat instance;
  next_obj : nat;
  next_lock : nat
}.

Definition C (A : Type) : Type := class_state -> outcome A * class_state.

Definition no_attribute {A} (attr : string) : C A := fun s =>
  (Raise (mk_exn AttributeError_
            ("'SettingsManager' object has no attribute '" ++ attr ++ "'")), s).

(** [__new__]: under [cls._lock], make the object if there is none yet and
    set its [_initialized] to [False]; return [cls._instance]. *)
Definition __new__ : C nat := fun s =>
  if _lock s then (Block, s)
  else
    match _instance s with
    | None =>
        let obj := next_obj s in
        (Ret obj,
         mk_class (Some obj) false
                  (<[ obj := mk_instance (Some false) None ]> (heap s))
                  (S obj) (next_lock s))
    | Some obj => (Ret obj, s)
    end.

(** [__init__]: return at once when [self._initialized]; otherwise set it
    and make [self._file_lock]. *)
Definition __init__ (self : nat) : C unit := fun s =>
  match heap s !! self with
  | None => no_attribute "_initialized" s
  | Some o =>
      match _initialized o with
      | None => no_attribute "_initialized" s
      | Some true => (Ret tt, s)
      | Some false =>
          (Ret tt,
           mk_class (_instance s) (_lock s)
                    (<[ self := mk_instance (Some true) (Some (next_lock s)) ]>
                       (heap s))
                    (next_obj s) (S (next_lock s)))
      end
  end.

(** [SettingsManager()]: [__new__], then [__init__] on what it returned. *)
Definition construct : C nat := fun s =>
  match __new__ s with
  | (Ret self, s1) =>
      match __init__ self s1 with
      | (Ret _, s2) => (Ret self, s2)
      | (Raise e, s2) => (Raise e, s2)
      | (Block, s2) => (Block, s2)
      end
  | (Raise e, s1) => (Raise e, s1)
  | (Block, s1) => (Block, s1)
  end.

(** The class as the module defines it: no instance, the lock free. *)
Definition at_import : class_state := mk_class None false ∅ 0 0.

End Singleton.

(** * Vocabulary of the properties *)

Import SettingsManager.

(** The environment fails no call. *)
Definition quiet (w : world) : Prop := Forall (fun r => r = None) (script w).

(** The attempts made: one [open] each. *)
Fixpoint opens (t : list event) : nat :=
  match t with
  | [] => 0
  | EvOpen _ _ :: r => S (opens r)
  | _ :: r => opens r
  end.

(** The delays slept, in order. *)
Fixpoint sleeps (t : list event) : list nat :=
  match t with
  | [] => []
  | EvSleep ms :: r => ms :: sleeps r
  | _ :: r => sleeps r
  end.

(** [w1] is [w] after events [t] that touched no file but [path], and not
    even that one when it was opened for reading. *)
Record changes (path : string) (m : mode) (w w1 : world) (t : list event)
  : Prop := mk_changes {
  ch_trace : trace w1 = (trace w ++ t)%list;
  ch_windows : windows w1 = windows w;
  ch_mutex : mutex w1 = mutex w;
  ch_dirs : dirs w1 = dirs w;
  ch_other : forall q, q <> path -> files w1 !! q = files w !! q;
  ch_read : m = ModeR -> files w1 = files w;
  ch_script : forall r, In r (script w1) -> In r (script w)
}.

(** The error raised inside the loop, with the cause: line 84. *)
Definition wrapped (cause : string) : exn :=
  mk_exn Exception_ (exhausted ++ ": " ++ cause).

(** The error raised after the loop, without a cause: line 88. *)
Definition bare : exn := mk_exn Exception_ exhausted.

(** What a run of the loop amounts to, with [MAX_RETRIES - retries]
    attempts left. *)
Definition acquire_post (retries : nat) (path : string) (w : world)
    (r : outcome handle) (t : list event) : Prop :=
  match r with
  | Ret h =>
      h_path h = path /\ 1 <= opens t <= MAX_RETRIES - retries /\
      sleeps t = repeat RETRY_DELAY (opens t - 1)
  | Raise e =>
      opens t = MAX_RETRIES - retries /\
      ((e = bare /\ sleeps t = repeat RETRY_DELAY (opens t) /\
        (retries < MAX_RETRIES -> windows w = true))
       \/ (exists cause, e = wrapped cause /\ retries < MAX_RETRIES /\
             sleeps t = repeat RETRY_DELAY (opens t - 1)))
  | Block => False
  end.

(** The world after an [open] of a file that exists, after a lock that is
    granted, and after a release that goes well. *)
Definition after_open (path : string) (m : mode) (w : world) : world :=
  mk_world (windows w)
    (match m with ModeR => files w | ModeW => <[ path := Empty ]> (files w) end)
    (dirs w) (mutex w) (S (next_fd w)) (next_fd w :: opened w) (flocked w)
    (tl (script w)) (trace w ++ [EvOpen path m]).

Definition after_lock (fd : nat) (w : world) : world :=
  mk_world (windows w) (files w) (dirs w) (mutex w) (next_fd w) (opened w)
    (fd :: flocked w) (tl (script w)) (trace w ++ [EvLock fd]).

Definition after_release (fd : nat) (w : world) : world :=
  mk_world (windows w) (files w) (dirs w) (mutex w) (next_fd w)
    (OS.remove_fd fd (opened w)) (OS.remove_fd fd (OS.remove_fd fd (flocked w)))
    (tl (script w)) (trace w ++ [EvUnlock fd; EvClose fd]).

(** The error of the last [except] clause of [load_settings]. *)
Definition load_error (cause : string) : exn :=
  mk_exn Exception_ ("Failed to load settings: " ++ cause).

(** What [load_settings] makes of the text of a file it could open, lock
    and read: the value, the empty list for text that is not JSON, a load
    error for whatever else [json.load] raises. *)
Definition load_result (c : content) : outcome json :=
  match Json.loads c with
  | inl v => Ret v
  | inr e =>
      if is_JSONDecodeError e then Ret (JList [])
      else Raise (load_error (str e))
  end.

(** The stored list is a list of records: dicts. *)
Definition is_dict (s : json) : bool :=
  match s with JObj _ => true | _ => false end.

(** [s.get('id')] of a record: [None] when there is no ['id'] key. *)
Definition record_id (s : json) : json :=
  match s with JObj kv => Py.dict_get kv "id" | _ => JNull end.

Definition has_id (assistant_id : option string) (s : json) : bool :=
  Py.eq_id (record_id s) assistant_id.

Definition records (l : list json) : Prop := Forall (fun s => is_dict s = true) l.

(** A world at rest: nothing open, nothing locked, the mutex free. *)
Definition fresh (win : bool) (fs : gmap string content) (ds : gset string)
    (sc : list (option string)) : world :=
  mk_world win fs ds false 3 [] [] sc [].

Definition settings_json : string := "/data/settings.json".

Definition rec_1_v1 : json := JObj [("id", JStr "1"); ("v", JInt 1)].
Definition rec_1_v2 : json := JObj [("id", JStr "1"); ("v", JInt 2)].
Definition rec_no_id : json := JObj [("v", JInt 7)].

(** A settings file holding [l], in a directory that exists. *)
Definition stored (win : bool) (l : list json) (sc : list (option string))
    : world :=
  fresh win {[ settings_json := Doc (JList l) ]} {[ "/data" ]} sc.

(** What the environment answers to the calls of [save_settings], in
    order: [makedirs], [open] of the temporary file, the write, [open] of
    the target, the lock, [os.replace]. On Windows [os.replace] onto a file
    that is open fails. *)
Definition replace_fails : list (option string) :=
  [None; None; None; None; None;
   Some "[WinError 32] The process cannot access the file because it is being used by another process"].

(** A settings file whose text is not JSON. *)
Definition garbled : world :=
  fresh false {[ settings_json := Malformed "{oops" ]} {[ "/data" ]} [].

(** The lock is refused at each of the five attempts. *)
Definition refused_five_times : list (option string) :=
  let denied := Some "[Errno 13] Permission denied" in
  [None; denied; None; denied; None; denied; None; denied; None; denied].

(** What reading [temp_path] before its assignment raises. *)
Definition unbound_temp_path : exn :=
  mk_exn UnboundLocalError_
    "cannot access local variable 'temp_path' where it is not associated with a value".

(** The states the class can be in: no object yet, or one object that
    [__new__] has made and [__init__] has or has not yet set up. *)
Definition constructible (s : Singleton.class_state) : Prop :=
  Singleton._lock s = false /\
  match Singleton._instance s with
  | None => True
  | Some obj =>
      exists o, Singleton.heap s !! obj = Some o /\
        (Singleton._initialized o = Some false
         \/ exists l, o = Singleton.mk_instance (Some true) (Some l))
  end.

(** Descriptors are numbered upwards: those open are below the next one
    to be given out, and a lock is held through an open descriptor. *)
Definition tidy (w : world) : Prop :=
  Forall (fun fd => fd < next_fd w) (opened w) /\
  Forall (fun fd => In fd (opened w)) (flocked w).

(** What [_release_file_lock] prints when the unlock raises. *)
Definition release_warning (msg : string) : event :=
  EvPrint ("Warning: Error releasing file lock: " ++ msg).

(** The local variable [file] of [_acquire_file_lock] is unbound, or bound
    to a file that was closed. *)
Definition file_closed (file : option handle) (w : world) : Prop :=
  match file with
  | None => True
  | Some f => ~ In (h_fd f) (opened w) /\ h_fd f < next_fd w
  end.

(** The files are as they were, but for [path], which was emptied if it
    was opened for writing. *)
Definition emptied (path : string) (m : mode) (w w1 : world) : Prop :=
  files w1 = files w \/ (m = ModeW /\ files w1 = <[ path := Empty ]> (files w)).

(** The same descriptors are open and the same are locked. *)
Definition same_fds (w w1 : world) : Prop :=
  opened w1 = opened w /\ flocked w1 = flocked w /\ next_fd w <= next_fd w1.

(** The world after an [open] that raised, after a lock that was refused,
    and after the close of an open file. *)
Definition open_failed (path : string) (m : mode) (w : world) : world :=
  mk_world (windows w) (files w) (dirs w) (mutex w) (next_fd w) (opened w)
    (flocked w) (tl (script w)) (trace w ++ [EvOpen path m]).

Definition refused (w : world) : world := set_script (tl (script w)) w.

Definition closed (fd : nat) (w : world) : world :=
  mk_world (windows w) (files w) (dirs w) (mutex w) (next_fd w)
    (OS.remove_fd fd (opened w)) (OS.remove_fd fd (flocked w))
    (script w) (trace w ++ [EvClose fd]).

(** [w1] is [w] after calls that can only make directories. *)
Definition made_dirs (w w1 : world) : Prop :=
  files w1 = files w /\ trace w1 = trace w /\ mutex w1 = mutex w /\
  windows w1 = windows w /\ opened w1 = opened w /\ flocked w1 = flocked w /\
  next_fd w1 = next_fd w /\ dirs w ⊆ dirs w1 /\
  (forall r, In r (script w1) -> In r (script w)).

(** What [save_settings] may have done to the files when it ends with
    [r] in [w1], having started in [w]. *)
Definition save_post (p : string) (X : pyobj) (w : world) (r : outcome unit)
    (w1 : world) : Prop :=
  (forall q, q <> p -> q <> p ++ ".tmp" -> files w1 !! q = files w !! q) /\
  match r with
  | Ret _ =>
      files w1 !! p = Some (Doc (Json.encode X)) /\
      files w1 !! (p ++ ".tmp") = None
  | Raise _ =>
      files w1 !! p = files w !! p \/ files w1 !! p = Some Empty
  | Block => True
  end.

(** The world after [os.makedirs] made [d], after the dump wrote [c] to the
    temporary file, and after [os.replace] put [c] at [dst]. *)
Definition made (d : string) (w : world) : world :=
  set_dirs ({[ d ]} ∪ dirs w) (refused w).

Definition written (tp : string) (c : content) (w : world) : world :=
  closed (next_fd w)
    (set_files (<[ tp := c ]> (files (after_open tp ModeW w)))
       (refused (after_open tp ModeW w))).

Definition replaced (src dst : string) (c : content) (w : world) : world :=
  set_files (<[ dst := c ]> (delete src (files w))) (refused w).

(** A path whose directory part lies below the settings file. *)
Definition below_a_file : string := "/data/settings.json/sub/x.json".

(** No settings file yet; the write of the temporary file will fail. *)
Definition disk_full : world :=
  fresh false ∅ ∅ [None; None; Some "[Errno 28] No space left on device"; None].

(** What an operation that took and gave back descriptors leaves, having
    started in [w]: the descriptors open and the locks held are those of
    [w], unless a release printed its warning. *)
Definition fds_kept (w w1 : world) : Prop :=
  tidy w1 /\
  ((opened w1 = opened w /\ flocked w1 = flocked w)
   \/ exists msg, In (release_warning msg) (trace w1)).

(** What Python raises for [s.get] when [s] is not a dict. *)
Definition no_get (s : json) : exn :=
  mk_exn AttributeError_
    ("'" ++ Py.type_name s ++ "' object has no attribute 'get'").

(** * Properties *)

(** ** Small facts about the model *)

Lemma quiet_hd (s : list (option string)) :
  Forall (fun r => r = None) s -> hd None s = None.
Proof. destruct 1; simpl; auto. Qed.

Lemma quiet_tl (s : list (option string)) :
  Forall (fun r => r = None) s -> Forall (fun r => r = None) (tl s).
Proof. destruct 1; simpl; auto. Qed.

Lemma set_mutex_release (w : world) :
  mutex w = false -> set_mutex false (set_mutex true w) = w.
Proof. destruct w; simpl; intros ->; reflexivity. Qed.

Lemma dirname_bare (p : string) : OS.has_slash p = false -> OS.dirname p = "".
Proof.
  intros H. unfold OS.dirname.
  assert (OS.upto_last_slash p = "") as ->; [|reflexivity].
  destruct p; simpl in *; [reflexivity|]. now rewrite H.
Qed.

(** ** Paths *)

Lemma has_slash_app (p s : string) :
  OS.has_slash (p ++ s) = OS.has_slash p || OS.has_slash s.
Proof.
  induction p as [|c p IH]; simpl; [reflexivity|].
  rewrite IH. now rewrite orb_assoc.
Qed.

Lemma upto_last_slash_tmp (p : string) :
  OS.upto_last_slash (p ++ ".tmp") = OS.upto_last_slash p.
Proof.
  induction p as [|c p IH]; [reflexivity|].
  change (String c p ++ ".tmp") with (String c (p ++ ".tmp")).
  cbn [OS.upto_last_slash]. rewrite IH.
  change (OS.has_slash (String c (p ++ ".tmp")))
    with (OS.is_slash c || OS.has_slash (p ++ ".tmp")).
  rewrite has_slash_app. simpl. now rewrite orb_false_r.
Qed.

(** The temporary file is in the directory of the target. *)
Lemma dirname_tmp (p : string) : OS.dirname (p ++ ".tmp") = OS.dirname p.
Proof. unfold OS.dirname. now rewrite upto_last_slash_tmp. Qed.

Lemma length_app_tmp (p : string) :
  String.length (p ++ ".tmp") = String.length p + 4.
Proof. induction p as [|c p IH]; simpl; [reflexivity | now rewrite IH]. Qed.

Lemma length_upto_last_slash (p : string) :
  String.length (OS.upto_last_slash p) <= String.length p.
Proof.
  induction p as [|c p IH]; simpl; [lia|].
  destruct (OS.is_slash c || OS.has_slash p); simpl; lia.
Qed.

Lemma length_rstrip_slash (s : string) :
  String.length (OS.rstrip_slash s) <= String.length s.
Proof.
  induction s as [|c s IH]; simpl; [lia|].
  destruct (OS.is_slash c && OS.all_slashes s); simpl; lia.
Qed.

Lemma length_dirname (p : string) :
  String.length (OS.dirname p) <= String.length p.
Proof.
  unfold OS.dirname. pose proof (length_upto_last_slash p).
  pose proof (length_rstrip_slash (OS.upto_last_slash p)).
  destruct (OS.all_slashes _); lia.
Qed.

Lemma tmp_neq_dirname (p : string) : p ++ ".tmp" <> OS.dirname p.
Proof.
  intros H. apply (f_equal String.length) in H.
  rewrite length_app_tmp in H. pose proof (length_dirname p). lia.
Qed.

(** [update_settings] and [delete_settings] take [self._file_lock] and call
    [load_settings], which takes it again. *)
Lemma load_settings_reentered (p : string) (w : world) :
  mutex w = true -> load_settings p w = (Block, w).
Proof. intros H. unfold load_settings, with_lock. now rewrite H. Qed.

Lemma update_settings_deadlock (p : string) (id : option string)
    (new_settings : json) (w : world) :
  mutex w = false ->
  update_settings p id new_settings w = (Block, set_mutex true w).
Proof.
  intros H. unfold update_settings, with_lock. rewrite H.
  unfold try_bind. now rewrite load_settings_reentered.
Qed.

Lemma delete_settings_deadlock (p : string) (id : option string) (w : world) :
  mutex w = false ->
  delete_settings p id w = (Block, set_mutex true w).
Proof.
  intros H. unfold delete_settings, with_lock. rewrite H.
  unfold try_bind. now rewrite load_settings_reentered.
Qed.

(** ** What one call of [_acquire_file_lock] does to the world *)

Lemma opens_app (t1 t2 : list event) :
  opens (t1 ++ t2)%list = opens t1 + opens t2.
Proof. induction t1 as [|[] t1 IH]; simpl; auto. Qed.

Lemma sleeps_app (t1 t2 : list event) :
  sleeps (t1 ++ t2)%list = (sleeps t1 ++ sleeps t2)%list.
Proof. induction t1 as [|[] t1 IH]; simpl; auto. now rewrite IH. Qed.

Lemma changes_refl (path : string) (m : mode) (w : world) :
  changes path m w w [].
Proof. constructor; auto. now rewrite app_nil_r. Qed.

Lemma changes_trans (path : string) (m : mode) (w w1 w2 : world)
    (t1 t2 : list event) :
  changes path m w w1 t1 -> changes path m w1 w2 t2 ->
  changes path m w w2 (t1 ++ t2)%list.
Proof.
  intros [] []. constructor; try congruence.
  - rewrite app_assoc. congruence.
  - intros q Hq. rewrite ch_other1, ch_other0; auto.
  - intros Hm. rewrite ch_read1, ch_read0; auto.
  - auto.
Qed.

Ltac run :=
  repeat (unfold try_bind, bind, ret, raise, gets, modify, block,
            OS.open, OS.syscall, OS.pop_reply, OS.os_error, OS.alloc,
            OS.write_file, OS.close, OS.flock_EX, OS.locking_NBLCK,
            OS.unlock, OS.sleep, OS.print, OS.path_exists; simpl).

Lemma in_tail {A} (x : A) (l : list A) : In x (tl l) -> In x l.
Proof. destruct l; simpl; auto. Qed.

Ltac changed :=
  constructor; simpl; rewrite <- ?app_assoc, ?app_nil_r; auto using in_tail;
  try (intros; rewrite ?lookup_insert_ne by congruence; auto);
  try discriminate.

Lemma open_cases (path : string) (m : mode) (w : world) :
  exists w1, changes path m w w1 [EvOpen path m] /\
    ((exists h, OS.open path m w = (Ret h, w1) /\ h_path h = path /\
                h_mode h = m /\ In (h_fd h) (opened w1))
     \/ (exists cause, OS.open path m w = (Raise (mk_exn OSError_ cause), w1))).
Proof.
  run. destruct (hd None (script w)) eqn:Hd; simpl.
  { eexists; split; [|right; eexists; reflexivity]. changed. }
  destruct (files w !! path) eqn:Hf, m; simpl.
  3: destruct (bool_decide _); simpl.
  5: destruct (bool_decide _ || _); simpl;
       [|destruct (OS.dir_exists _ _); simpl;
         [|destruct (files w !! OS.dirname path); simpl]].
  all: eexists; split;
    [| first [ left; eexists; split; [reflexivity | simpl; auto]
             | right; eexists; reflexivity ]].
  all: changed.
Qed.

Lemma flock_cases (path : string) (m : mode) (fd : nat) (w : world) :
  exists w1 t, changes path m w w1 t /\ opens t = 0 /\ sleeps t = [] /\
    ((OS.flock_EX fd w = (Ret tt, w1) /\ opened w1 = opened w)
     \/ exists cause, OS.flock_EX fd w = (Raise (mk_exn OSError_ cause), w1)).
Proof.
  run. destruct (hd None (script w)) eqn:Hd; simpl.
  - exists (set_script (tl (script w)) w), [].
    split; [changed | repeat split].
    right. eexists. reflexivity.
  - eexists _, [EvLock fd]. split; [| repeat split; left; split; reflexivity].
    changed.
Qed.

Lemma locking_cases (path : string) (m : mode) (fd : nat) (w : world) :
  exists w1 t, changes path m w w1 t /\ opens t = 0 /\ sleeps t = [] /\
    ((OS.locking_NBLCK fd w = (Ret tt, w1) /\ opened w1 = opened w)
     \/ exists cause, OS.locking_NBLCK fd w = (Raise (mk_exn OSError_ cause), w1)).
Proof. apply flock_cases. Qed.

Lemma close_cases (path : string) (m : mode) (f : handle) (w : world) :
  exists w1 t, changes path m w w1 t /\ opens t = 0 /\ sleeps t = [] /\
    OS.close f w = (Ret tt, w1).
Proof.
  run. destruct (existsb _ _); simpl.
  - eexists _, [EvClose (h_fd f)]. split; [| repeat split]. changed.
  - exists w, []. split; [apply changes_refl | repeat split].
Qed.

Lemma close_if_bound_cases (path : string) (m : mode) (file : option handle)
    (w : world) :
  exists w1 t, changes path m w w1 t /\ opens t = 0 /\ sleeps t = [] /\
    close_if_bound file w = (Ret tt, w1).
Proof.
  destruct file as [f|]; simpl; [apply close_cases|].
  exists w, []. split; [apply changes_refl | repeat split].
Qed.

Lemma sleep_changes (path : string) (m : mode) (ms : nat) (w : world) :
  changes path m w (log (EvSleep ms) w) [EvSleep ms].
Proof. changed. Qed.

Lemma try_bind_ret {A B} (m : M A) (h : exn -> M B) (k : A -> M B)
    (w w' : world) (a : A) :
  m w = (Ret a, w') -> try_bind m h k w = k a w'.
Proof. unfold try_bind. now intros ->. Qed.

Lemma try_bind_raise {A B} (m : M A) (h : exn -> M B) (k : A -> M B)
    (w w' : world) (e : exn) :
  m w = (Raise e, w') -> try_bind m h k w = h e w'.
Proof. unfold try_bind. now intros ->. Qed.

Lemma bind_ret {A B} (m : M A) (k : A -> M B) (w w' : world) (a : A) :
  m w = (Ret a, w') -> bind m k w = k a w'.
Proof. unfold bind. now intros ->. Qed.

Lemma bind_raise {A B} (m : M A) (k : A -> M B) (w w' : world) (e : exn) :
  m w = (Raise e, w') -> bind m k w = (Raise e, w').
Proof. unfold bind. now intros ->. Qed.

Ltac step H :=
  first [ erewrite try_bind_ret by exact H
        | erewrite try_bind_raise by exact H
        | erewrite bind_ret by exact H
        | erewrite bind_raise by exact H ].

Ltac chain :=
  repeat (eapply changes_trans; [eassumption|]);
  first [eassumption | apply sleep_changes | apply changes_refl].

Ltac counted :=
  rewrite ?opens_app, ?sleeps_app;
  repeat match goal with
         | H : opens _ = _ |- _ => rewrite H
         | H : sleeps _ = _ |- _ => rewrite H
         end; reflexivity.

Lemma acquire_loop_step (fuel retries : nat) (file : option handle)
    (path : string) (m : mode) (w : world) :
  retries < MAX_RETRIES ->
  exists w1 t, changes path m w w1 t /\ opens t = 1 /\
    ((exists h, acquire_loop (S fuel) retries file path m w = (Ret h, w1)
                /\ h_path h = path /\ sleeps t = []
                /\ h_mode h = m /\ In (h_fd h) (opened w1))
     \/ (exists cause, acquire_loop (S fuel) retries file path m w
                       = (Raise (wrapped cause), w1)
                /\ retries = MAX_RETRIES - 1 /\ sleeps t = [])
     \/ (exists file', acquire_loop (S fuel) retries file path m w
                       = acquire_loop fuel (retries + 1) file' path m w1
                /\ sleeps t = [RETRY_DELAY]
                /\ (retries = MAX_RETRIES - 1 -> windows w = true))).
Proof.
  intros Hlt.
  assert (Hcond : negb (retries <? MAX_RETRIES)%nat = false).
  { destruct (Nat.ltb_spec retries MAX_RETRIES); [reflexivity | lia]. }
  destruct (open_cases path m w)
    as (w1 & Hch1 & [(h & Hopen & Hpath & Hmode & Hopn)|(cause & Hopen)]).
  - (* the file was opened *)
    destruct (windows w1) eqn:Hwin.
    + destruct (locking_cases path m (h_fd h) w1)
        as (w2 & t2 & Hch2 & Ho2 & Hs2 & [(Hlock & Hsame)|(cause & Hlock)]).
      * exists w2, ([EvOpen path m] ++ t2)%list.
        split; [chain|]. split; [counted|].
        left. exists h. split; [|split; [auto | split; [counted|]]].
        2:{ rewrite Hsame. auto. }
        cbn [acquire_loop]. rewrite Hcond. step Hopen.
        unfold bind at 1, gets at 1. rewrite Hwin. cbn [negb].
        step Hlock. reflexivity.
      * destruct (close_cases path m h w2) as (w3 & t3 & Hch3 & Ho3 & Hs3 & Hclose).
        exists (log (EvSleep RETRY_DELAY) w3),
          ([EvOpen path m] ++ t2 ++ t3 ++ [EvSleep RETRY_DELAY])%list.
        split; [chain|]. split; [counted|].
        right; right. exists (Some h). split; [|split; [counted|]].
        -- cbn [acquire_loop]. rewrite Hcond. step Hopen.
           unfold bind at 1, gets at 1. rewrite Hwin. cbn [negb].
           step Hlock. cbn [is_OSError e_class]. step Hclose. reflexivity.
        -- intros _. destruct Hch1. congruence.
    + destruct (flock_cases path m (h_fd h) w1)
        as (w2 & t2 & Hch2 & Ho2 & Hs2 & [(Hlock & Hsame)|(cause & Hlock)]).
      * exists w2, ([EvOpen path m] ++ t2)%list.
        split; [chain|]. split; [counted|].
        left. exists h. split; [|split; [auto | split; [counted|]]].
        2:{ rewrite Hsame. auto. }
        cbn [acquire_loop]. rewrite Hcond. step Hopen.
        unfold bind at 1, gets at 1. rewrite Hwin. cbn [negb].
        step Hlock. reflexivity.
      * destruct (close_if_bound_cases path m (Some h) w2)
          as (w3 & t3 & Hch3 & Ho3 & Hs3 & Hclose).
        destruct (Nat.leb_spec (MAX_RETRIES - 1) retries) as [Hlast|Hmore].
        -- exists w3, ([EvOpen path m] ++ t2 ++ t3)%list.
           split; [chain|]. split; [counted|].
           right; left. exists cause.
           split; [|split; [lia | counted]].
           cbn [acquire_loop]. rewrite Hcond. step Hopen.
           unfold bind at 1, gets at 1. rewrite Hwin. cbn [negb].
           step Hlock. step Hclose.
           destruct (Nat.leb_spec (MAX_RETRIES - 1) retries); [reflexivity | lia].
        -- exists (log (EvSleep RETRY_DELAY) w3),
             ([EvOpen path m] ++ t2 ++ t3 ++ [EvSleep RETRY_DELAY])%list.
           split; [chain|]. split; [counted|].
           right; right. exists (Some h). split; [|split; [counted | lia]].
           cbn [acquire_loop]. rewrite Hcond. step Hopen.
           unfold bind at 1, gets at 1. rewrite Hwin. cbn [negb].
           step Hlock. step Hclose.
           destruct (Nat.leb_spec (MAX_RETRIES - 1) retries); [lia | reflexivity].
  - (* [open] raised *)
    destruct (close_if_bound_cases path m file w1)
      as (w3 & t3 & Hch3 & Ho3 & Hs3 & Hclose).
    destruct (Nat.leb_spec (MAX_RETRIES - 1) retries) as [Hlast|Hmore].
    + exists w3, ([EvOpen path m] ++ t3)%list.
      split; [chain|]. split; [counted|].
      right; left. exists cause.
      split; [|split; [lia | counted]].
      cbn [acquire_loop]. rewrite Hcond. step Hopen. step Hclose.
      destruct (Nat.leb_spec (MAX_RETRIES - 1) retries); [reflexivity | lia].
    + exists (log (EvSleep RETRY_DELAY) w3),
        ([EvOpen path m] ++ t3 ++ [EvSleep RETRY_DELAY])%list.
      split; [chain|]. split; [counted|].
      right; right. exists file. split; [|split; [counted | lia]].
      cbn [acquire_loop]. rewrite Hcond. step Hopen. step Hclose.
      destruct (Nat.leb_spec (MAX_RETRIES - 1) retries); [lia | reflexivity].
Qed.

Lemma acquire_loop_done (fuel retries : nat) (file : option handle)
    (path : string) (m : mode) (w : world) :
  MAX_RETRIES <= retries ->
  acquire_loop fuel retries file path m w = (Raise bare, w).
Proof.
  intros H. destruct fuel; cbn [acquire_loop];
    destruct (Nat.ltb_spec retries MAX_RETRIES); (lia || reflexivity).
Qed.

Lemma acquire_loop_spec (fuel : nat) :
  forall (retries : nat) (file : option handle) (path : string) (m : mode)
         (w w' : world) (r : outcome handle),
  MAX_RETRIES <= retries + fuel ->
  acquire_loop fuel retries file path m w = (r, w') ->
  exists t, changes path m w w' t /\ acquire_post retries path w r t.
Proof.
  induction fuel as [|fuel IH]; intros retries file path m w w' r Hfuel Hrun.
  - rewrite acquire_loop_done in Hrun by lia.
    inversion Hrun; subst. exists []. split; [apply changes_refl|].
    simpl. split; [lia|]. left. repeat split. lia.
  - destruct (Nat.ltb_spec retries MAX_RETRIES) as [Hlt|Hge].
    2:{ rewrite acquire_loop_done in Hrun by lia.
        inversion Hrun; subst. exists []. split; [apply changes_refl|].
        simpl. split; [lia|]. left. repeat split. lia. }
    destruct (acquire_loop_step fuel retries file path m w Hlt)
      as (w1 & t & Hch & Ho & [(h & Heq & Hp & Hs & _)|[(cause & Heq & Hlast & Hs)
                                                   |(file' & Heq & Hs & Hwin)]]).
    + rewrite Heq in Hrun. inversion Hrun; subst. exists t. split; [auto|].
      simpl. rewrite Ho, Hs. repeat split; auto. lia.
    + rewrite Heq in Hrun. inversion Hrun; subst r w'. exists t. split; [auto|].
      simpl. rewrite Ho, Hs. split; [lia|]. right. exists cause. auto.
    + rewrite Heq in Hrun.
      assert (Hf : MAX_RETRIES <= retries + 1 + fuel) by lia.
      destruct (IH _ _ _ _ _ _ _ Hf Hrun) as (t' & Hch' & Hpost).
      exists (t ++ t')%list. split; [eapply changes_trans; eauto|].
      unfold acquire_post in *. rewrite opens_app, sleeps_app, Ho, Hs.
      destruct r as [h|e|]; [| |exact Hpost].
      * destruct Hpost as (Hp & Hb & Hsl). rewrite Hsl.
        split; [auto|]. split; [lia|].
        destruct (opens t') as [|k]; [lia|]. simpl. now rewrite Nat.sub_0_r.
      * destruct Hpost as (Hn & Hkind). split; [lia|].
        destruct Hkind as [(-> & Hsl & Hw)|(cause & -> & Hl & Hsl)].
        -- left. rewrite Hsl. repeat split.
           destruct (Nat.eq_dec retries (MAX_RETRIES - 1)) as [E|E]; [auto|].
           intros _. destruct Hch. rewrite <- ch_windows0. apply Hw. lia.
        -- right. exists cause. split; [reflexivity|]. split; [lia|].
           rewrite Hsl.
           destruct (opens t') as [|k]; [unfold MAX_RETRIES in *; lia|].
           simpl. now rewrite Nat.sub_0_r.
Qed.

(** ** [os.makedirs] *)

Lemma length_split (p : string) :
  String.length (OS.upto_last_slash p) + String.length (OS.after_last_slash p)
  = String.length p.
Proof.
  induction p as [|c p IH]; [reflexivity|].
  cbn [OS.upto_last_slash OS.after_last_slash].
  destruct (OS.has_slash (String c p)); simpl; lia.
Qed.

Lemma nonempty_length (s : string) :
  OS.nonempty s = true -> 1 <= String.length s.
Proof. destruct s; simpl; [discriminate | lia]. Qed.

Lemma dirname_shorter (p : string) :
  OS.nonempty (OS.basename p) = true ->
  String.length (OS.dirname p) < String.length p.
Proof.
  intros H. apply nonempty_length in H. unfold OS.basename in H.
  pose proof (length_split p). unfold OS.dirname.
  pose proof (length_rstrip_slash (OS.upto_last_slash p)).
  destruct (OS.all_slashes _); lia.
Qed.

(** The name [os.makedirs] calls itself with is shorter. *)
Lemma makedirs_head_shorter (name : string) :
  OS.nonempty (OS.makedirs_tail name) = true ->
  String.length (OS.makedirs_head name) < String.length name.
Proof.
  unfold OS.makedirs_head, OS.makedirs_tail.
  destruct (OS.nonempty (OS.basename name)) eqn:E; intros H.
  - now apply dirname_shorter.
  - apply dirname_shorter in H. pose proof (length_dirname name). lia.
Qed.

Lemma all_slashes_upto (d : string) :
  OS.all_slashes d = true -> OS.upto_last_slash d = d.
Proof.
  induction d as [|c d IH]; [reflexivity|].
  cbn [OS.all_slashes OS.upto_last_slash OS.has_slash].
  intros [Hc Hd]%andb_prop. rewrite Hc. simpl. now rewrite IH.
Qed.

Lemma all_slashes_after (d : string) :
  OS.all_slashes d = true -> OS.after_last_slash d = "".
Proof.
  induction d as [|c d IH]; [reflexivity|].
  cbn [OS.all_slashes OS.after_last_slash OS.has_slash].
  intros [Hc Hd]%andb_prop. rewrite Hc. simpl. now apply IH.
Qed.

Lemma dirname_all_slashes (d : string) :
  OS.all_slashes d = true -> OS.dirname d = d.
Proof.
  intros H. unfold OS.dirname. rewrite (all_slashes_upto d H). now rewrite H.
Qed.

Lemma rstrip_all_slashes (s : string) :
  OS.all_slashes s = true -> OS.rstrip_slash s = "".
Proof. destruct s; simpl; [reflexivity|]. now intros ->. Qed.

Lemma basename_rstrip (s : string) :
  OS.all_slashes s = false ->
  OS.nonempty (OS.after_last_slash (OS.rstrip_slash s)) = true.
Proof.
  induction s as [|c s IH]; [discriminate|]. intros H.
  cbn [OS.rstrip_slash]. rewrite H.
  cbn [OS.after_last_slash OS.has_slash].
  destruct (OS.all_slashes s) eqn:Hs.
  - rewrite (rstrip_all_slashes s Hs). simpl in H. rewrite Hs in H.
    rewrite andb_true_r in H. rewrite H. reflexivity.
  - destruct (OS.is_slash c || OS.has_slash (OS.rstrip_slash s));
      [now apply IH | reflexivity].
Qed.

(** A directory part is the root, or ends in a name. *)
Lemma basename_dirname (p : string) :
  OS.all_slashes (OS.dirname p) = true
  \/ OS.nonempty (OS.basename (OS.dirname p)) = true.
Proof.
  unfold OS.dirname, OS.basename.
  destruct (OS.all_slashes (OS.upto_last_slash p)) eqn:E; [now left|].
  right. now apply basename_rstrip.
Qed.

Lemma made_dirs_refl (w : world) : made_dirs w w.
Proof. unfold made_dirs. repeat split; auto. Qed.

Lemma made_dirs_trans (w w1 w2 : world) :
  made_dirs w w1 -> made_dirs w1 w2 -> made_dirs w w2.
Proof.
  unfold made_dirs.
  intros (E1 & E2 & E3 & E4 & E5 & E6 & E7 & E8 & E9)
         (F1 & F2 & F3 & F4 & F5 & F6 & F7 & F8 & F9).
  rewrite F1, F2, F3, F4, F5, F6, F7, E1, E2, E3, E4, E5, E6, E7.
  repeat split; auto. now transitivity (dirs w1).
Qed.

Lemma made_dirs_refused (w : world) : made_dirs w (set_script (tl (script w)) w).
Proof. unfold made_dirs. simpl. repeat split; auto using in_tail. Qed.

Lemma made_dirs_made (d : string) (w : world) : made_dirs w (made d w).
Proof.
  unfold made_dirs. simpl. repeat split; auto using in_tail.
  apply union_subseteq_r.
Qed.

(** [os.mkdir] returns or raises, and makes at most the directory. *)
Lemma mkdir_cases (name : string) (w : world) :
  (OS.mkdir name w = (Ret tt, made name w))
  \/ exists e, OS.mkdir name w = (Raise e, set_script (tl (script w)) w)
               /\ is_OSError e = true.
Proof.
  unfold OS.mkdir. run. destruct (hd None (script w)); simpl; [right; eauto|].
  destruct (String.eqb name ""); simpl; [right; eauto|].
  destruct (files w !! name); simpl; [right; eauto|].
  destruct (OS.isdir name _); simpl; [right; eauto|].
  destruct (files w !! OS.dirname name); simpl; [right; eauto|].
  destruct (OS.dir_exists _ _); simpl; [now left | right; eauto].
Qed.

Lemma mkdir_exist_ok_cases (name : string) (w : world) :
  exists r w1, OS.mkdir_exist_ok name w = (r, w1) /\ r <> Block /\
               made_dirs w w1.
Proof.
  unfold OS.mkdir_exist_ok.
  destruct (mkdir_cases name w) as [H|(e & H & He)]; step H.
  - eexists _, _. split; [reflexivity|]. split; [discriminate|].
    apply made_dirs_made.
  - unfold bind, gets. rewrite He. simpl.
    destruct (OS.isdir name _); simpl;
      (eexists _, _; split; [reflexivity|]; split; [discriminate|];
       apply made_dirs_refused).
Qed.

(** [os.makedirs] returns or raises; it opens, writes and prints nothing,
    and the directories there were are still there. *)
Lemma makedirs_from_cases (fuel : nat) :
  forall (name : string) (w : world),
  String.length name < fuel ->
  exists r w1, OS.makedirs_from fuel name w = (r, w1) /\ r <> Block /\
               made_dirs w w1.
Proof.
  induction fuel as [|fuel IH]; intros name w Hlt; [lia|].
  cbn [OS.makedirs_from].
  unfold bind at 1, OS.path_exists, gets at 1.
  assert (Hrest : forall w0, exists r w1,
             (if String.eqb (OS.makedirs_tail name) "." then ret tt
              else OS.mkdir_exist_ok name) w0 = (r, w1)
             /\ r <> Block /\ made_dirs w0 w1).
  { intros w0. destruct (String.eqb _ _); [|apply mkdir_exist_ok_cases].
    eexists _, _. split; [reflexivity|]. split; [discriminate|].
    apply made_dirs_refl. }
  destruct (OS.nonempty (OS.makedirs_head name)
            && OS.nonempty (OS.makedirs_tail name)
            && negb _) eqn:Hc; [|apply mkdir_exist_ok_cases].
  apply andb_prop in Hc as [Hc _]. apply andb_prop in Hc as [_ Ht].
  assert (Hlen : String.length (OS.makedirs_head name) < fuel).
  { pose proof (makedirs_head_shorter name Ht). lia. }
  destruct (IH (OS.makedirs_head name) w Hlen) as (r1 & w1 & H1 & Hnb & Hmd).
  unfold try_bind at 1. rewrite H1.
  destruct r1 as [[]|e|]; [| |contradiction].
  - destruct (Hrest w1) as (r & w2 & H2 & Hnb2 & Hmd2).
    exists r, w2. split; [exact H2|]. split; [exact Hnb2|].
    now apply (made_dirs_trans w w1).
  - destruct (is_FileExistsError e).
    + destruct (Hrest w1) as (r & w2 & H2 & Hnb2 & Hmd2).
      exists r, w2. split; [exact H2|]. split; [exact Hnb2|].
      now apply (made_dirs_trans w w1).
    + eexists _, _. split; [reflexivity|]. split; [discriminate | exact Hmd].
Qed.

Lemma makedirs_cases (name : string) (w : world) :
  exists r w1, OS.makedirs name w = (r, w1) /\ r <> Block /\ made_dirs w w1.
Proof. apply makedirs_from_cases. lia. Qed.

Lemma makedirs_returns (name : string) (w : world) :
  fst (OS.makedirs name w) <> Block.
Proof. destruct (makedirs_cases name w) as (r & w1 & -> & H & _). exact H. Qed.

Lemma makedirs_made_dirs (name : string) (w : world) :
  made_dirs w (snd (OS.makedirs name w)).
Proof. destruct (makedirs_cases name w) as (r & w1 & -> & _ & H). exact H. Qed.

(** [os.makedirs('')] raises. *)
Lemma makedirs_empty (w : world) :
  OS.makedirs "" w
  = (Raise (mk_exn OSError_
              (match hd None (script w) with
               | Some msg => msg
               | None => "[Errno 2] No such file or directory: ''"
               end)), set_script (tl (script w)) w).
Proof.
  unfold OS.makedirs. cbn [String.length OS.makedirs_from].
  unfold OS.mkdir_exist_ok, OS.mkdir. run.
  now destruct (hd None (script w)).
Qed.

(** When the directory above [d] is there, [os.makedirs(d)] has one
    [mkdir] to do, and none of it when [d] is a directory already. *)
Lemma makedirs_flat (d : string) (w : world) :
  hd None (script w) = None -> d <> "" ->
  OS.all_slashes d = true \/ OS.nonempty (OS.basename d) = true ->
  files w !! d = None -> files w !! OS.dirname d = None ->
  OS.dir_exists (OS.dirname d) w = true ->
  OS.makedirs d w
  = (Ret tt, if OS.isdir d w then set_script (tl (script w)) w else made d w).
Proof.
  intros Hs Hd Hshape Hf Hfp Hp.
  assert (Hne : OS.nonempty d = true).
  { destruct d; [contradiction | reflexivity]. }
  assert (Hmk : OS.mkdir_exist_ok d w
                = (Ret tt, if OS.isdir d w then set_script (tl (script w)) w
                           else made d w)).
  { unfold OS.mkdir_exist_ok, OS.mkdir. run. rewrite Hs. simpl.
    destruct (String.eqb_spec d ""); [contradiction|]. simpl.
    rewrite Hf.
    change (OS.isdir d (set_script (tl (script w)) w)) with (OS.isdir d w).
    change (OS.dir_exists (OS.dirname d) (set_script (tl (script w)) w))
      with (OS.dir_exists (OS.dirname d) w).
    destruct (OS.isdir d w) eqn:Hisd; simpl.
    - change (OS.isdir d (set_script (tl (script w)) w)) with (OS.isdir d w).
      now rewrite Hisd.
    - now rewrite Hfp, Hp. }
  unfold OS.makedirs. cbn [OS.makedirs_from].
  unfold bind at 1, OS.path_exists, gets at 1.
  destruct Hshape as [Hall|Hbase].
  - (* the root *)
    assert (Ht : OS.makedirs_tail d = "").
    { unfold OS.makedirs_tail, OS.basename.
      rewrite (all_slashes_after d Hall). simpl.
      rewrite (dirname_all_slashes d Hall). now apply all_slashes_after. }
    rewrite Ht. simpl. rewrite andb_false_r. exact Hmk.
  - assert (Hh : OS.makedirs_head d = OS.dirname d).
    { unfold OS.makedirs_head. now rewrite Hbase. }
    rewrite Hh. unfold OS.dir_exists in Hp.
    destruct (OS.all_slashes (OS.dirname d)) eqn:Hroot.
    + simpl. rewrite andb_false_r. exact Hmk.
    + simpl in Hp. rewrite Hp. rewrite orb_true_r. simpl.
      rewrite andb_false_r. exact Hmk.
Qed.

(** The handle returned is open, and is the file asked for in the mode
    asked for. *)
Lemma acquire_loop_handle (fuel : nat) :
  forall (retries : nat) (file : option handle) (path : string) (m : mode)
         (w w' : world) (h : handle),
  acquire_loop fuel retries file path m w = (Ret h, w') ->
  h_path h = path /\ h_mode h = m /\ In (h_fd h) (opened w').
Proof.
  induction fuel as [|fuel IH]; intros retries file path m w w' h Hrun;
    destruct (Nat.ltb_spec retries MAX_RETRIES) as [Hlt|Hge];
    try (rewrite acquire_loop_done in Hrun by lia; discriminate).
  - cbn [acquire_loop] in Hrun.
    destruct (Nat.ltb_spec retries MAX_RETRIES); [discriminate | lia].
  - destruct (acquire_loop_step fuel retries file path m w Hlt)
      as (w1 & t & _ & _ & [(h' & Heq & Hp & _ & Hm & Hin)
                            |[(cause & Heq & _)|(file' & Heq & _)]]);
      rewrite Heq in Hrun.
    + injection Hrun as <- <-. auto.
    + discriminate.
    + eapply IH; eauto.
Qed.

(** ** Runs in which the environment fails no call *)

Lemma open_existing (path : string) (m : mode) (w : world) :
  hd None (script w) = None -> is_Some (files w !! path) ->
  OS.open path m w = (Ret (mk_handle (next_fd w) path m), after_open path m w).
Proof.
  intros Hs [c Hc]. run. rewrite Hs. simpl. rewrite Hc.
  destruct m; reflexivity.
Qed.

Lemma flock_granted (fd : nat) (w : world) :
  hd None (script w) = None -> OS.flock_EX fd w = (Ret tt, after_lock fd w).
Proof. intros Hs. run. rewrite Hs. reflexivity. Qed.

Lemma locking_granted (fd : nat) (w : world) :
  hd None (script w) = None -> OS.locking_NBLCK fd w = (Ret tt, after_lock fd w).
Proof. apply flock_granted. Qed.

(** The first attempt succeeds. *)
Lemma acquire_loop_first_try (fuel retries : nat) (file : option handle)
    (path : string) (m : mode) (w : world) :
  retries < MAX_RETRIES ->
  hd None (script w) = None -> hd None (tl (script w)) = None ->
  is_Some (files w !! path) ->
  acquire_loop (S fuel) retries file path m w
  = (Ret (mk_handle (next_fd w) path m),
     after_lock (next_fd w) (after_open path m w)).
Proof.
  intros Hlt H0 H1 Hf. cbn [acquire_loop].
  destruct (Nat.ltb_spec retries MAX_RETRIES); [cbn [negb] | lia].
  step (open_existing path m w H0 Hf).
  unfold bind at 1, gets at 1. cbn [after_open windows].
  destruct (windows w); cbn [negb h_fd].
  - erewrite try_bind_ret; [reflexivity|]. now apply locking_granted.
  - erewrite try_bind_ret; [reflexivity|]. now apply flock_granted.
Qed.

Lemma acquire_first_try (path : string) (m : mode) (w : world) :
  hd None (script w) = None -> hd None (tl (script w)) = None ->
  is_Some (files w !! path) ->
  _acquire_file_lock path m w
  = (Ret (mk_handle (next_fd w) path m),
     after_lock (next_fd w) (after_open path m w)).
Proof.
  intros. apply acquire_loop_first_try; auto. unfold MAX_RETRIES. lia.
Qed.

Lemma release_open_file (f : handle) (w : world) :
  hd None (script w) = None -> In (h_fd f) (opened w) ->
  _release_file_lock f w = (Ret tt, after_release (h_fd f) w).
Proof.
  intros Hs Hin. unfold _release_file_lock. run. rewrite Hs. simpl.
  assert (existsb (Nat.eqb (h_fd f)) (opened w) = true) as ->.
  { apply existsb_exists. exists (h_fd f). split; [auto | apply Nat.eqb_refl]. }
  unfold after_release, log, set_flocked, set_opened, set_script. simpl.
  now rewrite <- app_assoc.
Qed.

Lemma remove_fd_gone (fd : nat) (l : list nat) : ~ In fd (OS.remove_fd fd l).
Proof.
  unfold OS.remove_fd. intros H. apply filter_In in H as [_ H].
  now rewrite Nat.eqb_refl in H.
Qed.

Lemma existsb_fd (fd : nat) (l : list nat) :
  In fd l -> existsb (Nat.eqb fd) l = true.
Proof.
  intros Hin. apply existsb_exists. exists fd. split; [auto | apply Nat.eqb_refl].
Qed.

Lemma json_load_read (f : handle) (c : content) (w : world) :
  In (h_fd f) (opened w) -> h_mode f = ModeR ->
  hd None (script w) = None -> files w !! h_path f = Some c ->
  OS.json_load f w
  = (match Json.loads c with
     | inl v => Ret v
     | inr e => Raise e
     end, set_script (tl (script w)) w).
Proof.
  intros Hin Hmode Hs Hc. unfold OS.json_load. run.
  rewrite (existsb_fd _ _ Hin), Hmode. simpl. rewrite Hs. simpl. rewrite Hc.
  now destruct (Json.loads c).
Qed.

Lemma with_lock_free {A} (body : M A) (w w' : world) (r : outcome A) :
  mutex w = false -> body (set_mutex true w) = (r, w') -> r <> Block ->
  with_lock body w = (r, set_mutex false w').
Proof.
  intros Hm Hb Hr. unfold with_lock. rewrite Hm, Hb. now destruct r.
Qed.

(** Loading a file that exists, the environment failing nothing: the
    decoded value, the empty list when the text is not JSON, an error when
    it cannot be read as text or followed to its depth. *)
Lemma load_existing (p : string) (c : content) (w : world) :
  mutex w = false -> quiet w -> files w !! p = Some c ->
  exists w',
    load_settings p w = (load_result c, w')
    /\ files w' = files w /\ dirs w' = dirs w /\ mutex w' = false
    /\ trace w' = (trace w ++ [EvOpen p ModeR; EvLock (next_fd w);
                               EvUnlock (next_fd w); EvClose (next_fd w)])%list
    /\ ~ In (next_fd w) (flocked w').
Proof.
  intros Hm Hq Hc. unfold quiet in Hq.
  pose proof (quiet_hd _ Hq) as H0. pose proof (quiet_tl _ Hq) as Hq1.
  pose proof (quiet_hd _ Hq1) as H1. pose proof (quiet_tl _ Hq1) as Hq2.
  pose proof (quiet_hd _ Hq2) as H2. pose proof (quiet_tl _ Hq2) as Hq3.
  pose proof (quiet_hd _ Hq3) as H3.
  set (fd := next_fd w).
  set (w1 := after_lock fd (after_open p ModeR (set_mutex true w))).
  set (w2 := set_script (tl (script w1)) w1).
  set (w3 := after_release fd w2).
  assert (Hacq : _acquire_file_lock p ModeR (set_mutex true w)
                 = (Ret (mk_handle fd p ModeR), w1)).
  { apply acquire_first_try; simpl; eauto. }
  assert (Hload : OS.json_load (mk_handle fd p ModeR) w1
                  = (match Json.loads c with
                     | inl v => Ret v
                     | inr e => Raise e
                     end, w2)).
  { apply json_load_read; simpl; auto. }
  assert (Hrel : _release_file_lock (mk_handle fd p ModeR) w2 = (Ret tt, w3)).
  { apply (release_open_file (mk_handle fd p ModeR)); simpl; auto. }
  exists (set_mutex false w3). split.
  - unfold load_settings. apply with_lock_free; [auto| |].
    2:{ unfold load_result. destruct (Json.loads c) as [v|e];
          [|destruct (is_JSONDecodeError e)]; discriminate. }
    unfold bind at 1, OS.path_exists, gets at 1.
    change (files (set_mutex true w)) with (files w). rewrite Hc.
    rewrite bool_decide_eq_true_2 by eauto. cbn [orb negb].
    step Hacq. unfold load_result. destruct (Json.loads c) as [v|e].
    + step Hload. step Hrel. reflexivity.
    + step Hload. unfold load_except. destruct (is_JSONDecodeError e);
        unfold release_if_bound; step Hrel; reflexivity.
  - simpl. repeat split; auto.
    + now rewrite <- !app_assoc.
    + apply remove_fd_gone.
Qed.

(** ** A save that succeeds *)

Lemma tmp_neq (p : string) : p ++ ".tmp" <> p.
Proof.
  induction p as [|c p IH]; [discriminate|].
  intros H. apply IH. now injection H.
Qed.

Lemma release_cases (path : string) (f : handle) (w : world) :
  exists w' t, _release_file_lock f w = (Ret tt, w')
               /\ changes path ModeR w w' t /\ opens t = 0.
Proof.
  unfold _release_file_lock. run. destruct (hd None (script w)); simpl.
  - eexists _, [EvPrint _]. split; [reflexivity|]. split; [changed | reflexivity].
  - destruct (existsb _ _); simpl.
    + eexists _, [EvUnlock _; EvClose _]. split; [reflexivity|].
      split; [changed | reflexivity].
    + eexists _, [EvUnlock _]. split; [reflexivity|].
      split; [changed | reflexivity].
Qed.

Lemma release_if_bound_cases (path : string) (file : option handle)
    (w : world) :
  exists w' t, release_if_bound file w = (Ret tt, w')
               /\ changes path ModeR w w' t /\ opens t = 0.
Proof.
  destruct file as [f|]; simpl; [apply release_cases|].
  exists w, []. split; [reflexivity|]. split; [apply changes_refl | reflexivity].
Qed.

(** The [except] clause of [save_settings] ends in a [raise]. *)
Lemma save_except_raises (file : option handle) (temp_path : option string)
    (e : exn) (w w' : world) (r : outcome unit) :
  save_except file temp_path e w = (r, w') -> exists e', r = Raise e'.
Proof.
  unfold save_except.
  destruct (release_if_bound_cases "" file w) as (w1 & t & Hrel & _).
  step Hrel. destruct temp_path as [tp|].
  - unfold bind at 1, OS.path_exists, gets at 1.
    destruct (_ || _).
    + unfold bind, raise. destruct (OS.remove tp w1) as [[[]|e1|] w2] eqn:Hrm;
        intros [= <- <-]; eauto.
      revert Hrm. unfold OS.remove. run.
      destruct (hd None _); simpl; [discriminate|].
      destruct (_ !! _); discriminate.
    + unfold bind, ret, raise. intros [= <- <-]; eauto.
  - unfold raise. intros [= <- <-]; eauto.
Qed.

Lemma json_dump_to_ret (path : string) (v : pyobj) (w w' : world) :
  OS.json_dump_to path v w = (Ret tt, w') ->
  files w' !! path = Some (Doc (Json.encode v)) /\ Json.dump_error v = None.
Proof.
  unfold OS.json_dump_to.
  destruct (open_cases path ModeW w)
    as (w1 & _ & [(h & Hopen & _)|(c & Hopen)]).
  - step Hopen. destruct (Json.dump_error v) as [e|]; run.
    { destruct (existsb _ _); discriminate. }
    destruct (hd None (script w1)); simpl; [destruct (existsb _ _); discriminate|].
    destruct (existsb _ _); simpl; intros [= <-]; simpl;
      (split; [apply lookup_insert_eq | reflexivity]).
  - step Hopen. discriminate.
Qed.

Lemma replace_ret (src dst : string) (w w' : world) :
  OS.replace src dst w = (Ret tt, w') ->
  exists c, files w !! src = Some c
            /\ files w' = <[ dst := c ]> (delete src (files w)).
Proof.
  unfold OS.replace. run.
  destruct (hd None (script w)); simpl; [discriminate|].
  destruct (files w !! src) as [c|]; [|discriminate].
  destruct (bool_decide _); [discriminate|].
  intros [= <-]. eauto.
Qed.

(** After a save that returned, the file holds the list that was saved
    and the mutex is free again. *)
Lemma save_returned (p : string) (settings : pyobj) (w w' : world) :
  mutex w = false ->
  save_settings p settings w = (Ret tt, w') ->
  files w' !! p = Some (Doc (Json.encode settings)) /\ mutex w' = false /\
  Json.dump_error settings = None.
Proof.
  intros Hm. unfold save_settings, with_lock. rewrite Hm.
  match goal with |- context [?b (set_mutex true w)] =>
    destruct (b (set_mutex true w)) as [r w1] eqn:Hbody end.
  destruct r as [[]|e|]; intros [= <-].
  cut (files w1 !! p = Some (Doc (Json.encode settings))
       /\ Json.dump_error settings = None).
  { intros [? ?]. auto. }
  revert Hbody. unfold try_bind at 1.
  destruct (OS.makedirs _ _) as [[[]|e1|] wa].
  2:{ intros H. apply save_except_raises in H as [? [=]]. }
  2:{ discriminate. }
  unfold try_bind at 1.
  destruct (OS.json_dump_to _ _ wa) as [[[]|e1|] wb] eqn:Hdump.
  2:{ intros H. apply save_except_raises in H as [? [=]]. }
  2:{ discriminate. }
  apply json_dump_to_ret in Hdump as (Hdump & Hok).
  unfold try_bind at 1.
  destruct (_acquire_file_lock p ModeW wb) as [[h|e1|] wc] eqn:Hacq.
  2:{ intros H. apply save_except_raises in H as [? [=]]. }
  2:{ discriminate. }
  apply acquire_loop_spec in Hacq as (t & Hch & _); [|unfold MAX_RETRIES; lia].
  unfold try_bind at 1.
  destruct (OS.replace _ _ wc) as [[[]|e1|] wd] eqn:Hrep.
  2:{ intros H. apply save_except_raises in H as [? [=]]. }
  2:{ discriminate. }
  apply replace_ret in Hrep as (c & Hc & Hfiles).
  destruct (release_cases p h wd) as (we & t' & Hrel & Hch' & _).
  rewrite Hrel. intros [= <-]. split; [|exact Hok].
  rewrite (ch_read _ _ _ _ _ Hch' eq_refl), Hfiles, lookup_insert_eq.
  rewrite (ch_other _ _ _ _ _ Hch _ (tmp_neq p)) in Hc. congruence.
Qed.

(** ** Every run of [load_settings] and of [save_settings] *)

Lemma json_load_cases (path : string) (f : handle) (w : world) :
  exists r w', OS.json_load f w = (r, w') /\ changes path ModeR w w' [] /\
    match r with
    | Ret v => exists c, files w !! h_path f = Some c /\ Json.loads c = inl v
    | Raise e =>
        (exists c, files w !! h_path f = Some c /\ Json.loads c = inr e)
        \/ is_JSONDecodeError e = false
    | Block => False
    end.
Proof.
  unfold OS.json_load. run. destruct (existsb _ _); simpl.
  2:{ eexists _, _. split; [reflexivity|].
      split; [apply changes_refl | now right]. }
  destruct (h_mode f); simpl.
  2:{ eexists _, _. split; [reflexivity|].
      split; [apply changes_refl | now right]. }
  destruct (hd None (script w)); simpl.
  { eexists _, _. split; [reflexivity|]. split; [changed | now right]. }
  destruct (files w !! h_path f) as [c|]; simpl.
  - destruct (Json.loads c) as [v|e] eqn:Hd; simpl.
    + eexists _, _. split; [reflexivity|]. split; [changed | eauto].
    + eexists _, _. split; [reflexivity|]. split; [changed | left; eauto].
  - eexists _, _. split; [reflexivity|]. split; [changed | now right].
Qed.

(** Whatever the environment does, [load_settings] called with the mutex
    free returns what the file decodes to (the empty list when there is no
    file or it does not decode) or raises a load error; it leaves the files
    as they are and the mutex free. *)
Lemma load_settings_cases (p : string) (w : world) :
  mutex w = false ->
  exists r w', load_settings p w = (r, w') /\
    files w' = files w /\ mutex w' = false /\
    match r with
    | Ret v =>
        match files w !! p with
        | Some c => load_result c = Ret v
        | None => v = JList []
        end
    | Raise e => exists cause, e = load_error cause
    | Block => False
    end.
Proof.
  intros Hm.
  unfold load_settings.
  set (w0 := set_mutex true w).
  unfold OS.path_exists.
  destruct (bool_decide (is_Some (files w !! p)) || bool_decide (p ∈ dirs w))
    eqn:Hex.
  2:{ (* no such path *)
      exists (Ret (JList [])), (set_mutex false w0). split.
      - apply with_lock_free; [auto| |discriminate].
        unfold bind, gets. fold w0. simpl files. simpl dirs.
        change (files w0) with (files w). change (dirs w0) with (dirs w).
        now rewrite Hex.
      - repeat split.
        apply orb_false_iff in Hex as [Hex _].
        apply bool_decide_eq_false in Hex.
        destruct (files w !! p); [exfalso; eauto | reflexivity]. }
  destruct (_acquire_file_lock p ModeR w0) as [ra w1] eqn:Hacq.
  pose proof Hacq as Hspec.
  apply acquire_loop_spec in Hspec as (t & Hch & Hpost);
    [|unfold MAX_RETRIES; lia].
  assert (Hf1 : files w1 = files w) by (now rewrite (ch_read _ _ _ _ _ Hch eq_refl)).
  assert (Hbody : forall k r w2,
             try_bind (_acquire_file_lock p ModeR) (load_except None) k w0 = (r, w2) ->
             with_lock
               (let! ex := gets (fun w => bool_decide (is_Some (files w !! p))
                                          || bool_decide (p ∈ dirs w)) in
                if negb ex then ret (JList [])
                else try_bind (_acquire_file_lock p ModeR) (load_except None) k) w
             = (match r with Block => Block | _ => r end,
                match r with Block => w2 | _ => set_mutex false w2 end)).
  { intros k r w2 H. unfold with_lock. rewrite Hm. unfold bind at 1, gets at 1.
    fold w0. change (files w0) with (files w). change (dirs w0) with (dirs w).
    rewrite Hex. cbn [negb]. rewrite H. now destruct r. }
  destruct ra as [h|e|]; [| |destruct Hpost].
  - (* the lock was taken *)
    destruct Hpost as (Hp & _).
    destruct (json_load_cases p h w1) as (rl & w2 & Hload & Hch2 & Hrl).
    assert (Hf2 : files w2 = files w)
      by (now rewrite (ch_read _ _ _ _ _ Hch2 eq_refl)).
    destruct (release_cases p h w2) as (w3 & t3 & Hrel & Hch3 & _).
    assert (Hf3 : files w3 = files w)
      by (now rewrite (ch_read _ _ _ _ _ Hch3 eq_refl)).
    destruct rl as [v|e|]; [| |destruct Hrl].
    + destruct Hrl as (c & Hc & Hd). rewrite Hp, Hf1 in Hc.
      eexists _, _. split.
      * apply Hbody. step Hacq. step Hload. step Hrel. reflexivity.
      * simpl. repeat split; auto. unfold load_result. now rewrite Hc, Hd.
    + destruct (is_JSONDecodeError e) eqn:Hje.
      * destruct Hrl as [(c & Hc & Hd)|Hrl]; [|discriminate].
        rewrite Hp, Hf1 in Hc. eexists _, _. split.
        -- apply Hbody. step Hacq. step Hload. unfold load_except.
           rewrite Hje. unfold release_if_bound. step Hrel. reflexivity.
        -- simpl. repeat split; auto. unfold load_result.
           now rewrite Hc, Hd, Hje.
      * eexists _, _. split.
        -- apply Hbody. step Hacq. step Hload. unfold load_except.
           rewrite Hje. unfold release_if_bound. step Hrel. reflexivity.
        -- simpl. repeat split; auto. eexists. reflexivity.
  - (* the lock was not taken *)
    assert (Hje : is_JSONDecodeError e = false).
    { destruct Hpost as (_ & [(-> & _)|(c & -> & _)]); reflexivity. }
    eexists _, _. split.
    + apply Hbody. step Hacq. unfold load_except. rewrite Hje.
      unfold release_if_bound, bind at 1, ret at 1. reflexivity.
    + simpl. repeat split; auto. eexists. reflexivity.
Qed.

Lemma json_dump_to_returns (path : string) (v : pyobj) (w : world) :
  fst (OS.json_dump_to path v w) <> Block.
Proof.
  unfold OS.json_dump_to.
  destruct (open_cases path ModeW w)
    as (w1 & _ & [(h & Hopen & _)|(c & Hopen)]).
  - step Hopen. destruct (Json.dump_error v); run.
    { destruct (existsb _ _); discriminate. }
    destruct (hd None (script w1)); simpl; destruct (existsb _ _); discriminate.
  - step Hopen. discriminate.
Qed.

Lemma replace_returns (src dst : string) (w : world) :
  fst (OS.replace src dst w) <> Block.
Proof.
  unfold OS.replace. run. destruct (hd None (script w)); simpl; [discriminate|].
  destruct (_ !! _); [|discriminate]. destruct (bool_decide _); discriminate.
Qed.

(** [save_settings] called with the mutex free returns or raises, and
    leaves the mutex free. *)
Lemma save_settings_cases (p : string) (settings : pyobj) (w : world) :
  mutex w = false ->
  exists r w', save_settings p settings w = (r, w') /\
               r <> Block /\ mutex w' = false.
Proof.
  intros Hm.
  assert (Hbody : exists r w1,
            (try! _ := OS.makedirs (OS.dirname p) except save_except None None in
             try! _ := OS.json_dump_to (p ++ ".tmp") settings
               except save_except None (Some (p ++ ".tmp")) in
             try! file := _acquire_file_lock p ModeW
               except save_except None (Some (p ++ ".tmp")) in
             try! _ := OS.replace (p ++ ".tmp") p
               except save_except (Some file) (Some (p ++ ".tmp")) in
             _release_file_lock file) (set_mutex true w) = (r, w1)
            /\ r <> Block).
  { assert (Hex : forall file tp e w0, exists r w1,
               save_except file tp e w0 = (r, w1) /\ r <> Block).
    { intros. destruct (save_except file tp e w0) as [r w1] eqn:H.
      exists r, w1. split; [reflexivity|].
      apply save_except_raises in H as [? ->]. discriminate. }
    unfold try_bind at 1.
    pose proof (makedirs_returns (OS.dirname p) (set_mutex true w)) as H1.
    destruct (OS.makedirs _ _) as [[[]|e|] wa]; [|apply Hex|now destruct H1].
    unfold try_bind at 1.
    pose proof (json_dump_to_returns (p ++ ".tmp") settings wa) as H2.
    destruct (OS.json_dump_to _ _ _) as [[[]|e|] wb]; [|apply Hex|now destruct H2].
    unfold try_bind at 1.
    destruct (_acquire_file_lock p ModeW wb) as [[h|e|] wc] eqn:Hacq;
      [|apply Hex|].
    2:{ apply acquire_loop_spec in Hacq as (t & _ & []). unfold MAX_RETRIES; lia. }
    unfold try_bind at 1.
    pose proof (replace_returns (p ++ ".tmp") p wc) as H3.
    destruct (OS.replace _ _ _) as [[[]|e|] wd]; [|apply Hex|now destruct H3].
    destruct (release_cases p h wd) as (we & t' & Hrel & _).
    rewrite Hrel. eexists _, _. split; [reflexivity | discriminate]. }
  destruct Hbody as (r & w1 & Hb & Hr).
  exists r, (set_mutex false w1). split; [|split; [auto | reflexivity]].
  unfold save_settings. now apply with_lock_free.
Qed.

(** ** The list steps of [update_settings] and [delete_settings] *)

Lemma get_id_record (s : json) (w : world) :
  is_dict s = true -> Py.get s "id" w = (Ret (record_id s), w).
Proof. destruct s; try discriminate. reflexivity. Qed.

Lemma find_setting_absent (l : list json) (id : option string) (i : nat)
    (w : world) :
  records l -> Forall (fun s => has_id id s = false) l ->
  find_setting l id i w = (Ret None, w).
Proof.
  intros Hr. revert i. induction Hr as [|s l Hs Hr IH]; intros i Hn.
  - reflexivity.
  - inversion Hn; subst. cbn [find_setting].
    step (get_id_record s w Hs). fold (has_id id s).
    replace (has_id id s) with false by auto. now apply IH.
Qed.

Lemma find_setting_found (l1 l2 : list json) (r : json) (id : option string)
    (i : nat) (w : world) :
  records l1 -> Forall (fun s => has_id id s = false) l1 ->
  is_dict r = true -> has_id id r = true ->
  find_setting (l1 ++ r :: l2) id i w = (Ret (Some (i + length l1)), w).
Proof.
  intros Hr. revert i. induction Hr as [|s l Hs Hr IH]; intros i Hn Hd Hid.
  - simpl. step (get_id_record r w Hd). fold (has_id id r). rewrite Hid.
    unfold ret. rewrite Nat.add_0_r. reflexivity.
  - inversion Hn; subst. cbn [find_setting app].
    step (get_id_record s w Hs). fold (has_id id s).
    replace (has_id id s) with false by auto.
    rewrite IH by auto.
    replace (S i + length l) with (i + length (s :: l)) by (simpl; lia).
    reflexivity.
Qed.

(** The first record with the id is replaced where it stands. *)
Lemma update_list_found (l1 l2 : list json) (r : json) (id : option string)
    (new_settings : json) (w : world) :
  records l1 -> Forall (fun s => has_id id s = false) l1 ->
  is_dict r = true -> has_id id r = true ->
  update_list (JList (l1 ++ r :: l2)) id new_settings w
  = (Ret (JList (l1 ++ new_settings :: l2)), w).
Proof.
  intros Hr Hn Hd Hid. unfold update_list, Py.iter.
  unfold bind at 1, ret at 1.
  step (find_setting_found l1 l2 r id 0 w Hr Hn Hd Hid).
  simpl. unfold ret. repeat f_equal.
  rewrite insert_app_r_alt by lia. now rewrite Nat.sub_diag.
Qed.

(** With no record of that id, the new one goes to the end. *)
Lemma update_list_absent (l : list json) (id : option string)
    (new_settings : json) (w : world) :
  records l -> Forall (fun s => has_id id s = false) l ->
  update_list (JList l) id new_settings w
  = (Ret (JList (l ++ [new_settings])), w).
Proof.
  intros Hr Hn. unfold update_list, Py.iter. unfold bind at 1, ret at 1.
  step (find_setting_absent l id 0 w Hr Hn). reflexivity.
Qed.

Lemma keep_others_filter (l : list json) (id : option string) (w : world) :
  records l ->
  keep_others l id w = (Ret (List.filter (fun s => negb (has_id id s)) l), w).
Proof.
  induction 1 as [|s l Hs Hr IH]; [reflexivity|].
  cbn [keep_others]. step (get_id_record s w Hs). step IH. reflexivity.
Qed.

(** Every record with the id goes, the others stay in order. *)
Lemma delete_list_filter (l : list json) (id : option string) (w : world) :
  records l ->
  delete_list (JList l) id w
  = (Ret (JList (List.filter (fun s => negb (has_id id s)) l)), w).
Proof.
  intros Hr. unfold delete_list, Py.iter. unfold bind at 1, ret at 1.
  step (keep_others_filter l id w Hr). reflexivity.
Qed.

Lemma filter_twice {A} (f : A -> bool) (l : list A) :
  List.filter f (List.filter f l) = List.filter f l.
Proof.
  induction l as [|a l IH]; simpl; [reflexivity|].
  destruct (f a) eqn:E; simpl; rewrite ?E, IH; reflexivity.
Qed.

(** A record without an ['id'] key has the id [None]. *)
Lemma has_id_no_key (kv : list (string * json)) :
  Forall (fun p => fst p <> "id") kv -> record_id (JObj kv) = JNull.
Proof.
  induction 1 as [|[k v] kv Hk _ IH]; simpl; [reflexivity|].
  destruct (String.eqb_spec k "id"); [contradiction | exact IH].
Qed.

(** * The claims *)

(** ** C1 *)

(** C1 (the code departs from the claim): [load_settings] and
    [save_settings], called with the mutex free, return or raise. But
    [update_settings] and [delete_settings] take the mutex, which is a
    [threading.Lock], and call [load_settings], which takes it again: for
    every path and arguments the call blocks for ever. *)
Theorem update_and_delete_block_forever (p : string) (id : option string)
    (new_settings settings : json) (w : world) :
  mutex w = false ->
  fst (load_settings p w) <> Block /\
  fst (save_settings p settings w) <> Block /\
  fst (update_settings p id new_settings w) = Block /\
  fst (delete_settings p id w) = Block.
Proof.
  intros Hm. repeat split.
  - destruct (load_settings_cases p w Hm) as (r & w' & -> & _ & _ & Hr).
    simpl. now destruct r.
  - destruct (save_settings_cases p settings w Hm) as (r & w' & -> & Hr & _).
    exact Hr.
  - now rewrite update_settings_deadlock.
  - now rewrite delete_settings_deadlock.
Qed.

Lemma update_and_delete_block_forever_witness :
  mutex (stored false [rec_1_v1] []) = false /\
  (fst (load_settings settings_json (stored false [rec_1_v1] [])) <> Block /\
   fst (save_settings settings_json (JList [rec_1_v2])
          (stored false [rec_1_v1] [])) <> Block /\
   fst (update_settings settings_json (Some "1") rec_1_v2
          (stored false [rec_1_v1] [])) = Block /\
   fst (delete_settings settings_json (Some "1")
          (stored false [rec_1_v1] [])) = Block).
Proof.
  split; [reflexivity|].
  apply (update_and_delete_block_forever settings_json (Some "1") rec_1_v2
           (JList [rec_1_v2]) (stored false [rec_1_v1] [])).
  reflexivity.
Defined.

(** ** C2 *)

(** C2 (the code departs from the claim): the list step of
    [update_settings] replaces the first record with the id where it stands,
    or appends; but the call never gets to it. Whatever the stored list and
    the id, [update_settings] blocks on the mutex it already holds, and no
    file has changed: nothing is replaced, appended or saved. *)
Theorem update_settings_saves_nothing (p : string) (id : option string)
    (new_settings : json) (w : world) :
  mutex w = false ->
  fst (update_settings p id new_settings w) = Block /\
  files (snd (update_settings p id new_settings w)) = files w /\
  trace (snd (update_settings p id new_settings w)) = trace w.
Proof. intros Hm. now rewrite update_settings_deadlock. Qed.

Lemma update_settings_saves_nothing_witness :
  mutex (stored false [rec_1_v1] []) = false /\
  (fst (update_settings settings_json (Some "1") rec_1_v2
          (stored false [rec_1_v1] [])) = Block /\
   files (snd (update_settings settings_json (Some "1") rec_1_v2
                 (stored false [rec_1_v1] [])))
   = files (stored false [rec_1_v1] []) /\
   trace (snd (update_settings settings_json (Some "1") rec_1_v2
                 (stored false [rec_1_v1] [])))
   = trace (stored false [rec_1_v1] [])).
Proof.
  split; [reflexivity|].
  apply (update_settings_saves_nothing settings_json (Some "1") rec_1_v2
           (stored false [rec_1_v1] [])).
  reflexivity.
Defined.

(** The example of the specification: the list step gives the list
    expected, the call leaves the file as it was. *)
Example update_example :
  fst (update_list (JList [rec_1_v1]) (Some "1") rec_1_v2
         (stored false [rec_1_v1] [])) = Ret (JList [rec_1_v2]) /\
  files (snd (update_settings settings_json (Some "1") rec_1_v2
                (stored false [rec_1_v1] []))) !! settings_json
  = Some (Doc (JList [rec_1_v1])).
Proof. split; reflexivity. Qed.

(** ** C3 *)

(** C3 (the code departs from the claim): the list step of
    [delete_settings] drops every record with the id and keeps the others in
    order; but the call never gets to it. Whatever the stored list and the
    id, [delete_settings] blocks on the mutex it already holds, and no file
    has changed: no record is removed. *)
Theorem delete_settings_removes_nothing (p : string) (id : option string)
    (w : world) :
  mutex w = false ->
  fst (delete_settings p id w) = Block /\
  files (snd (delete_settings p id w)) = files w /\
  trace (snd (delete_settings p id w)) = trace w.
Proof. intros Hm. now rewrite delete_settings_deadlock. Qed.

Lemma delete_settings_removes_nothing_witness :
  mutex (stored false [rec_1_v1] []) = false /\
  (fst (delete_settings settings_json (Some "1")
          (stored false [rec_1_v1] [])) = Block /\
   files (snd (delete_settings settings_json (Some "1")
                 (stored false [rec_1_v1] [])))
   = files (stored false [rec_1_v1] []) /\
   trace (snd (delete_settings settings_json (Some "1")
                 (stored false [rec_1_v1] [])))
   = trace (stored false [rec_1_v1] [])).
Proof.
  split; [reflexivity|].
  apply (delete_settings_removes_nothing settings_json (Some "1")
           (stored false [rec_1_v1] [])).
  reflexivity.
Defined.

Example delete_example :
  fst (delete_list (JList [rec_1_v1]) (Some "1")
         (stored false [rec_1_v1] [])) = Ret (JList []) /\
  files (snd (delete_settings settings_json (Some "1")
                (stored false [rec_1_v1] []))) !! settings_json
  = Some (Doc (JList [rec_1_v1])).
Proof. split; reflexivity. Qed.

(** ** C4 *)

(** On the values [json.load] returns, what [json.dump] writes is the text
    of the value itself. *)
Lemma encode_of_json (v : json) : Json.encode (of_json v) = v.
Proof.
  revert v. fix IH 1. intros [| b | n | s | l | kv]; simpl; try reflexivity.
  - f_equal. induction l as [|x l IHl]; simpl; [reflexivity|].
    now rewrite IH, IHl.
  - f_equal. induction kv as [|[k x] kv IHkv]; simpl; [reflexivity|].
    now rewrite IH, IHkv.
Qed.

(** After a save that returned, a load gives the document that was
    written, [Json.encode X]: it returns it when the environment fails no
    call, and whatever the environment does it returns it or raises a load
    error. *)
Lemma load_after_save (p : string) (X : pyobj) (w w1 : world) :
  mutex w = false ->
  save_settings p X w = (Ret tt, w1) ->
  (quiet w1 -> fst (load_settings p w1) = Ret (Json.encode X)) /\
  (fst (load_settings p w1) = Ret (Json.encode X)
   \/ exists cause, fst (load_settings p w1) = Raise (load_error cause)).
Proof.
  intros Hm Hsave.
  destruct (save_returned p X w w1 Hm Hsave) as (Hfile & Hm1 & Hok).
  assert (Hres : load_result (Doc (Json.encode X)) = Ret (Json.encode X)).
  { unfold load_result, Json.loads. unfold Json.dump_error in Hok.
    now destruct (Json.long_int (Json.encode X)). }
  split.
  - intros Hq.
    destruct (load_existing p _ w1 Hm1 Hq Hfile) as (w2 & -> & _).
    exact Hres.
  - destruct (load_settings_cases p w1 Hm1) as (r & w2 & -> & _ & _ & Hr).
    rewrite Hfile, Hres in Hr. simpl in *.
    destruct r as [v|e|]; [left; congruence | right | destruct Hr].
    destruct Hr as (cause & ->). eauto.
Qed.




(** The saved list comes back. *)
Example round_trip_example :
  fst (load_settings settings_json
         (snd (save_settings settings_json (JList [rec_1_v1; rec_no_id])
                 (fresh false ∅ ∅ []))))
  = Ret (JList [rec_1_v1; rec_no_id]).
Proof. vm_compute. reflexivity. Qed.

(** ** C5 *)

(** C5 (the code departs from the claim): [_acquire_file_lock] opens the
    target with mode ['w'], which truncates it, before [os.replace] runs.
    When [os.replace] then fails, the lock is released, the temporary file
    is removed and the error wraps the cause, but the target is left empty:
    neither its previous content nor the new one. *)
Theorem failed_replace_leaves_target_empty :
  let w := stored true [rec_1_v1] replace_fails in
  let r := save_settings settings_json (JList [rec_1_v2]) w in
  files w !! settings_json = Some (Doc (JList [rec_1_v1])) /\
  fst r = Raise (mk_exn Exception_
                   "Failed to save settings: [WinError 32] The process cannot access the file because it is being used by another process") /\
  files (snd r) !! settings_json = Some Empty /\
  files (snd r) !! (settings_json ++ ".tmp") = None /\
  flocked (snd r) = [] /\ mutex (snd r) = false.
Proof. vm_compute. repeat split; reflexivity. Qed.

(** The same with the lock refused five times, on any platform: the target
    is truncated by the first [open] although the lock was never taken. *)
Example refused_lock_leaves_target_empty :
  let refused := Some "[Errno 11] Resource temporarily unavailable" in
  let w := stored false [rec_1_v1]
             [None; None; None; None; refused; None; refused; None; refused;
              None; refused; None; refused] in
  let r := save_settings settings_json (JList [rec_1_v2]) w in
  fst r = Raise (mk_exn Exception_
                   "Failed to save settings: Failed to acquire file lock after 5 retries: [Errno 11] Resource temporarily unavailable") /\
  files (snd r) !! settings_json = Some Empty.
Proof. vm_compute. repeat split; reflexivity. Qed.

(** ** C6 *)

(** C6: for a path that does not exist, [load_settings] returns the empty
    list and leaves the world as it was: nothing opened, nothing locked,
    nothing asked of the environment. *)
Theorem load_missing_path (p : string) (w : world) :
  mutex w = false -> files w !! p = None -> p ∉ dirs w ->
  load_settings p w = (Ret (JList []), w) /\
  flocked (snd (load_settings p w)) = flocked w /\
  trace (snd (load_settings p w)) = trace w.
Proof.
  intros Hm Hf Hd.
  assert (H : load_settings p w = (Ret (JList []), w)).
  { unfold load_settings.
    rewrite (with_lock_free _ w (set_mutex true w) (Ret (JList []))).
    - now rewrite set_mutex_release.
    - exact Hm.
    - unfold bind, OS.path_exists, gets.
      change (files (set_mutex true w)) with (files w).
      change (dirs (set_mutex true w)) with (dirs w).
      rewrite Hf, bool_decide_eq_false_2, bool_decide_eq_false_2; auto.
    - discriminate. }
  rewrite H. auto.
Qed.

Lemma load_missing_path_witness :
  mutex (fresh false ∅ ∅ []) = false /\
  files (fresh false ∅ ∅ []) !! settings_json = None /\
  (settings_json ∉ dirs (fresh false ∅ ∅ [])) /\
  (load_settings settings_json (fresh false ∅ ∅ [])
   = (Ret (JList []), fresh false ∅ ∅ []) /\
   flocked (snd (load_settings settings_json (fresh false ∅ ∅ [])))
   = flocked (fresh false ∅ ∅ []) /\
   trace (snd (load_settings settings_json (fresh false ∅ ∅ [])))
   = trace (fresh false ∅ ∅ [])).
Proof.
  split; [reflexivity|]. split; [reflexivity|].
  split; [compute_done|].
  apply (load_missing_path settings_json (fresh false ∅ ∅ [])).
  - reflexivity.
  - reflexivity.
  - compute_done.
Defined.

(** ** C7 *)

(** C7, as stated, fails: a file whose bytes are not text in the encoding
    of the platform is not valid JSON, but what [json.load] raises on it is
    a [UnicodeDecodeError], which is not a [json.JSONDecodeError]: the
    clause of line 126 does not catch it, the next one does, and the call
    raises after releasing the lock. *)
Lemma undecodable_file_raises :
  let msg :=
    "'utf-8' codec can't decode byte 0xff in position 0: invalid start byte" in
  let w := fresh false {[ settings_json := Undecodable msg ]} {[ "/data" ]} [] in
  quiet w /\
  (forall v, Json.loads (Undecodable msg) <> inl v) /\
  fst (load_settings settings_json w) = Raise (load_error msg) /\
  flocked (snd (load_settings settings_json w)) = [] /\
  opened (snd (load_settings settings_json w)) = [].
Proof.
  split; [constructor|]. split; [discriminate|].
  vm_compute. repeat split; reflexivity.
Qed.

(** The same for brackets nested deeper than the interpreter follows. *)
Example too_deep_file_raises :
  let msg :=
    "maximum recursion depth exceeded while decoding a JSON array from a unicode string" in
  fst (load_settings settings_json
         (fresh false {[ settings_json := TooDeep msg ]} {[ "/data" ]} []))
  = Raise (load_error msg).
Proof. vm_compute. reflexivity. Qed.

(** C7, amended: for a file that exists and on whose text [json.load]
    raises [e], [load_settings], when the environment fails no call,
    returns the empty list if [e] is a [JSONDecodeError] (the text can be
    read but is not JSON) and raises a load error carrying [e] otherwise.
    Either way the file was opened and locked, the lock is released and
    the file closed, and the mutex is free again. Whatever the environment
    does, the call returns the empty list or raises a load error. *)
Theorem load_malformed_returns_empty (p : string) (c : content) (e : exn)
    (w : world) :
  mutex w = false -> files w !! p = Some c -> Json.loads c = inr e ->
  (quiet w ->
   fst (load_settings p w)
   = (if is_JSONDecodeError e then Ret (JList [])
      else Raise (load_error (str e))) /\
   trace (snd (load_settings p w))
   = (trace w ++ [EvOpen p ModeR; EvLock (next_fd w);
                  EvUnlock (next_fd w); EvClose (next_fd w)])%list /\
   ~ In (next_fd w) (flocked (snd (load_settings p w))) /\
   mutex (snd (load_settings p w)) = false /\
   files (snd (load_settings p w)) = files w) /\
  (fst (load_settings p w) = Ret (JList [])
   \/ exists cause, fst (load_settings p w) = Raise (load_error cause)).
Proof.
  intros Hm Hf Hd.
  assert (Hres : load_result c
                 = if is_JSONDecodeError e then Ret (JList [])
                   else Raise (load_error (str e))).
  { unfold load_result. now rewrite Hd. }
  split.
  - intros Hq.
    destruct (load_existing p c w Hm Hq Hf) as (w' & -> & Hfs & _ & Hm' & Ht & Hl).
    rewrite Hres. simpl. auto.
  - destruct (load_settings_cases p w Hm) as (r & w' & -> & _ & _ & Hr).
    rewrite Hf, Hres in Hr. simpl.
    destruct r as [v|e'|]; [left | right | destruct Hr].
    + destruct (is_JSONDecodeError e); congruence.
    + destruct Hr as (cause & ->). eauto.
Qed.

Lemma load_malformed_returns_empty_witness :
  mutex garbled = false /\
  files garbled !! settings_json = Some (Malformed "{oops") /\
  Json.loads (Malformed "{oops")
  = inr (mk_exn JSONDecodeError_ "Expecting value") /\
  ((quiet garbled ->
    fst (load_settings settings_json garbled)
    = (if is_JSONDecodeError (mk_exn JSONDecodeError_ "Expecting value")
       then Ret (JList [])
       else Raise (load_error (str (mk_exn JSONDecodeError_ "Expecting value")))) /\
    trace (snd (load_settings settings_json garbled))
    = (trace garbled ++ [EvOpen settings_json ModeR; EvLock (next_fd garbled);
                         EvUnlock (next_fd garbled);
                         EvClose (next_fd garbled)])%list /\
    ~ In (next_fd garbled) (flocked (snd (load_settings settings_json garbled))) /\
    mutex (snd (load_settings settings_json garbled)) = false /\
    files (snd (load_settings settings_json garbled)) = files garbled) /\
   (fst (load_settings settings_json garbled) = Ret (JList [])
    \/ exists cause,
         fst (load_settings settings_json garbled) = Raise (load_error cause))).
Proof.
  split; [reflexivity|]. split; [reflexivity|]. split; [reflexivity|].
  apply (load_malformed_returns_empty settings_json (Malformed "{oops")
           (mk_exn JSONDecodeError_ "Expecting value") garbled);
    reflexivity.
Defined.

Example load_malformed_example :
  quiet garbled /\ fst (load_settings settings_json garbled) = Ret (JList []).
Proof. split; [constructor | vm_compute; reflexivity]. Qed.

(** An empty file is not JSON either. *)
Example load_empty_file :
  fst (load_settings settings_json
         (fresh false {[ settings_json := Empty ]} {[ "/data" ]} []))
  = Ret (JList []).
Proof. vm_compute. reflexivity. Qed.

(** ** C8 *)

(** The bound on the attempts. [_acquire_file_lock] returns or raises.
    When it returns it has made between one and five attempts; when it
    raises it has made exactly five. It sleeps [RETRY_DELAY] after each
    failed attempt that is followed by another one. The error raised in
    the loop (line 84) has a cause appended; the one raised after the loop
    (line 88) has none, is raised on Windows only, and one more delay was
    slept before it. Files other than the one locked are not touched. *)
Lemma acquire_file_lock_retry_bound (path : string) (m : mode) (w : world) :
  exists t,
    changes path m w (snd (_acquire_file_lock path m w)) t /\
    match fst (_acquire_file_lock path m w) with
    | Ret h =>
        h_path h = path /\ 1 <= opens t <= MAX_RETRIES /\
        sleeps t = repeat RETRY_DELAY (opens t - 1)
    | Raise e =>
        opens t = MAX_RETRIES /\
        ((e = bare /\ windows w = true /\
          sleeps t = repeat RETRY_DELAY MAX_RETRIES)
         \/ (exists cause, e = wrapped cause /\
               sleeps t = repeat RETRY_DELAY (MAX_RETRIES - 1)))
    | Block => False
    end.
Proof.
  destruct (_acquire_file_lock path m w) as [r w'] eqn:Hrun.
  apply acquire_loop_spec in Hrun as (t & Hch & Hpost);
    [|unfold MAX_RETRIES; lia].
  exists t. split; [exact Hch|]. simpl.
  unfold acquire_post in Hpost. rewrite Nat.sub_0_r in Hpost.
  destruct r as [h|e|]; [exact Hpost | | exact Hpost].
  destruct Hpost as (Ho & [(-> & Hs & Hw)|(cause & -> & _ & Hs)]).
  - split; [auto|]. left. rewrite Ho in Hs. repeat split; auto.
    apply Hw. unfold MAX_RETRIES. lia.
  - split; [auto|]. right. exists cause. rewrite Ho in Hs. auto.
Qed.

(** C8 (the code departs from the claim): on Windows, where the lock is
    asked for without blocking, a file locked by another process is tried
    five times, 100 ms apart, as the claim says; but the error that ends
    the call carries no cause. Its text is the bare sentence of line 88,
    not the one of line 84 with the cause appended, for any cause, and the
    text of the refusal is nowhere in it; and a fifth delay is slept after
    the last attempt, before the error is raised. Where the lock call is
    the blocking one, the same five failures end in the error of line 84,
    which wraps the last of them. *)
Theorem refused_on_windows_error_has_no_cause :
  let w := stored true [rec_1_v1] refused_five_times in
  let r := _acquire_file_lock settings_json ModeR w in
  fst r = Raise bare /\
  str bare = "Failed to acquire file lock after 5 retries" /\
  (forall cause, bare <> wrapped cause) /\
  String.index 0 "[Errno 13] Permission denied" (str bare) = None /\
  opens (trace (snd r)) = 5 /\
  sleeps (trace (snd r)) = [100; 100; 100; 100; 100] /\
  last (trace (snd r)) = Some (EvSleep 100) /\
  opened (snd r) = [] /\
  fst (_acquire_file_lock settings_json ModeR
         (stored false [rec_1_v1] refused_five_times))
  = Raise (wrapped "[Errno 13] Permission denied").
Proof.
  split; [vm_compute; reflexivity|]. split; [reflexivity|].
  split.
  { intros cause H. apply (f_equal e_msg) in H. unfold exhausted in H.
    simpl in H. discriminate H. }
  vm_compute. repeat split; reflexivity.
Qed.

(** Where the lock call blocks, five failures end in an error that wraps
    the last one. *)
Example refused_elsewhere_error_has_cause :
  fst (_acquire_file_lock settings_json ModeR
         (stored false [rec_1_v1] refused_five_times))
  = Raise (wrapped "[Errno 13] Permission denied").
Proof. vm_compute. reflexivity. Qed.

(** Four failures, then the lock: the fifth attempt succeeds. *)
Example fifth_attempt_succeeds :
  let w := stored true [rec_1_v1]
             [None; Some "a"; None; Some "b"; None; Some "c"; None; Some "d"] in
  fst (_acquire_file_lock settings_json ModeR w)
  = Ret (mk_handle 7 settings_json ModeR) /\
  opens (trace (snd (_acquire_file_lock settings_json ModeR w))) = 5 /\
  sleeps (trace (snd (_acquire_file_lock settings_json ModeR w)))
  = [100; 100; 100; 100].
Proof. vm_compute. repeat split; reflexivity. Qed.

(** ** C9 *)

(** A record without an ['id'] key has the id [None] and no other. *)
Lemma no_id_key_matches_none (kv : list (string * json)) :
  Forall (fun p => fst p <> "id") kv ->
  has_id None (JObj kv) = true /\
  forall s, has_id (Some s) (JObj kv) = false.
Proof.
  intros H. unfold has_id. rewrite (has_id_no_key kv H). auto.
Qed.

(** The list step of [delete_settings] with an id that is not [None] keeps
    the records without an ['id'] key; with [None] it drops them. *)
Lemma delete_list_without_id (l : list json) (kv : list (string * json))
    (s : string) (w : world) :
  records l -> Forall (fun p => fst p <> "id") kv -> In (JObj kv) l ->
  (exists kept, delete_list (JList l) (Some s) w = (Ret (JList kept), w)
                /\ In (JObj kv) kept) /\
  (exists kept, delete_list (JList l) None w = (Ret (JList kept), w)
                /\ ~ In (JObj kv) kept).
Proof.
  intros Hr Hk Hin. destruct (no_id_key_matches_none kv Hk) as (Hnone & Hsome).
  split; eexists; (split; [apply delete_list_filter; exact Hr|]).
  - apply filter_In. split; [exact Hin|]. now rewrite Hsome.
  - intros H. apply filter_In in H as [_ H]. now rewrite Hnone in H.
Qed.

(** The list step of [update_settings] with [None] replaces the first
    record without an ['id'] key. *)
Lemma update_list_without_id (l1 l2 : list json) (kv : list (string * json))
    (new_settings : json) (w : world) :
  records l1 -> Forall (fun s => has_id None s = false) l1 ->
  Forall (fun p => fst p <> "id") kv ->
  update_list (JList (l1 ++ JObj kv :: l2)) None new_settings w
  = (Ret (JList (l1 ++ new_settings :: l2)), w).
Proof.
  intros Hr Hn Hk. apply update_list_found; auto.
  now apply no_id_key_matches_none.
Qed.

(** C9 (the code departs from the claim): the list steps do match a record
    without an ['id'] key as if its id were [None]; but [delete_settings]
    and [update_settings] block before they get there, so the stored list
    stays as it was: [delete_settings(path, None)] removes no record and
    [update_settings(path, None, R)] replaces none. *)
Theorem missing_id_matching_is_never_reached :
  let l := [rec_no_id; rec_1_v1] in
  let w := stored false l [] in
  fst (delete_list (JList l) (Some "1") w) = Ret (JList [rec_no_id]) /\
  fst (delete_list (JList l) None w) = Ret (JList [rec_1_v1]) /\
  fst (update_list (JList l) None rec_1_v2 w) = Ret (JList [rec_1_v2; rec_1_v1]) /\
  fst (delete_settings settings_json None w) = Block /\
  files (snd (delete_settings settings_json None w)) !! settings_json
  = Some (Doc (JList l)) /\
  fst (update_settings settings_json None rec_1_v2 w) = Block /\
  files (snd (update_settings settings_json None rec_1_v2 w)) !! settings_json
  = Some (Doc (JList l)).
Proof. vm_compute. repeat split; reflexivity. Qed.

(** ** C10 *)

(** C10: for a path without a directory part, [save_settings] gives the
    empty string to [os.makedirs], which raises; the [except] clause then
    reads [temp_path], which was not assigned yet, and what reaches the
    caller is that [UnboundLocalError], not an error wrapping the cause. No
    file was opened or written, and the mutex is free again. *)
Theorem save_bare_filename (p : string) (settings : json) (w : world) :
  mutex w = false -> OS.has_slash p = false ->
  OS.dirname p = "" /\
  (exists cause, fst (OS.makedirs (OS.dirname p) (set_mutex true w))
                 = Raise (mk_exn OSError_ cause)) /\
  fst (save_settings p settings w) = Raise unbound_temp_path /\
  files (snd (save_settings p settings w)) = files w /\
  dirs (snd (save_settings p settings w)) = dirs w /\
  trace (snd (save_settings p settings w)) = trace w /\
  mutex (snd (save_settings p settings w)) = false.
Proof.
  intros Hm Hs. pose proof (dirname_bare p Hs) as Hd.
  split; [exact Hd|]. rewrite Hd. split.
  { rewrite makedirs_empty. eexists. reflexivity. }
  unfold save_settings.
  rewrite (with_lock_free _ w (set_script (tl (script w)) (set_mutex true w))
             (Raise unbound_temp_path)).
  - repeat split.
  - exact Hm.
  - rewrite Hd. step (makedirs_empty (set_mutex true w)). reflexivity.
  - discriminate.
Qed.

Lemma save_bare_filename_witness :
  mutex (fresh false ∅ ∅ []) = false /\
  OS.has_slash "settings.json" = false /\
  (OS.dirname "settings.json" = "" /\
   (exists cause,
      fst (OS.makedirs (OS.dirname "settings.json")
             (set_mutex true (fresh false ∅ ∅ [])))
      = Raise (mk_exn OSError_ cause)) /\
   fst (save_settings "settings.json" (JList [rec_1_v1]) (fresh false ∅ ∅ []))
   = Raise unbound_temp_path /\
   files (snd (save_settings "settings.json" (JList [rec_1_v1])
                 (fresh false ∅ ∅ []))) = files (fresh false ∅ ∅ []) /\
   dirs (snd (save_settings "settings.json" (JList [rec_1_v1])
                (fresh false ∅ ∅ []))) = dirs (fresh false ∅ ∅ []) /\
   trace (snd (save_settings "settings.json" (JList [rec_1_v1])
                 (fresh false ∅ ∅ []))) = trace (fresh false ∅ ∅ []) /\
   mutex (snd (save_settings "settings.json" (JList [rec_1_v1])
                 (fresh false ∅ ∅ []))) = false).
Proof.
  split; [reflexivity|]. split; [reflexivity|].
  apply (save_bare_filename "settings.json" (JList [rec_1_v1])
           (fresh false ∅ ∅ [])); reflexivity.
Defined.

(** * More of the code *)

(** ** The singleton *)

(** X1: [SettingsManager()] returns an object that is set up, with its
    file lock; a second [SettingsManager()] returns the same object and
    changes nothing: the file lock made the first time is not replaced. *)
Theorem construct_twice_same_instance (s : Singleton.class_state) :
  constructible s ->
  exists obj s1 l,
    Singleton.construct s = (Ret obj, s1) /\
    Singleton._instance s1 = Some obj /\
    Singleton.heap s1 !! obj = Some (Singleton.mk_instance (Some true) (Some l)) /\
    Singleton.construct s1 = (Ret obj, s1).
Proof.
  intros (Hl & Hi). unfold Singleton.construct, Singleton.__new__.
  rewrite Hl. destruct (Singleton._instance s) as [obj|] eqn:Ei.
  - destruct Hi as (o & Ho & [Hf|(l & ->)]).
    + unfold Singleton.__init__ at 1. rewrite Ho, Hf.
      eexists obj, _, _. split; [reflexivity|]. simpl.
      split; [exact Ei|]. split; [apply lookup_insert_eq|].
      rewrite Hl, Ei. unfold Singleton.__init__. simpl.
      now rewrite lookup_insert_eq.
    + unfold Singleton.__init__ at 1. rewrite Ho. simpl.
      eexists obj, s, l. split; [reflexivity|]. split; [exact Ei|].
      split; [exact Ho|]. rewrite Hl, Ei.
      unfold Singleton.__init__. now rewrite Ho.
  - unfold Singleton.__init__ at 1. simpl. rewrite lookup_insert_eq. simpl.
    eexists _, _, _. split; [reflexivity|]. simpl.
    split; [reflexivity|]. split; [apply lookup_insert_eq|].
    unfold Singleton.__init__. simpl. now rewrite lookup_insert_eq.
Qed.

Lemma construct_twice_same_instance_witness :
  constructible Singleton.at_import /\
  exists obj s1 l,
    Singleton.construct Singleton.at_import = (Ret obj, s1) /\
    Singleton._instance s1 = Some obj /\
    Singleton.heap s1 !! obj = Some (Singleton.mk_instance (Some true) (Some l)) /\
    Singleton.construct s1 = (Ret obj, s1).
Proof.
  split; [split; [reflexivity | exact I]|].
  apply (construct_twice_same_instance Singleton.at_import).
  split; [reflexivity | exact I].
Defined.

(** ** The list steps, on every list of records *)

(** A list of records has no record with the id, or a first one. *)
Lemma first_match (l : list json) (id : option string) :
  records l ->
  Forall (fun s => has_id id s = false) l \/
  exists l1 r l2, l = (l1 ++ r :: l2)%list /\ records l1 /\
    Forall (fun s => has_id id s = false) l1 /\
    is_dict r = true /\ has_id id r = true /\ records l2.
Proof.
  induction 1 as [|s l Hs Hr IH].
  - left. constructor.
  - destruct (has_id id s) eqn:E.
    + right. exists [], s, l. repeat split; auto; constructor.
    + destruct IH as [IH|(l1 & r & l2 & -> & H1 & H2 & H3 & H4 & H5)].
      * left. constructor; auto.
      * right. exists (s :: l1), r, l2.
        repeat split; auto; constructor; auto.
Qed.

Lemma filter_others_app (id : option string) (l1 l2 : list json) :
  List.filter (fun s => negb (has_id id s)) (l1 ++ l2)
  = (List.filter (fun s => negb (has_id id s)) l1
     ++ List.filter (fun s => negb (has_id id s)) l2)%list.
Proof. apply List.filter_app. Qed.

Lemma filter_others_none (id : option string) (l : list json) :
  Forall (fun s => has_id id s = false) l ->
  List.filter (fun s => negb (has_id id s)) l = l.
Proof.
  induction 1 as [|s l Hs _ IH]; simpl; [reflexivity|].
  now rewrite Hs, IH.
Qed.

(** X2: when a record has the id, the loop of [update_settings] puts the
    new record in the place of the first such record and stops: the list
    keeps its length, and every other position keeps its element, later
    records with the same id included. *)
Theorem update_list_replaces_first_only (l1 l2 : list json) (r : json)
    (id : option string) (new_settings : json) (w : world) :
  records l1 -> Forall (fun s => has_id id s = false) l1 ->
  is_dict r = true -> has_id id r = true ->
  exists l',
    update_list (JList (l1 ++ r :: l2)) id new_settings w = (Ret (JList l'), w) /\
    length l' = length (l1 ++ r :: l2)%list /\
    l' !! length l1 = Some new_settings /\
    forall i, i <> length l1 -> l' !! i = (l1 ++ r :: l2)%list !! i.
Proof.
  intros Hr Hn Hd Hid. exists (l1 ++ new_settings :: l2)%list.
  split; [now apply update_list_found|].
  split; [rewrite !length_app; reflexivity|].
  split; [now rewrite list_lookup_middle|].
  intros i Hi. destruct (Nat.lt_ge_cases i (length l1)).
  - now rewrite !lookup_app_l.
  - rewrite !lookup_app_r by lia.
    destruct (i - length l1) as [|k] eqn:E; [lia | reflexivity].
Qed.

Lemma update_list_replaces_first_only_witness :
  records [rec_no_id] /\
  Forall (fun s => has_id (Some "1") s = false) [rec_no_id] /\
  is_dict rec_1_v1 = true /\ has_id (Some "1") rec_1_v1 = true /\
  exists l',
    update_list (JList ([rec_no_id] ++ rec_1_v1 :: [rec_1_v1])) (Some "1")
      rec_1_v2 (fresh false ∅ ∅ []) = (Ret (JList l'), fresh false ∅ ∅ []) /\
    length l' = length ([rec_no_id] ++ rec_1_v1 :: [rec_1_v1])%list /\
    l' !! length [rec_no_id] = Some rec_1_v2 /\
    forall i, i <> length [rec_no_id] ->
              l' !! i = ([rec_no_id] ++ rec_1_v1 :: [rec_1_v1])%list !! i.
Proof.
  split; [repeat constructor|]. split; [repeat constructor|].
  split; [reflexivity|]. split; [reflexivity|].
  apply (update_list_replaces_first_only [rec_no_id] [rec_1_v1] rec_1_v1
           (Some "1") rec_1_v2 (fresh false ∅ ∅ []));
    try reflexivity; repeat constructor.
Defined.

(** X3: when no record has the id, the new record goes to the end: the
    list grows by one and the records before it are as they were. *)
Theorem update_list_appends_when_absent (l : list json) (id : option string)
    (new_settings : json) (w : world) :
  records l -> Forall (fun s => has_id id s = false) l ->
  exists l',
    update_list (JList l) id new_settings w = (Ret (JList l'), w) /\
    length l' = S (length l) /\
    l' !! length l = Some new_settings /\
    forall i, i < length l -> l' !! i = l !! i.
Proof.
  intros Hr Hn. exists (l ++ [new_settings])%list.
  split; [now apply update_list_absent|].
  split; [rewrite length_app; simpl; lia|].
  split; [now rewrite list_lookup_middle|].
  intros i Hi. now rewrite lookup_app_l.
Qed.

Lemma update_list_appends_when_absent_witness :
  records [rec_no_id] /\
  Forall (fun s => has_id (Some "1") s = false) [rec_no_id] /\
  exists l',
    update_list (JList [rec_no_id]) (Some "1") rec_1_v2 (fresh false ∅ ∅ [])
    = (Ret (JList l'), fresh false ∅ ∅ []) /\
    length l' = S (length [rec_no_id]) /\
    l' !! length [rec_no_id] = Some rec_1_v2 /\
    forall i, i < length [rec_no_id] -> l' !! i = [rec_no_id] !! i.
Proof.
  split; [repeat constructor|]. split; [repeat constructor|].
  apply (update_list_appends_when_absent [rec_no_id] (Some "1") rec_1_v2
           (fresh false ∅ ∅ [])); repeat constructor.
Defined.

Lemma records_app (l1 l2 : list json) :
  records (l1 ++ l2)%list <-> records l1 /\ records l2.
Proof. apply Forall_app. Qed.

(** X4: on every list of records, the loop of [update_settings] with a
    record that carries the id returns a list of records in which that
    record stands, and doing it again changes nothing. *)
Theorem update_list_idempotent (l : list json) (id : option string)
    (new_settings : json) (w : world) :
  records l -> is_dict new_settings = true -> has_id id new_settings = true ->
  exists l',
    update_list (JList l) id new_settings w = (Ret (JList l'), w) /\
    records l' /\ In new_settings l' /\
    update_list (JList l') id new_settings w = (Ret (JList l'), w).
Proof.
  intros Hr Hd Hid.
  destruct (first_match l id Hr)
    as [Hn|(l1 & r & l2 & -> & H1 & H2 & H3 & H4 & H5)].
  - exists (l ++ [new_settings])%list.
    split; [now apply update_list_absent|].
    split; [apply records_app; split; [auto | repeat constructor; auto]|].
    split; [apply in_or_app; right; simpl; auto|].
    now apply update_list_found.
  - exists (l1 ++ new_settings :: l2)%list.
    split; [now apply update_list_found|].
    split; [apply records_app; split; [auto | constructor; auto]|].
    split; [apply in_or_app; right; simpl; auto|].
    now apply update_list_found.
Qed.

Lemma update_list_idempotent_witness :
  records [rec_no_id; rec_1_v1] /\ is_dict rec_1_v2 = true /\
  has_id (Some "1") rec_1_v2 = true /\
  exists l',
    update_list (JList [rec_no_id; rec_1_v1]) (Some "1") rec_1_v2
      (fresh false ∅ ∅ []) = (Ret (JList l'), fresh false ∅ ∅ []) /\
    records l' /\ In rec_1_v2 l' /\
    update_list (JList l') (Some "1") rec_1_v2 (fresh false ∅ ∅ [])
    = (Ret (JList l'), fresh false ∅ ∅ []).
Proof.
  split; [repeat constructor|]. split; [reflexivity|]. split; [reflexivity|].
  apply (update_list_idempotent [rec_no_id; rec_1_v1] (Some "1") rec_1_v2
           (fresh false ∅ ∅ [])); try reflexivity; repeat constructor.
Defined.

(** X5: on every list of records, the comprehension of [delete_settings]
    returns the records whose id is not the given one, in their order: a
    record is kept exactly when it was there and has another id, none of
    the kept ones has the id, and doing it again changes nothing. *)
Theorem delete_list_removes_all (l : list json) (id : option string)
    (w : world) :
  records l ->
  exists kept,
    delete_list (JList l) id w = (Ret (JList kept), w) /\
    kept = List.filter (fun s => negb (has_id id s)) l /\
    (forall s, In s kept <-> In s l /\ has_id id s = false) /\
    records kept /\ length kept <= length l /\
    delete_list (JList kept) id w = (Ret (JList kept), w).
Proof.
  intros Hr. exists (List.filter (fun s => negb (has_id id s)) l).
  assert (Hk : records (List.filter (fun s => negb (has_id id s)) l)).
  { unfold records in *. rewrite List.Forall_forall in *.
    intros s Hs. apply Hr. now apply filter_In in Hs as [Hs _]. }
  split; [now apply delete_list_filter|]. split; [reflexivity|].
  split; [|split; [exact Hk|split; [apply List.filter_length_le|]]].
  - intros s. rewrite filter_In. now rewrite negb_true_iff.
  - rewrite delete_list_filter by exact Hk. now rewrite filter_twice.
Qed.

Lemma delete_list_removes_all_witness :
  records [rec_1_v1; rec_no_id; rec_1_v2] /\
  exists kept,
    delete_list (JList [rec_1_v1; rec_no_id; rec_1_v2]) (Some "1")
      (fresh false ∅ ∅ []) = (Ret (JList kept), fresh false ∅ ∅ []) /\
    kept = List.filter (fun s => negb (has_id (Some "1") s))
             [rec_1_v1; rec_no_id; rec_1_v2] /\
    (forall s, In s kept <->
               In s [rec_1_v1; rec_no_id; rec_1_v2]
               /\ has_id (Some "1") s = false) /\
    records kept /\ length kept <= length [rec_1_v1; rec_no_id; rec_1_v2] /\
    delete_list (JList kept) (Some "1") (fresh false ∅ ∅ [])
    = (Ret (JList kept), fresh false ∅ ∅ []).
Proof.
  split; [repeat constructor|].
  apply (delete_list_removes_all [rec_1_v1; rec_no_id; rec_1_v2] (Some "1")
           (fresh false ∅ ∅ [])); repeat constructor.
Defined.

(** X6: the two list steps one after the other. Deleting an id and then
    updating it appends the new record to what was kept; updating an id
    with a record that carries it and then deleting it gives what deleting
    alone gives. *)
Theorem delete_and_update_compose (l : list json) (id : option string)
    (new_settings : json) (w : world) :
  records l -> is_dict new_settings = true -> has_id id new_settings = true ->
  let kept := List.filter (fun s => negb (has_id id s)) l in
  update_list (JList kept) id new_settings w
  = (Ret (JList (kept ++ [new_settings])), w) /\
  exists l',
    update_list (JList l) id new_settings w = (Ret (JList l'), w) /\
    delete_list (JList l') id w = (Ret (JList kept), w).
Proof.
  intros Hr Hd Hid kept. split.
  - apply update_list_absent.
    + unfold records in *. rewrite List.Forall_forall in *.
      intros s Hs. apply Hr. now apply filter_In in Hs as [Hs _].
    + rewrite List.Forall_forall. intros s Hs.
      apply filter_In in Hs as [_ Hs]. now apply negb_true_iff.
  - destruct (first_match l id Hr)
      as [Hn|(l1 & r & l2 & -> & H1 & H2 & H3 & H4 & H5)].
    + exists (l ++ [new_settings])%list.
      split; [now apply update_list_absent|].
      rewrite delete_list_filter
        by (apply records_app; split; [auto | repeat constructor; auto]).
      unfold kept. rewrite filter_others_app. simpl. rewrite Hid. simpl.
      now rewrite app_nil_r.
    + exists (l1 ++ new_settings :: l2)%list.
      split; [now apply update_list_found|].
      rewrite delete_list_filter
        by (apply records_app; split; [auto | constructor; auto]).
      unfold kept. rewrite !filter_others_app. simpl. now rewrite Hid, H4.
Qed.

Lemma delete_and_update_compose_witness :
  records [rec_1_v1; rec_no_id] /\ is_dict rec_1_v2 = true /\
  has_id (Some "1") rec_1_v2 = true /\
  (let kept := List.filter (fun s => negb (has_id (Some "1") s))
                 [rec_1_v1; rec_no_id] in
   update_list (JList kept) (Some "1") rec_1_v2 (fresh false ∅ ∅ [])
   = (Ret (JList (kept ++ [rec_1_v2])), fresh false ∅ ∅ []) /\
   exists l',
     update_list (JList [rec_1_v1; rec_no_id]) (Some "1") rec_1_v2
       (fresh false ∅ ∅ []) = (Ret (JList l'), fresh false ∅ ∅ []) /\
     delete_list (JList l') (Some "1") (fresh false ∅ ∅ [])
     = (Ret (JList kept), fresh false ∅ ∅ [])).
Proof.
  split; [repeat constructor|]. split; [reflexivity|]. split; [reflexivity|].
  apply (delete_and_update_compose [rec_1_v1; rec_no_id] (Some "1") rec_1_v2
           (fresh false ∅ ∅ [])); try reflexivity; repeat constructor.
Defined.

(** ** Descriptors and the target file through [_acquire_file_lock] *)

Lemma remove_fd_fresh (n : nat) (l : list nat) :
  Forall (fun fd => fd < n) l -> OS.remove_fd n l = l.
Proof.
  induction 1 as [|fd l Hfd _ IH]; simpl; [reflexivity|].
  destruct (Nat.eqb_spec fd n); [lia|]. simpl. now rewrite IH.
Qed.

Lemma remove_fd_absent (n : nat) (l : list nat) :
  ~ In n l -> OS.remove_fd n l = l.
Proof.
  induction l as [|fd l IH]; simpl; [reflexivity|]. intros H.
  destruct (Nat.eqb_spec fd n); [exfalso; auto|]. simpl. rewrite IH; auto.
Qed.

Lemma tidy_same_fds (w w1 : world) : tidy w -> same_fds w w1 -> tidy w1.
Proof.
  intros [Ho Hl] (Eo & El & Hn). unfold tidy. rewrite Eo, El.
  split; [|exact Hl]. eapply Forall_impl; eauto; simpl; intros; lia.
Qed.

Lemma same_fds_trans (w w1 w2 : world) :
  same_fds w w1 -> same_fds w1 w2 -> same_fds w w2.
Proof.
  intros (E1 & E2 & ?) (E3 & E4 & ?). unfold same_fds.
  rewrite E3, E4, E1, E2. repeat split. lia.
Qed.

Lemma emptied_refl (path : string) (m : mode) (w : world) : emptied path m w w.
Proof. now left. Qed.

Lemma emptied_trans (path : string) (m : mode) (w w1 w2 : world) :
  emptied path m w w1 -> emptied path m w1 w2 -> emptied path m w w2.
Proof.
  unfold emptied. intros [E1|(Em & E1)] [E2|(Em' & E2)]; rewrite E2, E1; auto.
  right. split; [exact Em|]. apply insert_insert_eq.
Qed.

Lemma emptied_open (path : string) (m : mode) (w : world) :
  emptied path m w (after_open path m w).
Proof. destruct m; [now left | now right]. Qed.

(** What [open] comes to. *)
Lemma open_result (path : string) (m : mode) (w : world) :
  OS.open path m w = (Ret (mk_handle (next_fd w) path m), after_open path m w)
  \/ exists cause,
       OS.open path m w
       = (Raise (mk_exn OSError_ cause), open_failed path m w).
Proof.
  run. destruct (hd None (script w)); simpl; [right; eauto|].
  destruct (files w !! path), m; simpl; eauto.
  - destruct (bool_decide _); simpl; eauto.
  - destruct (bool_decide _ || _); simpl; [eauto|].
    destruct (OS.dir_exists _ _); simpl; [eauto|].
    destruct (files w !! OS.dirname path); simpl; eauto.
Qed.

Lemma lock_result (fd : nat) (w : world) :
  OS.flock_EX fd w = (Ret tt, after_lock fd w)
  \/ exists cause, OS.flock_EX fd w = (Raise (mk_exn OSError_ cause), refused w).
Proof. run. destruct (hd None (script w)); simpl; eauto. Qed.

Lemma close_open_fd (f : handle) (w : world) :
  In (h_fd f) (opened w) -> OS.close f w = (Ret tt, closed (h_fd f) w).
Proof.
  intros Hin. run.
  assert (existsb (Nat.eqb (h_fd f)) (opened w) = true) as ->; [|reflexivity].
  apply existsb_exists. exists (h_fd f). split; [auto | apply Nat.eqb_refl].
Qed.

Lemma close_closed_fd (f : handle) (w : world) :
  ~ In (h_fd f) (opened w) -> OS.close f w = (Ret tt, w).
Proof.
  intros Hin. run.
  destruct (existsb (Nat.eqb (h_fd f)) (opened w)) eqn:E; [|reflexivity].
  apply existsb_exists in E as (x & Hx & E). apply Nat.eqb_eq in E. now subst.
Qed.

(** [close_if_bound] changes no file, and nothing at all when the file is
    closed already. *)
Lemma close_if_bound_result (file : option handle) (w : world) :
  exists w1, close_if_bound file w = (Ret tt, w1) /\ files w1 = files w /\
             (file_closed file w -> w1 = w).
Proof.
  destruct file as [f|]; simpl; [|exists w; auto].
  destruct (in_dec Nat.eq_dec (h_fd f) (opened w)) as [Hin|Hout].
  - exists (closed (h_fd f) w). split; [now apply close_open_fd|].
    split; [reflexivity|]. now intros [].
  - exists w. split; [now apply close_closed_fd | auto].
Qed.

Lemma next_fd_fresh (w : world) : tidy w -> ~ In (next_fd w) (opened w).
Proof.
  intros [Ho _] Hin. rewrite List.Forall_forall in Ho.
  apply Ho in Hin. lia.
Qed.

Lemma not_open_not_locked (w : world) (fd : nat) :
  tidy w -> ~ In fd (opened w) -> ~ In fd (flocked w).
Proof.
  intros [_ Hl] Ho Hin. rewrite List.Forall_forall in Hl. auto.
Qed.

Lemma closed_after_refusal (path : string) (m : mode) (w : world) :
  tidy w ->
  same_fds w (closed (next_fd w) (refused (after_open path m w))) /\
  file_closed (Some (mk_handle (next_fd w) path m))
    (closed (next_fd w) (refused (after_open path m w))).
Proof.
  intros Ht. pose proof (next_fd_fresh w Ht) as Hfresh.
  pose proof (not_open_not_locked w _ Ht Hfresh) as Hfree.
  destruct Ht as [Ho Hl].
  assert (E : OS.remove_fd (next_fd w) (next_fd w :: opened w) = opened w).
  { simpl. rewrite Nat.eqb_refl. simpl. now apply remove_fd_fresh. }
  assert (Eo : opened (closed (next_fd w) (refused (after_open path m w)))
               = opened w) by exact E.
  assert (El : flocked (closed (next_fd w) (refused (after_open path m w)))
               = flocked w) by exact (remove_fd_absent _ _ Hfree).
  unfold same_fds, file_closed. rewrite Eo, El.
  repeat split; simpl; auto.
Qed.

(** One turn of the loop: the lock is taken on a new descriptor, or an
    error is raised, or the loop goes round again; in the last two cases
    every descriptor opened in the turn was closed. *)
Lemma acquire_loop_attempt (fuel retries : nat) (file : option handle)
    (path : string) (m : mode) (w : world) :
  retries < MAX_RETRIES ->
  (exists w',
     acquire_loop (S fuel) retries file path m w
     = (Ret (mk_handle (next_fd w) path m), w') /\
     files w' = files (after_open path m w) /\
     opened w' = next_fd w :: opened w /\
     flocked w' = next_fd w :: flocked w /\ next_fd w' = S (next_fd w))
  \/ (exists e w',
        acquire_loop (S fuel) retries file path m w = (Raise e, w') /\
        emptied path m w w' /\
        (tidy w -> file_closed file w -> same_fds w w'))
  \/ (exists file' w1,
        acquire_loop (S fuel) retries file path m w
        = acquire_loop fuel (retries + 1) file' path m w1 /\
        emptied path m w w1 /\
        (tidy w -> file_closed file w ->
         same_fds w w1 /\ file_closed file' w1)).
Proof.
  intros Hlt.
  assert (Hcond : negb (retries <? MAX_RETRIES)%nat = false).
  { destruct (Nat.ltb_spec retries MAX_RETRIES); [reflexivity | lia]. }
  set (fd := next_fd w). set (h := mk_handle fd path m).
  set (w1 := after_open path m w).
  assert (Hclose : OS.close h (refused w1) = (Ret tt, closed fd (refused w1))).
  { apply (close_open_fd h). simpl. auto. }
  destruct (open_result path m w) as [Hopen|(cause & Hopen)].
  - destruct (lock_result fd w1) as [Hlock|(c & Hlock)].
    + (* the lock is granted *)
      left. exists (after_lock fd w1). split; [|repeat split].
      cbn [acquire_loop]. rewrite Hcond. step Hopen.
      unfold bind at 1, gets at 1. cbn [after_open windows].
      destruct (windows w) eqn:Hwin; cbn [negb];
        (erewrite try_bind_ret by exact Hlock); reflexivity.
    + (* the lock is not granted *)
      destruct (windows w) eqn:Hwin.
      * right; right. exists (Some h), (log (EvSleep RETRY_DELAY) (closed fd (refused w1))).
        split; [|split; [apply emptied_open|]].
        -- cbn [acquire_loop]. rewrite Hcond. step Hopen.
           unfold bind at 1, gets at 1. cbn [after_open windows].
           rewrite Hwin. cbn [negb].
           erewrite try_bind_raise by exact Hlock.
           cbn [is_OSError e_class]. step Hclose. reflexivity.
        -- intros Ht _. apply (closed_after_refusal path m w Ht).
      * destruct (Nat.leb_spec (MAX_RETRIES - 1) retries) as [Hlast|Hmore].
        -- right; left. eexists _, (closed fd (refused w1)).
           split; [|split; [apply emptied_open|]].
           ++ cbn [acquire_loop]. rewrite Hcond. step Hopen.
              unfold bind at 1, gets at 1. cbn [after_open windows].
              rewrite Hwin. cbn [negb].
              erewrite try_bind_raise by exact Hlock.
              unfold close_if_bound. step Hclose.
              destruct (Nat.leb_spec (MAX_RETRIES - 1) retries);
                [reflexivity | lia].
           ++ intros Ht _. apply (closed_after_refusal path m w Ht).
        -- right; right.
           exists (Some h), (log (EvSleep RETRY_DELAY) (closed fd (refused w1))).
           split; [|split; [apply emptied_open|]].
           ++ cbn [acquire_loop]. rewrite Hcond. step Hopen.
              unfold bind at 1, gets at 1. cbn [after_open windows].
              rewrite Hwin. cbn [negb].
              erewrite try_bind_raise by exact Hlock.
              unfold close_if_bound. step Hclose.
              destruct (Nat.leb_spec (MAX_RETRIES - 1) retries);
                [lia | reflexivity].
           ++ intros Ht _. apply (closed_after_refusal path m w Ht).
  - (* [open] raised *)
    destruct (close_if_bound_result file (open_failed path m w))
      as (wc & Hcl & Hfiles & Hsame).
    destruct (Nat.leb_spec (MAX_RETRIES - 1) retries) as [Hlast|Hmore].
    + right; left. eexists _, wc. split; [|split; [now left|]].
      * cbn [acquire_loop]. rewrite Hcond. step Hopen. step Hcl.
        destruct (Nat.leb_spec (MAX_RETRIES - 1) retries); [reflexivity | lia].
      * intros _ Hfc. rewrite (Hsame Hfc). repeat split. simpl. lia.
    + right; right. exists file, (log (EvSleep RETRY_DELAY) wc).
      split; [|split; [now left|]].
      * cbn [acquire_loop]. rewrite Hcond. step Hopen. step Hcl.
        destruct (Nat.leb_spec (MAX_RETRIES - 1) retries); [lia | reflexivity].
      * intros _ Hfc. rewrite (Hsame Hfc). split; [|exact Hfc].
        repeat split. simpl. lia.
Qed.

Lemma files_after_open_emptied (path : string) (m : mode) (w w1 : world) :
  emptied path m w w1 ->
  files (after_open path m w1) = files (after_open path m w).
Proof.
  intros [E|(-> & E)]; simpl; rewrite E; [reflexivity|].
  apply insert_insert_eq.
Qed.

(** The whole loop: what it does to the target file, and, in a tidy world,
    to the descriptors. *)
Lemma acquire_loop_state (fuel : nat) :
  forall (retries : nat) (file : option handle) (path : string) (m : mode)
         (w w' : world) (r : outcome handle),
  MAX_RETRIES <= retries + fuel ->
  acquire_loop fuel retries file path m w = (r, w') ->
  emptied path m w w' /\
  (forall h, r = Ret h -> files w' = files (after_open path m w)) /\
  (tidy w -> file_closed file w ->
   tidy w' /\
   match r with
   | Ret h => ~ In (h_fd h) (opened w) /\ opened w' = h_fd h :: opened w /\
              flocked w' = h_fd h :: flocked w
   | Raise _ => opened w' = opened w /\ flocked w' = flocked w
   | Block => False
   end).
Proof.
  assert (Hdone : forall fuel retries file path m w w' r,
             MAX_RETRIES <= retries ->
             acquire_loop fuel retries file path m w = (r, w') ->
             emptied path m w w' /\
             (forall h, r = Ret h -> files w' = files (after_open path m w)) /\
             (tidy w -> file_closed file w ->
              tidy w' /\
              match r with
              | Ret h => ~ In (h_fd h) (opened w) /\
                         opened w' = h_fd h :: opened w /\
                         flocked w' = h_fd h :: flocked w
              | Raise _ => opened w' = opened w /\ flocked w' = flocked w
              | Block => False
              end)).
  { intros ? ? ? ? ? ? ? ? Hge Hrun. rewrite acquire_loop_done in Hrun by exact Hge.
    inversion Hrun; subst. split; [apply emptied_refl|].
    split; [discriminate|]. auto. }
  induction fuel as [|fuel IH]; intros retries file path m w w' r Hfuel Hrun.
  { apply (Hdone 0 retries file path m w w' r); [lia | exact Hrun]. }
  destruct (Nat.ltb_spec retries MAX_RETRIES) as [Hlt|Hge];
    [|now apply (Hdone (S fuel) retries file path m w w' r)].
  destruct (acquire_loop_attempt fuel retries file path m w Hlt)
    as [(w2 & Heq & Hf & Ho & Hl & Hn)
       |[(e & w2 & Heq & Hem & Hfds)|(file' & w1 & Heq & Hem & Hfds)]];
    rewrite Heq in Hrun.
  - inversion Hrun; subst r w'. split; [|split].
    + unfold emptied. rewrite Hf. apply emptied_open.
    + intros _ _. exact Hf.
    + intros Ht _. simpl h_fd. split; [|split; [now apply next_fd_fresh | auto]].
      destruct Ht as [Hto Htl]. unfold tidy. rewrite Ho, Hl, Hn.
      split; constructor; try lia; try (simpl; auto; fail);
        eapply Forall_impl; eauto; simpl; intros; auto; lia.
  - inversion Hrun; subst r w'. split; [exact Hem|]. split; [discriminate|].
    intros Ht Hfc. destruct (Hfds Ht Hfc) as (Eo & El & Hn).
    split; [|auto]. apply (tidy_same_fds w); [exact Ht | repeat split; auto].
  - assert (Hf : MAX_RETRIES <= retries + 1 + fuel) by lia.
    destruct (IH _ _ _ _ _ _ _ Hf Hrun) as (Hem' & Hret & Hfds').
    split; [eapply emptied_trans; eauto|]. split.
    + intros h Hh. rewrite (Hret h Hh). now apply files_after_open_emptied.
    + intros Ht Hfc. destruct (Hfds Ht Hfc) as (Hsame & Hfc').
      pose proof (tidy_same_fds _ _ Ht Hsame) as Ht1.
      destruct (Hfds' Ht1 Hfc') as (Ht' & Hr). split; [exact Ht'|].
      destruct Hsame as (Eo & El & _). rewrite Eo, El in Hr. exact Hr.
Qed.

(** X7: [_acquire_file_lock] leaves no descriptor behind. In a tidy world,
    when it returns, the one new descriptor is the one returned, open and
    locked; when it raises, the descriptors open and the locks held are
    those of before: each file opened by a failed attempt was closed.
    Nothing is said of a call that is still waiting for the lock. *)
Theorem acquire_leaves_no_descriptor_behind (path : string) (m : mode)
    (w : world) :
  tidy w ->
  match fst (_acquire_file_lock path m w) with
  | Ret h =>
      tidy (snd (_acquire_file_lock path m w)) /\
      ~ In (h_fd h) (opened w) /\
      opened (snd (_acquire_file_lock path m w)) = h_fd h :: opened w /\
      flocked (snd (_acquire_file_lock path m w)) = h_fd h :: flocked w
  | Raise _ =>
      tidy (snd (_acquire_file_lock path m w)) /\
      opened (snd (_acquire_file_lock path m w)) = opened w /\
      flocked (snd (_acquire_file_lock path m w)) = flocked w
  | Block => True
  end.
Proof.
  intros Ht. destruct (_acquire_file_lock path m w) as [r w'] eqn:Hrun.
  apply acquire_loop_state in Hrun as (_ & _ & H); [|unfold MAX_RETRIES; lia].
  destruct (H Ht I) as (Ht' & Hr). simpl.
  destruct r as [h|e|]; [split; assumption | split; assumption | exact I].
Qed.

Lemma acquire_leaves_no_descriptor_behind_witness :
  tidy (stored true [rec_1_v1] refused_five_times) /\
  match fst (_acquire_file_lock settings_json ModeR
               (stored true [rec_1_v1] refused_five_times)) with
  | Ret h =>
      tidy (snd (_acquire_file_lock settings_json ModeR
                   (stored true [rec_1_v1] refused_five_times))) /\
      ~ In (h_fd h) (opened (stored true [rec_1_v1] refused_five_times)) /\
      opened (snd (_acquire_file_lock settings_json ModeR
                     (stored true [rec_1_v1] refused_five_times)))
      = h_fd h :: opened (stored true [rec_1_v1] refused_five_times) /\
      flocked (snd (_acquire_file_lock settings_json ModeR
                      (stored true [rec_1_v1] refused_five_times)))
      = h_fd h :: flocked (stored true [rec_1_v1] refused_five_times)
  | Raise _ =>
      tidy (snd (_acquire_file_lock settings_json ModeR
                   (stored true [rec_1_v1] refused_five_times))) /\
      opened (snd (_acquire_file_lock settings_json ModeR
                     (stored true [rec_1_v1] refused_five_times)))
      = opened (stored true [rec_1_v1] refused_five_times) /\
      flocked (snd (_acquire_file_lock settings_json ModeR
                      (stored true [rec_1_v1] refused_five_times)))
      = flocked (stored true [rec_1_v1] refused_five_times)
  | Block => True
  end.
Proof.
  split; [split; constructor|].
  apply (acquire_leaves_no_descriptor_behind settings_json ModeR
           (stored true [rec_1_v1] refused_five_times)).
  split; constructor.
Defined.

(** X8: taking the lock for writing empties the target. When
    [_acquire_file_lock(path, 'w')] returns, the file at [path] exists and
    is empty, whatever it held; when it raises, the file is as it was or
    empty. Taking the lock for reading changes no file. *)
Theorem acquire_for_writing_empties_target (path : string) (w : world) :
  match fst (_acquire_file_lock path ModeW w) with
  | Ret _ =>
      files (snd (_acquire_file_lock path ModeW w))
      = <[ path := Empty ]> (files w)
  | _ =>
      files (snd (_acquire_file_lock path ModeW w)) = files w \/
      files (snd (_acquire_file_lock path ModeW w))
      = <[ path := Empty ]> (files w)
  end /\
  files (snd (_acquire_file_lock path ModeR w)) = files w.
Proof.
  split.
  - destruct (_acquire_file_lock path ModeW w) as [r w'] eqn:Hrun.
    apply acquire_loop_state in Hrun as (Hem & Hret & _);
      [|unfold MAX_RETRIES; lia].
    simpl. destruct r as [h|e|].
    + apply (Hret h eq_refl).
    + destruct Hem as [E|(_ & E)]; auto.
    + destruct Hem as [E|(_ & E)]; auto.
  - destruct (_acquire_file_lock path ModeR w) as [r w'] eqn:Hrun.
    apply acquire_loop_state in Hrun as (Hem & _); [|unfold MAX_RETRIES; lia].
    simpl. destruct Hem as [E|(Hm & _)]; [exact E | discriminate].
Qed.

(** ** [_release_file_lock] *)

(** X9: [_release_file_lock] never raises and changes no file. When the
    unlock succeeds the descriptor is unlocked and closed. When the unlock
    raises, the error is printed as a warning and nothing else is done: the
    [close], which comes after the unlock in the [try] block, is skipped,
    so the file stays open and the lock held. *)
Theorem release_never_raises (f : handle) (w : world) :
  fst (_release_file_lock f w) = Ret tt /\
  files (snd (_release_file_lock f w)) = files w /\
  mutex (snd (_release_file_lock f w)) = mutex w /\
  match hd None (script w) with
  | None =>
      ~ In (h_fd f) (opened (snd (_release_file_lock f w))) /\
      ~ In (h_fd f) (flocked (snd (_release_file_lock f w)))
  | Some msg =>
      opened (snd (_release_file_lock f w)) = opened w /\
      flocked (snd (_release_file_lock f w)) = flocked w /\
      trace (snd (_release_file_lock f w))
      = (trace w ++ [EvPrint ("Warning: Error releasing file lock: " ++ msg)])%list
  end.
Proof.
  unfold _release_file_lock. run. destruct (hd None (script w)); simpl.
  - repeat split.
  - destruct (existsb _ _) eqn:E; simpl; repeat split;
      try apply remove_fd_gone.
    intros Hin. rewrite <- not_true_iff_false in E. apply E.
    apply existsb_exists. exists (h_fd f).
    split; [exact Hin | apply Nat.eqb_refl].
Qed.

(** ** [load_settings], step by step *)

Lemma load_settings_absent (p : string) (w : world) :
  mutex w = false ->
  bool_decide (is_Some (files w !! p)) || bool_decide (p ∈ dirs w) = false ->
  load_settings p w = (Ret (JList []), w).
Proof.
  intros Hm Hex. unfold load_settings.
  rewrite (with_lock_free _ w (set_mutex true w) (Ret (JList []))).
  - now rewrite set_mutex_release.
  - exact Hm.
  - unfold bind, OS.path_exists, gets.
    change (files (set_mutex true w)) with (files w).
    change (dirs (set_mutex true w)) with (dirs w). now rewrite Hex.
  - discriminate.
Qed.

Lemma json_load_world (f : handle) (w : world) :
  In (h_fd f) (opened w) -> h_mode f = ModeR ->
  snd (OS.json_load f w) = refused w /\ fst (OS.json_load f w) <> Block.
Proof.
  intros Hin Hmode. unfold OS.json_load. run.
  rewrite (existsb_fd _ _ Hin), Hmode. simpl.
  destruct (hd None (script w)); simpl; [now split|].
  destruct (files w !! h_path f) as [c|]; simpl; [|now split].
  destruct (Json.loads c); now split.
Qed.

(** What [load_settings] does when the path exists: it asks for the lock;
    if it gets it, it reads, then releases. *)
Lemma load_settings_anatomy (p : string) (w : world) :
  mutex w = false ->
  bool_decide (is_Some (files w !! p)) || bool_decide (p ∈ dirs w) = true ->
  exists ra w1, _acquire_file_lock p ModeR (set_mutex true w) = (ra, w1) /\
    match ra with
    | Ret h =>
        exists rl w3,
          OS.json_load h w1 = (rl, refused w1) /\
          _release_file_lock h (refused w1) = (Ret tt, w3) /\
          snd (load_settings p w) = set_mutex false w3
    | Raise e => snd (load_settings p w) = set_mutex false w1
    | Block => False
    end.
Proof.
  intros Hm Hex.
  destruct (_acquire_file_lock p ModeR (set_mutex true w)) as [ra w1] eqn:Hacq.
  exists ra, w1. split; [reflexivity|].
  assert (Hbody : forall r w2,
             (try! file := _acquire_file_lock p ModeR
                except load_except None in
              try! settings := OS.json_load file
                except load_except (Some file) in
              _release_file_lock file ;; ret settings)
               (set_mutex true w) = (r, w2) -> r <> Block ->
             snd (load_settings p w) = set_mutex false w2).
  { intros r w2 H Hr. unfold load_settings, with_lock. rewrite Hm.
    unfold bind at 1, OS.path_exists, gets at 1.
    change (files (set_mutex true w)) with (files w).
    change (dirs (set_mutex true w)) with (dirs w).
    rewrite Hex. cbn [negb]. rewrite H. now destruct r. }
  destruct ra as [h|e|].
  - destruct (acquire_loop_handle _ _ _ _ _ _ _ _ Hacq) as (_ & Hmode & Hopn).
    destruct (json_load_world h w1 Hopn Hmode) as (Hw & Hnb).
    destruct (OS.json_load h w1) as [rl w2] eqn:Hload. simpl in Hw, Hnb. subst w2.
    destruct (release_cases p h (refused w1)) as (w3 & t & Hrel & _).
    exists rl, w3. split; [reflexivity|]. split; [exact Hrel|].
    destruct rl as [v|e|]; [| |contradiction].
    + eapply (Hbody (Ret v)); [|discriminate].
      step Hacq. step Hload. step Hrel. reflexivity.
    + destruct (is_JSONDecodeError e) eqn:Hje.
      * eapply (Hbody (Ret (JList []))); [|discriminate].
        step Hacq. step Hload. unfold load_except. rewrite Hje.
        unfold release_if_bound. step Hrel. reflexivity.
      * eapply (Hbody (Raise (load_error (str e)))); [|discriminate].
        step Hacq. step Hload. unfold load_except. rewrite Hje.
        unfold release_if_bound. step Hrel. reflexivity.
  - destruct (is_JSONDecodeError e) eqn:Hje.
    + eapply (Hbody (Ret (JList []))); [|discriminate].
      step Hacq. unfold load_except. rewrite Hje.
      unfold release_if_bound, bind at 1, ret at 1. reflexivity.
    + eapply (Hbody (Raise (load_error (str e)))); [|discriminate].
      step Hacq. unfold load_except. rewrite Hje.
      unfold release_if_bound, bind at 1, ret at 1. reflexivity.
  - apply acquire_loop_spec in Hacq as (t & _ & []). unfold MAX_RETRIES. lia.
Qed.

Lemma release_unlock_fails (f : handle) (w : world) (msg : string) :
  hd None (script w) = Some msg ->
  _release_file_lock f w = (Ret tt, log (release_warning msg) (refused w)).
Proof. intros Hs. unfold _release_file_lock. run. now rewrite Hs. Qed.

(** Releasing a lock just taken: the descriptors are back to what they
    were before it was taken, unless the unlock raises. *)
Lemma release_after_acquire (h : handle) (w : world) (o l : list nat) :
  tidy w -> opened w = h_fd h :: o -> flocked w = h_fd h :: l ->
  ~ In (h_fd h) o -> ~ In (h_fd h) l ->
  tidy (snd (_release_file_lock h w)) /\
  next_fd (snd (_release_file_lock h w)) = next_fd w /\
  ((opened (snd (_release_file_lock h w)) = o /\
    flocked (snd (_release_file_lock h w)) = l)
   \/ exists msg,
        In (release_warning msg) (trace (snd (_release_file_lock h w)))).
Proof.
  intros Ht Ho Hl Hno Hnl.
  destruct (hd None (script w)) as [msg|] eqn:Hs.
  - rewrite (release_unlock_fails h w msg Hs). simpl.
    split; [exact Ht|]. split; [reflexivity|]. right. exists msg.
    apply in_or_app. right. now left.
  - rewrite (release_open_file h w Hs) by (rewrite Ho; simpl; auto).
    assert (Eo : opened (after_release (h_fd h) w) = o).
    { simpl. rewrite Ho. simpl. rewrite Nat.eqb_refl. simpl.
      now apply remove_fd_absent. }
    assert (El : flocked (after_release (h_fd h) w) = l).
    { simpl. rewrite Hl. simpl. rewrite Nat.eqb_refl. simpl.
      rewrite (remove_fd_absent _ _ Hnl). now apply remove_fd_absent. }
    simpl snd. split; [|split; [reflexivity | left; auto]].
    destruct Ht as [Hto Htl]. unfold tidy. rewrite Eo, El.
    rewrite Ho in Hto. rewrite Ho, Hl in Htl.
    inversion Hto; subst. inversion Htl; subst. split; [assumption|].
    rewrite List.Forall_forall in *. intros fd Hin.
    destruct (H4 fd Hin) as [E|Hin']; [|exact Hin'].
    subst fd. contradiction.
Qed.

(** X10: [load_settings] reads and does nothing else. Whatever the
    environment does, it changes no file and no directory and leaves the
    mutex free; in a tidy world it leaves the descriptors open and the locks
    held as they were, unless the unlock failed, which it reports by a
    warning. *)
Theorem load_settings_only_reads (p : string) (w : world) :
  mutex w = false -> tidy w ->
  files (snd (load_settings p w)) = files w /\
  dirs (snd (load_settings p w)) = dirs w /\
  mutex (snd (load_settings p w)) = false /\
  tidy (snd (load_settings p w)) /\
  ((opened (snd (load_settings p w)) = opened w /\
    flocked (snd (load_settings p w)) = flocked w)
   \/ exists msg, In (release_warning msg) (trace (snd (load_settings p w)))).
Proof.
  intros Hm Ht.
  destruct (bool_decide (is_Some (files w !! p)) || bool_decide (p ∈ dirs w))
    eqn:Hex.
  2:{ rewrite (load_settings_absent p w Hm Hex). simpl. auto 10. }
  destruct (load_settings_anatomy p w Hm Hex) as (ra & w1 & Hacq & Hra).
  pose proof Hacq as Hch.
  apply acquire_loop_spec in Hch as (t & Hch & _); [|unfold MAX_RETRIES; lia].
  pose proof Hacq as Hst.
  apply acquire_loop_state in Hst as (_ & _ & Hfds); [|unfold MAX_RETRIES; lia].
  assert (Ht0 : tidy (set_mutex true w)) by exact Ht.
  destruct (Hfds Ht0 I) as (Ht1 & Hr).
  destruct ra as [h|e|]; [|rewrite Hra|destruct Hra].
  - destruct Hra as (rl & w3 & Hload & Hrel & ->).
    destruct (release_cases p h (refused w1)) as (w3' & t3 & Hrel' & Hch3 & _).
    rewrite Hrel in Hrel'. injection Hrel' as <-.
    destruct Hr as (Hfresh & Ho & Hl).
    pose proof (not_open_not_locked _ _ Ht0 Hfresh) as Hfree.
    assert (Ht2 : tidy (refused w1)) by exact Ht1.
    destruct (release_after_acquire h (refused w1) _ _ Ht2 Ho Hl Hfresh Hfree)
      as (Ht3 & _ & Hfd3).
    rewrite Hrel in Ht3, Hfd3. simpl in Ht3, Hfd3.
    split; [simpl; rewrite (ch_read _ _ _ _ _ Hch3 eq_refl); simpl;
            apply (ch_read _ _ _ _ _ Hch eq_refl)|].
    split; [simpl; rewrite (ch_dirs _ _ _ _ _ Hch3); simpl;
            apply (ch_dirs _ _ _ _ _ Hch)|].
    split; [reflexivity|]. split; [exact Ht3 | exact Hfd3].
  - destruct Hr as (Ho & Hl).
    split; [simpl; apply (ch_read _ _ _ _ _ Hch eq_refl)|].
    split; [simpl; apply (ch_dirs _ _ _ _ _ Hch)|].
    split; [reflexivity|]. split; [exact Ht1|]. left. split; simpl; assumption.
Qed.

Lemma load_settings_only_reads_witness :
  mutex (stored false [rec_1_v1] []) = false /\
  tidy (stored false [rec_1_v1] []) /\
  (files (snd (load_settings settings_json (stored false [rec_1_v1] [])))
   = files (stored false [rec_1_v1] []) /\
   dirs (snd (load_settings settings_json (stored false [rec_1_v1] [])))
   = dirs (stored false [rec_1_v1] []) /\
   mutex (snd (load_settings settings_json (stored false [rec_1_v1] [])))
   = false /\
   tidy (snd (load_settings settings_json (stored false [rec_1_v1] []))) /\
   ((opened (snd (load_settings settings_json (stored false [rec_1_v1] [])))
     = opened (stored false [rec_1_v1] []) /\
     flocked (snd (load_settings settings_json (stored false [rec_1_v1] [])))
     = flocked (stored false [rec_1_v1] []))
    \/ exists msg,
         In (release_warning msg)
            (trace (snd (load_settings settings_json
                           (stored false [rec_1_v1] [])))))).
Proof.
  split; [reflexivity|]. split; [split; constructor|].
  apply (load_settings_only_reads settings_json (stored false [rec_1_v1] [])).
  - reflexivity.
  - split; constructor.
Defined.

(** ** [save_settings], step by step *)

Lemma makedirs_files (name : string) (w : world) :
  files (snd (OS.makedirs name w)) = files w /\
  trace (snd (OS.makedirs name w)) = trace w /\
  mutex (snd (OS.makedirs name w)) = mutex w.
Proof. destruct (makedirs_made_dirs name w) as (H1 & H2 & H3 & _). auto. Qed.

(** The dump writes the temporary file and no other. *)
Lemma json_dump_to_frame (path : string) (v : pyobj) (w : world) :
  forall q, q <> path ->
            files (snd (OS.json_dump_to path v w)) !! q = files w !! q.
Proof.
  intros q Hq. unfold OS.json_dump_to.
  destruct (open_result path ModeW w) as [Hopen|(c & Hopen)].
  - step Hopen. destruct (Json.dump_error v); run.
    + rewrite Nat.eqb_refl; simpl.
      rewrite !lookup_insert_ne by congruence; reflexivity.
    + destruct (hd None (tl (script w))); simpl; rewrite Nat.eqb_refl; simpl;
        rewrite !lookup_insert_ne by congruence; reflexivity.
  - step Hopen. reflexivity.
Qed.

Lemma replace_raised (src dst : string) (w w' : world) (e : exn) :
  OS.replace src dst w = (Raise e, w') -> files w' = files w.
Proof.
  unfold OS.replace. run.
  destruct (hd None (script w)); simpl; [now intros [= <- <-]|].
  destruct (files w !! src); [|now intros [= <- <-]].
  destruct (bool_decide _); [now intros [= <- <-] | discriminate].
Qed.

Lemma remove_frame (path : string) (w : world) :
  forall q, q <> path -> files (snd (OS.remove path w)) !! q = files w !! q.
Proof.
  intros q Hq. unfold OS.remove. run.
  destruct (hd None (script w)); simpl; [reflexivity|].
  destruct (files w !! path); simpl; [|reflexivity].
  now rewrite lookup_delete_ne.
Qed.

(** The [except] clause of [save_settings], once [temp_path] is assigned:
    it raises, and touches no file but the temporary one. *)
Lemma save_except_frame (file : option handle) (tp : string) (e : exn)
    (w : world) :
  (exists e', fst (save_except file (Some tp) e w) = Raise e') /\
  forall q, q <> tp ->
            files (snd (save_except file (Some tp) e w)) !! q = files w !! q.
Proof.
  split.
  - destruct (save_except file (Some tp) e w) as [r w'] eqn:H.
    apply save_except_raises in H as [e' ->]. eauto.
  - intros q Hq. unfold save_except.
    destruct (release_if_bound_cases q file w) as (w1 & t & Hrel & Hch & _).
    step Hrel. rewrite <- (ch_read _ _ _ _ _ Hch eq_refl).
    unfold bind at 1, OS.path_exists, gets at 1.
    destruct (_ || _).
    + unfold bind at 1. pose proof (remove_frame tp w1 q Hq) as Hrm.
      destruct (OS.remove tp w1) as [[[]|e1|] w2]; simpl in *; exact Hrm.
    + reflexivity.
Qed.

Lemma save_except_post (file : option handle) (tp : string) (e : exn)
    (w w1 : world) (r : outcome unit) :
  save_except file (Some tp) e w = (r, w1) ->
  (exists e', r = Raise e') /\
  forall q, q <> tp -> files w1 !! q = files w !! q.
Proof.
  intros H. pose proof (save_except_frame file tp e w) as (Hr & Hf).
  rewrite H in Hr, Hf. exact (conj Hr Hf).
Qed.

Lemma save_body_post (p : string) (X : pyobj) (w w1 : world)
    (r : outcome unit) :
  (try! _ := OS.makedirs (OS.dirname p) except save_except None None in
   try! _ := OS.json_dump_to (p ++ ".tmp") X
     except save_except None (Some (p ++ ".tmp")) in
   try! file := _acquire_file_lock p ModeW
     except save_except None (Some (p ++ ".tmp")) in
   try! _ := OS.replace (p ++ ".tmp") p
     except save_except (Some file) (Some (p ++ ".tmp")) in
   _release_file_lock file) w = (r, w1) ->
  save_post p X w r w1.
Proof.
  unfold save_post.
  pose proof (tmp_neq p) as Htmp.
  assert (Hp : p <> p ++ ".tmp") by congruence.
  (* os.makedirs *)
  unfold try_bind at 1.
  pose proof (makedirs_files (OS.dirname p) w) as (Hfa & _).
  pose proof (makedirs_returns (OS.dirname p) w) as Hnb.
  destruct (OS.makedirs (OS.dirname p) w) as [[[]|e|] wa];
    simpl in Hfa, Hnb; [| |contradiction].
  2:{ unfold save_except, release_if_bound, bind, ret, raise.
      intros [= <- <-]. rewrite Hfa. auto. }
  (* the dump *)
  unfold try_bind at 1.
  pose proof (json_dump_to_frame (p ++ ".tmp") X wa) as Hfb.
  destruct (OS.json_dump_to (p ++ ".tmp") X wa) as [[[]|e|] wb] eqn:Hdump;
    simpl in Hfb.
  2:{ intros H. apply save_except_post in H as ((e' & ->) & Hfr). split.
      - intros q Hq1 Hq2. now rewrite Hfr, Hfb, Hfa.
      - left. now rewrite Hfr, Hfb, Hfa. }
  2:{ pose proof (json_dump_to_returns (p ++ ".tmp") X wa) as H.
      rewrite Hdump in H. now destruct H. }
  apply json_dump_to_ret in Hdump as (Hdump & _).
  (* the lock *)
  unfold try_bind at 1.
  destruct (_acquire_file_lock p ModeW wb) as [[h|e|] wc] eqn:Hacq.
  3:{ apply acquire_loop_spec in Hacq as (t & _ & []). unfold MAX_RETRIES. lia. }
  2:{ apply acquire_loop_state in Hacq as (Hem & _); [|unfold MAX_RETRIES; lia].
      intros H. apply save_except_post in H as ((e' & ->) & Hfr). split.
      - intros q Hq1 Hq2. rewrite Hfr by auto.
        destruct Hem as [E|(_ & E)]; rewrite E, ?lookup_insert_ne by auto;
          now rewrite Hfb, Hfa.
      - rewrite Hfr by auto.
        destruct Hem as [E|(_ & E)]; rewrite E.
        + left. now rewrite Hfb, Hfa.
        + right. apply lookup_insert_eq. }
  apply acquire_loop_state in Hacq as (_ & Hret & _); [|unfold MAX_RETRIES; lia].
  specialize (Hret h eq_refl). simpl in Hret.
  (* os.replace *)
  unfold try_bind at 1.
  destruct (OS.replace (p ++ ".tmp") p wc) as [[[]|e|] wd] eqn:Hrep.
  3:{ pose proof (replace_returns (p ++ ".tmp") p wc) as H.
      rewrite Hrep in H. now destruct H. }
  2:{ apply replace_raised in Hrep.
      intros H. apply save_except_post in H as ((e' & ->) & Hfr). split.
      - intros q Hq1 Hq2. rewrite Hfr, Hrep, Hret by auto.
        rewrite lookup_insert_ne by auto. now rewrite Hfb, Hfa.
      - right. rewrite Hfr, Hrep, Hret by auto. apply lookup_insert_eq. }
  apply replace_ret in Hrep as (c & Hc & Hfd).
  rewrite Hret, lookup_insert_ne, Hdump in Hc by auto. injection Hc as <-.
  destruct (release_cases p h wd) as (we & t & Hrel & Hch & _).
  rewrite Hrel. intros [= <- <-].
  rewrite (ch_read _ _ _ _ _ Hch eq_refl), Hfd. split.
  - intros q Hq1 Hq2.
    rewrite lookup_insert_ne, lookup_delete_ne, Hret, lookup_insert_ne by auto.
    now rewrite Hfb, Hfa.
  - split; [apply lookup_insert_eq|].
    rewrite lookup_insert_ne by auto. apply lookup_delete_eq.
Qed.

(** X11: what [save_settings] can do to the files, whatever the
    environment does. It touches no file but the target and the temporary
    one. When it returns, the target holds the document of the value saved
    and the temporary file is gone. When it raises, the target is as it was
    or it is empty; it never holds part of the new text. In both cases the
    mutex is free again. Nothing is said of a call that is still waiting
    for the lock, but that it has touched no other file. *)
Theorem save_settings_target_states (p : string) (X : pyobj) (w : world) :
  mutex w = false ->
  (forall q, q <> p -> q <> p ++ ".tmp" ->
             files (snd (save_settings p X w)) !! q = files w !! q) /\
  match fst (save_settings p X w) with
  | Ret _ =>
      files (snd (save_settings p X w)) !! p = Some (Doc (Json.encode X)) /\
      files (snd (save_settings p X w)) !! (p ++ ".tmp") = None /\
      mutex (snd (save_settings p X w)) = false
  | Raise _ =>
      (files (snd (save_settings p X w)) !! p = files w !! p \/
       files (snd (save_settings p X w)) !! p = Some Empty) /\
      mutex (snd (save_settings p X w)) = false
  | Block => True
  end.
Proof.
  intros Hm. unfold save_settings, with_lock. rewrite Hm.
  match goal with |- context [?b (set_mutex true w)] =>
    destruct (b (set_mutex true w)) as [r w1] eqn:Hbody end.
  apply save_body_post in Hbody as (Hfr & Hr). simpl in Hfr.
  destruct r as [[]|e|]; simpl; [| |auto]; (split; [exact Hfr|]).
  - destruct Hr. auto.
  - auto.
Qed.

Lemma save_settings_target_states_witness :
  mutex (stored true [rec_1_v1] replace_fails) = false /\
  ((forall q, q <> settings_json -> q <> settings_json ++ ".tmp" ->
              files (snd (save_settings settings_json (JList [rec_1_v2])
                            (stored true [rec_1_v1] replace_fails))) !! q
              = files (stored true [rec_1_v1] replace_fails) !! q) /\
   match fst (save_settings settings_json (JList [rec_1_v2])
                (stored true [rec_1_v1] replace_fails)) with
   | Ret _ =>
       files (snd (save_settings settings_json (JList [rec_1_v2])
                     (stored true [rec_1_v1] replace_fails))) !! settings_json
       = Some (Doc (Json.encode (JList [rec_1_v2]))) /\
       files (snd (save_settings settings_json (JList [rec_1_v2])
                     (stored true [rec_1_v1] replace_fails)))
         !! (settings_json ++ ".tmp") = None /\
       mutex (snd (save_settings settings_json (JList [rec_1_v2])
                     (stored true [rec_1_v1] replace_fails))) = false
   | Raise _ =>
       (files (snd (save_settings settings_json (JList [rec_1_v2])
                      (stored true [rec_1_v1] replace_fails))) !! settings_json
        = files (stored true [rec_1_v1] replace_fails) !! settings_json \/
        files (snd (save_settings settings_json (JList [rec_1_v2])
                      (stored true [rec_1_v1] replace_fails))) !! settings_json
        = Some Empty) /\
       mutex (snd (save_settings settings_json (JList [rec_1_v2])
                     (stored true [rec_1_v1] replace_fails))) = false
   | Block => True
   end).
Proof.
  split; [reflexivity|].
  apply (save_settings_target_states settings_json (JList [rec_1_v2])
           (stored true [rec_1_v1] replace_fails)).
  reflexivity.
Defined.

(** *** The steps that go well *)

Lemma eqb_false_length (a b : string) :
  String.length a <> String.length b -> String.eqb a b = false.
Proof. intros H. destruct (String.eqb_spec a b); [subst; contradiction | auto]. Qed.

Lemma after_last_slash_tmp (p : string) :
  OS.after_last_slash (p ++ ".tmp") = OS.after_last_slash p ++ ".tmp".
Proof.
  induction p as [|c p IH]; [reflexivity|].
  change (String c p ++ ".tmp") with (String c (p ++ ".tmp")).
  cbn [OS.after_last_slash]. rewrite IH.
  change (OS.has_slash (String c (p ++ ".tmp")))
    with (OS.is_slash c || OS.has_slash (p ++ ".tmp")).
  rewrite has_slash_app. simpl. rewrite orb_false_r.
  now destruct (OS.is_slash c || OS.has_slash p).
Qed.

(** The temporary name names a file, whatever the path. *)
Lemma names_dir_tmp (p : string) : OS.names_dir (p ++ ".tmp") = false.
Proof.
  unfold OS.names_dir, OS.basename. rewrite after_last_slash_tmp.
  pose proof (length_app_tmp (OS.after_last_slash p)) as Hl.
  rewrite !eqb_false_length; [reflexivity | | |]; rewrite Hl; simpl; lia.
Qed.

Lemma dirname_neq (p : string) : OS.names_dir p = false -> p <> OS.dirname p.
Proof.
  unfold OS.names_dir. intros H Heq.
  assert (Hb : OS.nonempty (OS.basename p) = true).
  { unfold OS.nonempty. now destruct (String.eqb (OS.basename p) ""). }
  pose proof (dirname_shorter p Hb) as Hlt. rewrite <- Heq in Hlt. lia.
Qed.

(** [os.makedirs] of a directory part whose parent is there. *)
Lemma makedirs_flat_world (p : string) (w : world) :
  hd None (script w) = None -> OS.dirname p <> "" ->
  files w !! OS.dirname p = None ->
  files w !! OS.dirname (OS.dirname p) = None ->
  OS.dir_exists (OS.dirname (OS.dirname p)) w = true ->
  exists wa,
    OS.makedirs (OS.dirname p) w = (Ret tt, wa) /\ made_dirs w wa /\
    script wa = tl (script w) /\ OS.dir_exists (OS.dirname p) wa = true /\
    dirs wa = (if OS.isdir (OS.dirname p) w then dirs w
               else {[ OS.dirname p ]} ∪ dirs w).
Proof.
  intros Hs Hd Hf Hfp Hp.
  rewrite (makedirs_flat _ w Hs Hd (basename_dirname p) Hf Hfp Hp).
  destruct (OS.isdir (OS.dirname p) w) eqn:Hisd.
  - eexists. split; [reflexivity|]. split; [apply made_dirs_refused|].
    split; [reflexivity|]. split; [|reflexivity].
    unfold OS.isdir in Hisd. apply andb_prop in Hisd as [_ Hisd]. exact Hisd.
  - eexists. split; [reflexivity|]. split; [apply made_dirs_made|].
    split; [reflexivity|]. split; [|reflexivity].
    unfold OS.dir_exists. simpl.
    rewrite (bool_decide_eq_true_2 (OS.dirname p ∈ {[OS.dirname p]} ∪ dirs w))
      by (apply elem_of_union; left; now apply elem_of_singleton).
    apply orb_true_r.
Qed.

(** A path that is no directory before [os.makedirs] of its directory
    part is none after. *)
Lemma not_made (p q : string) (w wa : world) :
  dirs wa = (if OS.isdir (OS.dirname p) w then dirs w
             else {[ OS.dirname p ]} ∪ dirs w) ->
  q <> OS.dirname p -> q ∉ dirs w -> q ∉ dirs wa.
Proof.
  intros -> Hne Hout. destruct (OS.isdir _ _); [exact Hout|].
  intros [Hin|Hin]%elem_of_union; [|contradiction].
  apply elem_of_singleton in Hin. contradiction.
Qed.

Lemma open_for_writing (p : string) (w : world) :
  hd None (script w) = None -> p ∉ dirs w -> OS.names_dir p = false ->
  OS.dir_exists (OS.dirname p) w = true ->
  OS.open p ModeW w
  = (Ret (mk_handle (next_fd w) p ModeW), after_open p ModeW w).
Proof.
  intros Hs Hd Hn Hp. run. rewrite Hs. simpl.
  destruct (files w !! p); simpl; [reflexivity|].
  rewrite bool_decide_eq_false_2 by exact Hd. rewrite Hn. simpl.
  change (OS.dir_exists (OS.dirname p)
            (set_script (tl (script w)) (log (EvOpen p ModeW) w)))
    with (OS.dir_exists (OS.dirname p) w).
  now rewrite Hp.
Qed.

Lemma dump_result (tp : string) (v : pyobj) (w : world) :
  hd None (script w) = None -> tp ∉ dirs w -> OS.names_dir tp = false ->
  OS.dir_exists (OS.dirname tp) w = true -> Json.dump_error v = None ->
  OS.json_dump_to tp v w
  = match hd None (tl (script w)) with
    | None => (Ret tt, written tp (Doc (Json.encode v)) w)
    | Some msg =>
        (Raise (mk_exn OSError_ msg), written tp (Partial (Json.encode v)) w)
    end.
Proof.
  intros Hs Hd Hn Hp Hok. unfold OS.json_dump_to.
  step (open_for_writing tp w Hs Hd Hn Hp). rewrite Hok. run.
  destruct (hd None (tl (script w))); simpl; rewrite Nat.eqb_refl; reflexivity.
Qed.

Lemma replace_ok (src dst : string) (c : content) (w : world) :
  hd None (script w) = None -> files w !! src = Some c -> dst ∉ dirs w ->
  OS.replace src dst w = (Ret tt, replaced src dst c w).
Proof.
  intros Hs Hc Hd. unfold OS.replace. run. rewrite Hs. simpl. rewrite Hc.
  now rewrite bool_decide_eq_false_2 by exact Hd.
Qed.

(** The first attempt succeeds when its [open] and its lock do. *)
Lemma acquire_loop_first_open (fuel retries : nat) (file : option handle)
    (path : string) (m : mode) (w : world) :
  retries < MAX_RETRIES ->
  OS.open path m w
  = (Ret (mk_handle (next_fd w) path m), after_open path m w) ->
  hd None (tl (script w)) = None ->
  acquire_loop (S fuel) retries file path m w
  = (Ret (mk_handle (next_fd w) path m),
     after_lock (next_fd w) (after_open path m w)).
Proof.
  intros Hlt Hopen H1. cbn [acquire_loop].
  destruct (Nat.ltb_spec retries MAX_RETRIES); [cbn [negb] | lia].
  step Hopen. unfold bind at 1, gets at 1. cbn [after_open windows].
  destruct (windows w); cbn [negb h_fd].
  - erewrite try_bind_ret; [reflexivity|]. now apply locking_granted.
  - erewrite try_bind_ret; [reflexivity|]. now apply flock_granted.
Qed.

(** *** When the directory cannot be made *)

(** X12: whenever [os.makedirs] raises, whatever the reason, the caller of
    [save_settings] gets the [UnboundLocalError] of the [except] clause,
    which reads [temp_path] before it was assigned, and not the cause. No
    file was touched and nothing was opened, locked or printed; the
    directories that were there are still there (and those [os.makedirs]
    made on its way stay), and the mutex is free again. *)
Theorem failed_makedirs_masks_cause (p : string) (X : pyobj) (w : world)
    (e : exn) :
  mutex w = false ->
  fst (OS.makedirs (OS.dirname p) (set_mutex true w)) = Raise e ->
  fst (save_settings p X w) = Raise unbound_temp_path /\
  files (snd (save_settings p X w)) = files w /\
  trace (snd (save_settings p X w)) = trace w /\
  opened (snd (save_settings p X w)) = opened w /\
  flocked (snd (save_settings p X w)) = flocked w /\
  dirs w ⊆ dirs (snd (save_settings p X w)) /\
  mutex (snd (save_settings p X w)) = false.
Proof.
  intros Hm H.
  pose proof (makedirs_made_dirs (OS.dirname p) (set_mutex true w)) as Hmd.
  destruct (OS.makedirs (OS.dirname p) (set_mutex true w)) as [r wa] eqn:Hmk.
  simpl in H, Hmd. subst r.
  destruct Hmd as (E1 & E2 & _ & _ & E5 & E6 & _ & E8 & _).
  unfold save_settings.
  rewrite (with_lock_free _ w wa (Raise unbound_temp_path));
    [| exact Hm | step Hmk; reflexivity | discriminate].
  simpl. auto 10.
Qed.

Lemma failed_makedirs_masks_cause_witness :
  mutex (stored false [rec_1_v1] []) = false /\
  fst (OS.makedirs (OS.dirname below_a_file)
         (set_mutex true (stored false [rec_1_v1] [])))
  = Raise (mk_exn OSError_
             "[Errno 20] Not a directory: '/data/settings.json/sub'") /\
  (fst (save_settings below_a_file (JList [rec_1_v2])
          (stored false [rec_1_v1] [])) = Raise unbound_temp_path /\
   files (snd (save_settings below_a_file (JList [rec_1_v2])
                 (stored false [rec_1_v1] [])))
   = files (stored false [rec_1_v1] []) /\
   trace (snd (save_settings below_a_file (JList [rec_1_v2])
                 (stored false [rec_1_v1] [])))
   = trace (stored false [rec_1_v1] []) /\
   opened (snd (save_settings below_a_file (JList [rec_1_v2])
                  (stored false [rec_1_v1] [])))
   = opened (stored false [rec_1_v1] []) /\
   flocked (snd (save_settings below_a_file (JList [rec_1_v2])
                   (stored false [rec_1_v1] [])))
   = flocked (stored false [rec_1_v1] []) /\
   dirs (stored false [rec_1_v1] [])
   ⊆ dirs (snd (save_settings below_a_file (JList [rec_1_v2])
                  (stored false [rec_1_v1] []))) /\
   mutex (snd (save_settings below_a_file (JList [rec_1_v2])
                 (stored false [rec_1_v1] []))) = false).
Proof.
  split; [reflexivity|]. split; [vm_compute; reflexivity|].
  apply (failed_makedirs_masks_cause below_a_file (JList [rec_1_v2])
           (stored false [rec_1_v1] [])
           (mk_exn OSError_
              "[Errno 20] Not a directory: '/data/settings.json/sub'")).
  - reflexivity.
  - vm_compute; reflexivity.
Defined.

(** A directory that [os.makedirs] made before it failed stays. *)
Example failed_makedirs_leaves_parents :
  let w := fresh false ∅ ∅ [None; Some "[Errno 28] No space left on device"] in
  fst (save_settings "/a/b/settings.json" (JList []) w)
  = Raise unbound_temp_path /\
  dirs (snd (save_settings "/a/b/settings.json" (JList []) w)) = {[ "/a" ]}.
Proof. vm_compute. split; reflexivity. Qed.

(** *** When the dump fails *)

Lemma save_except_cleanup (tp : string) (c : content) (e : exn) (w : world) :
  files w !! tp = Some c ->
  save_except None (Some tp) e w
  = match hd None (script w) with
    | None =>
        (Raise (mk_exn Exception_ ("Failed to save settings: " ++ str e)),
         set_files (delete tp (files w)) (refused w))
    | Some msg => (Raise (mk_exn OSError_ msg), refused w)
    end.
Proof.
  intros Hc. unfold save_except, release_if_bound, OS.remove. run.
  rewrite Hc. rewrite bool_decide_eq_true_2 by eauto. simpl.
  destruct (hd None (script w)); simpl; [reflexivity|]. now rewrite Hc.
Qed.

(** X13: when the directory is there or can be made and the write of the
    temporary file fails, the target is not opened and keeps its content.
    If the temporary file can then be removed it is gone and the error
    names the cause; if its removal fails too, the error of the removal is
    what the caller gets, and the partly written temporary file stays. *)
Theorem failed_dump_leaves_target (p : string) (X : pyobj) (w : world)
    (msg : string) (r4 : option string) (rest : list (option string)) :
  mutex w = false -> OS.dirname p <> "" ->
  files w !! OS.dirname p = None ->
  files w !! OS.dirname (OS.dirname p) = None ->
  OS.dir_exists (OS.dirname (OS.dirname p)) w = true ->
  (p ++ ".tmp") ∉ dirs w -> Json.dump_error X = None ->
  script w = None :: None :: Some msg :: r4 :: rest ->
  match r4 with
  | None =>
      fst (save_settings p X w)
      = Raise (mk_exn Exception_ ("Failed to save settings: " ++ msg)) /\
      files (snd (save_settings p X w)) = delete (p ++ ".tmp") (files w)
  | Some msg' =>
      fst (save_settings p X w) = Raise (mk_exn OSError_ msg') /\
      files (snd (save_settings p X w))
      = <[ p ++ ".tmp" := Partial (Json.encode X) ]> (files w)
  end /\
  files (snd (save_settings p X w)) !! p = files w !! p /\
  trace (snd (save_settings p X w))
  = (trace w ++ [EvOpen (p ++ ".tmp") ModeW; EvClose (next_fd w)])%list /\
  mutex (snd (save_settings p X w)) = false.
Proof.
  intros Hm Hd Hf Hfp Hpar Htp Hok Hs.
  set (w0 := set_mutex true w).
  destruct (makedirs_flat_world p w0) as (wa & Hmk & Hmd & Hsa & Hda & Hdirs);
    try assumption.
  { simpl. now rewrite Hs. }
  destruct Hmd as (Efa & Eta & _ & _ & _ & _ & Ena & _ & _).
  simpl in Hsa, Efa, Eta, Ena. rewrite Hs in Hsa. simpl in Hsa.
  set (w2 := written (p ++ ".tmp") (Partial (Json.encode X)) wa).
  assert (Hdump : OS.json_dump_to (p ++ ".tmp") X wa
                  = (Raise (mk_exn OSError_ msg), w2)).
  { rewrite dump_result; try assumption.
    - now rewrite Hsa.
    - now rewrite Hsa.
    - apply (not_made p _ w0 wa Hdirs); [apply tmp_neq_dirname | exact Htp].
    - apply names_dir_tmp.
    - now rewrite dirname_tmp. }
  assert (Hc : files w2 !! (p ++ ".tmp") = Some (Partial (Json.encode X)))
    by (simpl; apply lookup_insert_eq).
  pose proof (save_except_cleanup (p ++ ".tmp") _ (mk_exn OSError_ msg) w2 Hc)
    as Hex.
  assert (Hr4 : hd None (script w2) = r4) by (simpl; now rewrite Hsa).
  rewrite Hr4 in Hex.
  assert (Hp : p <> p ++ ".tmp") by (pose proof (tmp_neq p); congruence).
  unfold save_settings. destruct r4 as [msg'|].
  - rewrite (with_lock_free _ w (refused w2) (Raise (mk_exn OSError_ msg')));
      [| exact Hm | step Hmk; step Hdump; exact Hex | discriminate].
    simpl. rewrite insert_insert_eq, Efa, Eta, Ena. repeat split.
    + rewrite lookup_insert_ne by auto. reflexivity.
    + now rewrite <- app_assoc.
  - rewrite (with_lock_free _ w
               (set_files (delete (p ++ ".tmp") (files w2)) (refused w2))
               (Raise (mk_exn Exception_ ("Failed to save settings: " ++ msg))));
      [| exact Hm | step Hmk; step Hdump; exact Hex | discriminate].
    simpl. rewrite !delete_insert_eq, Efa, Eta, Ena. repeat split.
    + rewrite lookup_delete_ne by auto. reflexivity.
    + now rewrite <- app_assoc.
Qed.

Lemma failed_dump_leaves_target_witness :
  mutex disk_full = false /\ OS.dirname settings_json <> "" /\
  files disk_full !! OS.dirname settings_json = None /\
  files disk_full !! OS.dirname (OS.dirname settings_json) = None /\
  OS.dir_exists (OS.dirname (OS.dirname settings_json)) disk_full = true /\
  ((settings_json ++ ".tmp") ∉ dirs disk_full) /\
  Json.dump_error (JList [rec_1_v1]) = None /\
  script disk_full
  = [None; None; Some "[Errno 28] No space left on device"; None] /\
  ((fst (save_settings settings_json (JList [rec_1_v1]) disk_full)
    = Raise (mk_exn Exception_
               ("Failed to save settings: "
                ++ "[Errno 28] No space left on device")) /\
    files (snd (save_settings settings_json (JList [rec_1_v1]) disk_full))
    = delete (settings_json ++ ".tmp") (files disk_full)) /\
   files (snd (save_settings settings_json (JList [rec_1_v1]) disk_full))
     !! settings_json = files disk_full !! settings_json /\
   trace (snd (save_settings settings_json (JList [rec_1_v1]) disk_full))
   = (trace disk_full ++ [EvOpen (settings_json ++ ".tmp") ModeW;
                          EvClose (next_fd disk_full)])%list /\
   mutex (snd (save_settings settings_json (JList [rec_1_v1]) disk_full))
   = false).
Proof.
  split; [reflexivity|]. split; [vm_compute; discriminate|].
  split; [reflexivity|]. split; [reflexivity|]. split; [reflexivity|].
  split; [compute_done|]. split; [reflexivity|]. split; [reflexivity|].
  apply (failed_dump_leaves_target settings_json (JList [rec_1_v1]) disk_full
           "[Errno 28] No space left on device" None []).
  - reflexivity.
  - vm_compute; discriminate.
  - reflexivity.
  - reflexivity.
  - reflexivity.
  - compute_done.
  - reflexivity.
  - reflexivity.
Defined.

(** *** When everything goes well *)

Lemma quiet_script (w : world) (k : nat) :
  quiet w -> hd None (Nat.iter k (@tl _) (script w)) = None.
Proof.
  unfold quiet. generalize (script w). induction k as [|k IH]; intros s Hq.
  - now apply quiet_hd.
  - rewrite Nat.iter_succ_r. apply IH. now apply quiet_tl.
Qed.

(** X14: away from Windows (where [os.replace] onto the target, which is
    open, is refused: C5), [save_settings] succeeds when the environment
    fails no call, the path ends in a file name, its directory part is
    there or can be made by one [mkdir] (the directory above it is there,
    and neither is a regular file), neither the path nor the temporary path
    is a directory, and [json.dump] accepts the value. It makes the
    directory if need be, leaves the document of the value at the path and
    no temporary file, and, in a tidy world, leaves the descriptors and the
    locks as they were. *)
Theorem save_settings_succeeds (p : string) (X : pyobj) (w : world) :
  windows w = false -> mutex w = false -> quiet w -> tidy w ->
  OS.names_dir p = false -> OS.dirname p <> "" ->
  files w !! OS.dirname p = None ->
  files w !! OS.dirname (OS.dirname p) = None ->
  OS.dir_exists (OS.dirname (OS.dirname p)) w = true ->
  p ∉ dirs w -> (p ++ ".tmp") ∉ dirs w -> Json.dump_error X = None ->
  fst (save_settings p X w) = Ret tt /\
  files (snd (save_settings p X w)) !! p = Some (Doc (Json.encode X)) /\
  files (snd (save_settings p X w)) !! (p ++ ".tmp") = None /\
  dirs (snd (save_settings p X w))
  = (if OS.isdir (OS.dirname p) w then dirs w
     else {[ OS.dirname p ]} ∪ dirs w) /\
  opened (snd (save_settings p X w)) = opened w /\
  flocked (snd (save_settings p X w)) = flocked w /\
  mutex (snd (save_settings p X w)) = false.
Proof.
  intros Hposix Hm Hq Ht Hn Hd Hf Hfp Hpar Hp Htp Hok.
  pose proof (quiet_script w 0 Hq) as H0. pose proof (quiet_script w 1 Hq) as H1.
  pose proof (quiet_script w 2 Hq) as H2. pose proof (quiet_script w 3 Hq) as H3.
  pose proof (quiet_script w 4 Hq) as H4. pose proof (quiet_script w 5 Hq) as H5.
  pose proof (quiet_script w 6 Hq) as H6. simpl in H0, H1, H2, H3, H4, H5, H6.
  set (fd := next_fd w).
  set (w0 := set_mutex true w).
  destruct (makedirs_flat_world p w0) as (wa & Hmk & Hmd & Hsa & Hda & Hdirs);
    try assumption.
  destruct Hmd as (Efa & Eta & _ & _ & Eoa & Ela & Ena & _ & _).
  simpl in Hsa, Efa, Eta, Eoa, Ela, Ena.
  set (w2 := written (p ++ ".tmp") (Doc (Json.encode X)) wa).
  set (w3 := after_lock (next_fd w2) (after_open p ModeW w2)).
  set (w4 := replaced (p ++ ".tmp") p (Doc (Json.encode X)) w3).
  set (w5 := after_release (S fd) w4).
  assert (Hne : p <> p ++ ".tmp") by (pose proof (tmp_neq p); congruence).
  assert (Hpd : p <> OS.dirname p) by (now apply dirname_neq).
  assert (Hpa : p ∉ dirs wa) by (now apply (not_made p p w0 wa Hdirs)).
  assert (Hdump : OS.json_dump_to (p ++ ".tmp") X wa = (Ret tt, w2)).
  { rewrite dump_result; try assumption.
    - now rewrite Hsa, H2.
    - now rewrite Hsa.
    - apply (not_made p _ w0 wa Hdirs); [apply tmp_neq_dirname | exact Htp].
    - apply names_dir_tmp.
    - now rewrite dirname_tmp. }
  assert (Hacq : _acquire_file_lock p ModeW w2
                 = (Ret (mk_handle (next_fd w2) p ModeW), w3)).
  { apply (acquire_loop_first_open 4 0 None p ModeW w2).
    - unfold MAX_RETRIES. lia.
    - apply open_for_writing.
      + simpl. now rewrite Hsa.
      + exact Hpa.
      + exact Hn.
      + exact Hda.
    - simpl. now rewrite Hsa. }
  assert (Hrep : OS.replace (p ++ ".tmp") p w3 = (Ret tt, w4)).
  { apply replace_ok.
    - simpl. now rewrite Hsa.
    - simpl. rewrite lookup_insert_ne by auto. apply lookup_insert_eq.
    - exact Hpa. }
  assert (Hfd : next_fd w2 = S fd) by (simpl; now rewrite Ena).
  assert (Hrel : _release_file_lock (mk_handle (next_fd w2) p ModeW) w4
                 = (Ret tt, w5)).
  { rewrite Hfd. apply (release_open_file (mk_handle (S fd) p ModeW)).
    - simpl. now rewrite Hsa.
    - simpl. rewrite Ena. now left. }
  unfold save_settings.
  rewrite (with_lock_free _ w w5 (Ret tt));
    [| exact Hm
     | step Hmk; step Hdump; step Hacq; step Hrep; exact Hrel
     | discriminate].
  pose proof (next_fd_fresh w Ht) as Hfresh.
  pose proof (not_open_not_locked w _ Ht Hfresh) as Hfree.
  assert (Hfresh' : ~ In (S fd) (opened w)).
  { destruct Ht as [Hto _]. rewrite List.Forall_forall in Hto.
    intros Hin. apply Hto in Hin. unfold fd in Hin. lia. }
  assert (Hfree' : ~ In (S fd) (flocked w)).
  { now apply (not_open_not_locked w _ Ht). }
  split; [reflexivity|]. simpl.
  split; [apply lookup_insert_eq|].
  split; [rewrite lookup_insert_ne by auto; apply lookup_delete_eq|].
  split; [exact Hdirs|].
  rewrite Ena, Eoa, Ela. fold fd. rewrite !Nat.eqb_refl. simpl.
  rewrite (remove_fd_absent fd (opened w) Hfresh).
  rewrite (remove_fd_absent fd (flocked w) Hfree).
  rewrite (remove_fd_absent (S fd) (opened w) Hfresh').
  rewrite !(remove_fd_absent (S fd) (flocked w) Hfree').
  auto.
Qed.

Lemma save_settings_succeeds_witness :
  windows (fresh false ∅ ∅ []) = false /\
  mutex (fresh false ∅ ∅ []) = false /\ quiet (fresh false ∅ ∅ []) /\
  tidy (fresh false ∅ ∅ []) /\ OS.names_dir settings_json = false /\
  OS.dirname settings_json <> "" /\
  files (fresh false ∅ ∅ []) !! OS.dirname settings_json = None /\
  files (fresh false ∅ ∅ []) !! OS.dirname (OS.dirname settings_json) = None /\
  OS.dir_exists (OS.dirname (OS.dirname settings_json)) (fresh false ∅ ∅ [])
  = true /\
  (settings_json ∉ dirs (fresh false ∅ ∅ [])) /\
  ((settings_json ++ ".tmp") ∉ dirs (fresh false ∅ ∅ [])) /\
  Json.dump_error (JList [rec_1_v1]) = None /\
  (fst (save_settings settings_json (JList [rec_1_v1]) (fresh false ∅ ∅ []))
   = Ret tt /\
   files (snd (save_settings settings_json (JList [rec_1_v1])
                 (fresh false ∅ ∅ []))) !! settings_json
   = Some (Doc (Json.encode (JList [rec_1_v1]))) /\
   files (snd (save_settings settings_json (JList [rec_1_v1])
                 (fresh false ∅ ∅ []))) !! (settings_json ++ ".tmp") = None /\
   dirs (snd (save_settings settings_json (JList [rec_1_v1])
                (fresh false ∅ ∅ [])))
   = (if OS.isdir (OS.dirname settings_json) (fresh false ∅ ∅ [])
      then dirs (fresh false ∅ ∅ [])
      else {[ OS.dirname settings_json ]} ∪ dirs (fresh false ∅ ∅ [])) /\
   opened (snd (save_settings settings_json (JList [rec_1_v1])
                  (fresh false ∅ ∅ []))) = opened (fresh false ∅ ∅ []) /\
   flocked (snd (save_settings settings_json (JList [rec_1_v1])
                   (fresh false ∅ ∅ []))) = flocked (fresh false ∅ ∅ []) /\
   mutex (snd (save_settings settings_json (JList [rec_1_v1])
                 (fresh false ∅ ∅ []))) = false).
Proof.
  split; [reflexivity|].
  split; [reflexivity|]. split; [constructor|]. split; [split; constructor|].
  split; [reflexivity|]. split; [vm_compute; discriminate|].
  split; [reflexivity|]. split; [reflexivity|]. split; [reflexivity|].
  split; [compute_done|]. split; [compute_done|]. split; [reflexivity|].
  apply (save_settings_succeeds settings_json (JList [rec_1_v1])
           (fresh false ∅ ∅ [])).
  - reflexivity.
  - reflexivity.
  - constructor.
  - split; constructor.
  - reflexivity.
  - vm_compute; discriminate.
  - reflexivity.
  - reflexivity.
  - reflexivity.
  - compute_done.
  - compute_done.
  - reflexivity.
Defined.

(** ** The list steps on a store that is not a list of records *)

Lemma find_setting_stumbles (l1 l2 : list json) (s : json)
    (id : option string) (i : nat) (w : world) :
  records l1 -> Forall (fun r => has_id id r = false) l1 ->
  is_dict s = false ->
  find_setting (l1 ++ s :: l2) id i w = (Raise (no_get s), w).
Proof.
  intros Hr. revert i. induction Hr as [|r l Hd Hr IH]; intros i Hn Hs.
  - simpl. destruct s; try discriminate; reflexivity.
  - inversion Hn; subst. cbn [find_setting app].
    step (get_id_record r w Hd). fold (has_id id r).
    replace (has_id id r) with false by auto. now apply IH.
Qed.

Lemma keep_others_stumbles (l1 l2 : list json) (s : json)
    (id : option string) (w : world) :
  records l1 -> is_dict s = false ->
  keep_others (l1 ++ s :: l2) id w = (Raise (no_get s), w).
Proof.
  intros Hr Hs. induction Hr as [|r l Hd Hr IH].
  - simpl. destruct s; try discriminate; reflexivity.
  - cbn [keep_others app]. step (get_id_record r w Hd).
    unfold bind. now rewrite IH.
Qed.

(** X15: an element of the stored list that is not a dict makes the list
    steps raise an [AttributeError] naming its type: the comprehension of
    [delete_settings] wherever the element is, the loop of
    [update_settings] when no record before it has the id. *)
Theorem non_record_element_raises (l1 l2 : list json) (s : json)
    (id : option string) (new_settings : json) (w : world) :
  records l1 -> is_dict s = false ->
  delete_list (JList (l1 ++ s :: l2)) id w = (Raise (no_get s), w) /\
  (Forall (fun r => has_id id r = false) l1 ->
   update_list (JList (l1 ++ s :: l2)) id new_settings w
   = (Raise (no_get s), w)).
Proof.
  intros Hr Hs. split.
  - unfold delete_list, Py.iter. unfold bind at 1, ret at 1.
    step (keep_others_stumbles l1 l2 s id w Hr Hs). reflexivity.
  - intros Hn. unfold update_list, Py.iter. unfold bind at 1, ret at 1.
    step (find_setting_stumbles l1 l2 s id 0 w Hr Hn Hs). reflexivity.
Qed.

Lemma non_record_element_raises_witness :
  records [rec_1_v1] /\ is_dict (JInt 3) = false /\
  (delete_list (JList ([rec_1_v1] ++ JInt 3 :: [])) (Some "9")
     (fresh false ∅ ∅ []) = (Raise (no_get (JInt 3)), fresh false ∅ ∅ []) /\
   (Forall (fun r => has_id (Some "9") r = false) [rec_1_v1] ->
    update_list (JList ([rec_1_v1] ++ JInt 3 :: [])) (Some "9") rec_1_v2
      (fresh false ∅ ∅ []) = (Raise (no_get (JInt 3)), fresh false ∅ ∅ []))).
Proof.
  split; [repeat constructor|]. split; [reflexivity|].
  apply (non_record_element_raises [rec_1_v1] [] (JInt 3) (Some "9") rec_1_v2
           (fresh false ∅ ∅ [])); [repeat constructor | reflexivity].
Defined.

(** X16: when the stored value is not a list. A number, a boolean or
    [null] cannot be iterated: both list steps raise a [TypeError]. An
    empty object or an empty string can: the comprehension of
    [delete_settings] returns the empty list, which would then be saved in
    its place, while the loop of [update_settings] finds nothing and fails
    on [append]. A non-empty object or string yields a string first, which
    has no [get]. *)
Theorem non_list_store (v : json) (id : option string) (new_settings : json)
    (w : world) :
  (forall l, v <> JList l) ->
  match v with
  | JNull | JBool _ | JInt _ =>
      let e := mk_exn TypeError_
                 ("'" ++ Py.type_name v ++ "' object is not iterable") in
      update_list v id new_settings w = (Raise e, w) /\
      delete_list v id w = (Raise e, w)
  | JObj [] | JStr "" =>
      update_list v id new_settings w
      = (Raise (mk_exn AttributeError_
                  ("'" ++ Py.type_name v
                   ++ "' object has no attribute 'append'")), w) /\
      delete_list v id w = (Ret (JList []), w)
  | JObj (_ :: _) | JStr (String _ _) =>
      update_list v id new_settings w = (Raise (no_get (JStr "")), w) /\
      delete_list v id w = (Raise (no_get (JStr "")), w)
  | JList _ => False
  end.
Proof.
  intros Hv.
  destruct v as [| | |s|l|kv]; try (split; reflexivity).
  - destruct s; split; reflexivity.
  - now apply (Hv l).
  - destruct kv as [|[k x] kv]; split; reflexivity.
Qed.

Lemma non_list_store_witness :
  (forall l, JObj [] <> JList l) /\
  (update_list (JObj []) (Some "1") rec_1_v1 (fresh false ∅ ∅ [])
   = (Raise (mk_exn AttributeError_
               "'dict' object has no attribute 'append'"),
      fresh false ∅ ∅ []) /\
   delete_list (JObj []) (Some "1") (fresh false ∅ ∅ [])
   = (Ret (JList []), fresh false ∅ ∅ [])).
Proof.
  split; [intros l; discriminate|].
  apply (non_list_store (JObj []) (Some "1") rec_1_v1 (fresh false ∅ ∅ [])).
  intros l; discriminate.
Defined.

(** ** Descriptors through [save_settings] *)

Lemma makedirs_fds (d : string) (w : world) :
  same_fds w (snd (OS.makedirs d w)).
Proof.
  destruct (makedirs_made_dirs d w) as (_ & _ & _ & _ & Eo & El & En & _).
  unfold same_fds. rewrite Eo, El, En. auto.
Qed.

(** The world after the dump: the file was written and closed, whether the
    environment failed the write, [json.dump] gave up by itself, or all
    went well; or it could not be opened. *)
Lemma dump_world (tp : string) (v : pyobj) (w : world) :
  (exists c, snd (OS.json_dump_to tp v w) = written tp c w)
  \/ (exists c, snd (OS.json_dump_to tp v w)
                = closed (next_fd w)
                    (set_files (<[ tp := c ]> (files (after_open tp ModeW w)))
                       (after_open tp ModeW w)))
  \/ snd (OS.json_dump_to tp v w) = open_failed tp ModeW w.
Proof.
  unfold OS.json_dump_to.
  destruct (open_result tp ModeW w) as [Hopen|(c & Hopen)].
  - step Hopen. destruct (Json.dump_error v); run.
    + right; left. rewrite Nat.eqb_refl. eexists; reflexivity.
    + left. destruct (hd None (tl (script w))); simpl; rewrite Nat.eqb_refl;
        eexists; reflexivity.
  - right; right. step Hopen. reflexivity.
Qed.

(** The [with] statement closes the temporary file, written or not. *)
Lemma dump_fds (tp : string) (v : pyobj) (w : world) :
  tidy w -> same_fds w (snd (OS.json_dump_to tp v w)).
Proof.
  intros Ht. destruct (dump_world tp v w) as [(c & ->)|[(c & ->)| ->]].
  - destruct (closed_after_refusal tp ModeW w Ht) as [H _]. exact H.
  - destruct (closed_after_refusal tp ModeW w Ht) as [H _]. exact H.
  - repeat split. simpl. lia.
Qed.

Lemma replace_fds (src dst : string) (w : world) :
  same_fds w (snd (OS.replace src dst w)) /\
  trace (snd (OS.replace src dst w)) = trace w.
Proof.
  unfold same_fds, OS.replace. run.
  destruct (hd None (script w)); simpl; [auto 6|].
  destruct (files w !! src); simpl; [|auto 6].
  destruct (bool_decide _); simpl; auto 6.
Qed.

Lemma save_except_fds (tp : string) (e : exn) (w : world) :
  same_fds w (snd (save_except None (Some tp) e w)) /\
  trace (snd (save_except None (Some tp) e w)) = trace w.
Proof.
  unfold same_fds, save_except, release_if_bound, OS.remove. run.
  destruct (_ || _); simpl; [|auto 6].
  destruct (hd None (script w)); simpl; [auto 6|].
  destruct (files w !! tp); simpl; auto 6.
Qed.

Lemma save_except_bound (h : handle) (tp : string) (e : exn) (w w2 : world) :
  _release_file_lock h w = (Ret tt, w2) ->
  save_except (Some h) (Some tp) e w = save_except None (Some tp) e w2.
Proof.
  intros Hrel. unfold save_except, release_if_bound. step Hrel.
  unfold bind at 2, ret at 1. reflexivity.
Qed.

Lemma fds_kept_after (w w1 w2 : world) :
  fds_kept w w1 -> same_fds w1 w2 -> trace w2 = trace w1 -> fds_kept w w2.
Proof.
  intros (Ht & H) Hs Etr. split; [now apply (tidy_same_fds w1)|].
  destruct Hs as (Eo & El & _). rewrite Eo, El, Etr. exact H.
Qed.

Lemma fds_kept_same (w w1 : world) : tidy w -> same_fds w w1 -> fds_kept w w1.
Proof.
  intros Ht Hs. split; [now apply (tidy_same_fds w)|].
  left. destruct Hs as (Eo & El & _). auto.
Qed.

Lemma save_body_fds (p : string) (X : pyobj) (w w1 : world)
    (r : outcome unit) :
  tidy w ->
  (try! _ := OS.makedirs (OS.dirname p) except save_except None None in
   try! _ := OS.json_dump_to (p ++ ".tmp") X
     except save_except None (Some (p ++ ".tmp")) in
   try! file := _acquire_file_lock p ModeW
     except save_except None (Some (p ++ ".tmp")) in
   try! _ := OS.replace (p ++ ".tmp") p
     except save_except (Some file) (Some (p ++ ".tmp")) in
   _release_file_lock file) w = (r, w1) ->
  fds_kept w w1.
Proof.
  intros Ht.
  (* os.makedirs *)
  unfold try_bind at 1.
  pose proof (makedirs_fds (OS.dirname p) w) as Hsa.
  pose proof (makedirs_returns (OS.dirname p) w) as Hnb.
  destruct (OS.makedirs (OS.dirname p) w) as [[[]|e|] wa];
    simpl in Hsa, Hnb; [| |contradiction].
  2:{ unfold save_except, release_if_bound, bind, ret, raise.
      intros [= <- <-]. now apply fds_kept_same. }
  pose proof (tidy_same_fds _ _ Ht Hsa) as Hta.
  (* the dump *)
  unfold try_bind at 1.
  pose proof (dump_fds (p ++ ".tmp") X wa Hta) as Hsb.
  pose proof (same_fds_trans _ _ _ Hsa Hsb) as Hswb.
  destruct (OS.json_dump_to (p ++ ".tmp") X wa) as [[[]|e|] wb] eqn:Hdump;
    simpl in Hsb, Hswb.
  2:{ intros H. pose proof (save_except_fds (p ++ ".tmp") e wb) as (Hs & _).
      rewrite H in Hs. simpl in Hs. apply fds_kept_same; [exact Ht|].
      eapply same_fds_trans; eauto. }
  2:{ pose proof (json_dump_to_returns (p ++ ".tmp") X wa) as H.
      rewrite Hdump in H. now destruct H. }
  pose proof (tidy_same_fds _ _ Ht Hswb) as Htb.
  (* the lock *)
  unfold try_bind at 1.
  destruct (_acquire_file_lock p ModeW wb) as [[h|e|] wc] eqn:Hacq.
  3:{ apply acquire_loop_spec in Hacq as (t & _ & []). unfold MAX_RETRIES. lia. }
  2:{ apply acquire_loop_state in Hacq as (_ & _ & Hfd); [|unfold MAX_RETRIES; lia].
      destruct (Hfd Htb I) as (Htc & Eo & El).
      intros H. pose proof (save_except_fds (p ++ ".tmp") e wc) as (Hs & Etr).
      rewrite H in Hs, Etr. simpl in Hs, Etr.
      apply (fds_kept_after w wc); [|exact Hs|exact Etr].
      split; [exact Htc|]. left. destruct Hswb as (E1 & E2 & _).
      now rewrite Eo, El, E1, E2. }
  apply acquire_loop_state in Hacq as (_ & _ & Hfd); [|unfold MAX_RETRIES; lia].
  destruct (Hfd Htb I) as (Htc & Hfresh & Eo & El).
  pose proof (not_open_not_locked _ _ Htb Hfresh) as Hfree.
  (* os.replace, then the release, in the [try] block or in [except] *)
  assert (Hrelease : forall wd, same_fds wc wd -> trace wd = trace wc ->
                       fds_kept w (snd (_release_file_lock h wd))).
  { intros wd (E1 & E2 & Hn) _.
    assert (Htd : tidy wd) by (apply (tidy_same_fds wc); [exact Htc|]; split; auto).
    rewrite Eo in E1. rewrite El in E2.
    destruct (release_after_acquire h wd _ _ Htd E1 E2 Hfresh Hfree)
      as (Hte & _ & Hfds).
    split; [exact Hte|]. destruct Hswb as (E3 & E4 & _).
    rewrite <- E3, <- E4. exact Hfds. }
  unfold try_bind at 1.
  pose proof (replace_fds (p ++ ".tmp") p wc) as (Hsd & Etd).
  destruct (OS.replace (p ++ ".tmp") p wc) as [[[]|e|] wd] eqn:Hrep;
    simpl in Hsd, Etd.
  3:{ pose proof (replace_returns (p ++ ".tmp") p wc) as H.
      rewrite Hrep in H. now destruct H. }
  2:{ destruct (release_cases p h wd) as (we & t & Hrel & _).
      rewrite (save_except_bound h _ e wd we Hrel).
      specialize (Hrelease wd Hsd Etd). rewrite Hrel in Hrelease.
      intros H. pose proof (save_except_fds (p ++ ".tmp") e we) as (Hs & Etr).
      rewrite H in Hs, Etr. simpl in Hs, Etr.
      now apply (fds_kept_after w we). }
  specialize (Hrelease wd Hsd Etd). intros H. now rewrite H in Hrelease.
Qed.

(** X17: [save_settings] gives back the descriptors it takes, whatever the
    environment does and whether it returns or raises: in a tidy world the
    descriptors open and the locks held afterwards are those of before,
    unless the unlock of the target failed, which is reported by the
    warning of [_release_file_lock]. The temporary file is closed in every
    case. *)
Theorem save_settings_gives_back_descriptors (p : string) (X : json)
    (w : world) :
  mutex w = false -> tidy w ->
  tidy (snd (save_settings p X w)) /\
  ((opened (snd (save_settings p X w)) = opened w /\
    flocked (snd (save_settings p X w)) = flocked w)
   \/ exists msg, In (release_warning msg) (trace (snd (save_settings p X w)))).
Proof.
  intros Hm Ht. unfold save_settings, with_lock. rewrite Hm.
  match goal with |- context [?b (set_mutex true w)] =>
    destruct (b (set_mutex true w)) as [r w1] eqn:Hbody end.
  apply save_body_fds in Hbody; [|exact Ht].
  destruct r as [[]|e|]; exact Hbody.
Qed.

Lemma save_settings_gives_back_descriptors_witness :
  mutex (stored true [rec_1_v1] replace_fails) = false /\
  tidy (stored true [rec_1_v1] replace_fails) /\
  (tidy (snd (save_settings settings_json (JList [rec_1_v2])
                (stored true [rec_1_v1] replace_fails))) /\
   ((opened (snd (save_settings settings_json (JList [rec_1_v2])
                    (stored true [rec_1_v1] replace_fails)))
     = opened (stored true [rec_1_v1] replace_fails) /\
     flocked (snd (save_settings settings_json (JList [rec_1_v2])
                     (stored true [rec_1_v1] replace_fails)))
     = flocked (stored true [rec_1_v1] replace_fails))
    \/ exists msg,
         In (release_warning msg)
            (trace (snd (save_settings settings_json (JList [rec_1_v2])
                           (stored true [rec_1_v1] replace_fails)))))).
Proof.
  split; [reflexivity|]. split; [split; constructor|].
  apply (save_settings_gives_back_descriptors settings_json (JList [rec_1_v2])
           (stored true [rec_1_v1] replace_fails)).
  - reflexivity.
  - split; constructor.
Defined.
